(** * ndnSIM: consumer retransmission control and congestion-aware forwarding

    A shallow embedding of

    - [apps/ndn-consumer.cc] and [apps/ndn-consumer-rate.cc]: the consumer
      application (popularity table, request issuance, timeout ledger,
      reaction to negative acknowledgements), and
    - [model/fw/congestion-aware.cc]: the congestion-aware forwarding
      strategy (weighted face selection, reaction to negative
      acknowledgements),

    followed by the properties proved about them. *)

From Stdlib Require Import ZArith List Lia Bool Sorted String Reals Lra.
From Stdlib Require Import Floats.
From stdpp Require Import gmap.
Import ListNotations.

Local Open Scope Z_scope.

(** ** Machine integers *)

(** [uint32_t] values are integers in [[0, 2^32)]; arithmetic on them wraps. *)
Definition UINT32_MAX : Z := 4294967295.

Definition wrap32 (z : Z) : Z := z mod 2 ^ 32.

(** ** Floating-point arithmetic

    The C++ code computes with [double].  The operations it uses are
    collected in an interface, so that every definition below is the same
    program text whatever arithmetic executes it.  The arithmetic of the code
    is the instance [Binary64] below (IEEE 754 binary64, the primitive floats
    of Rocq); results that only depend on the shape of the program are proved
    for all arithmetics, numerical results under explicit laws
    ([DoubleLaws]). *)
Class Double : Type := {
  double : Type;
  d_zero : double;                      (* the literal 0.0 *)
  d_one : double;                       (* the literal 1.0 *)
  d_add : double -> double -> double;   (* x + y *)
  d_mul : double -> double -> double;   (* x * y *)
  d_div : double -> double -> double;   (* x / y *)
  d_pow : double -> double -> double;   (* std::pow (x, y) *)
  d_of_uint : Z -> double;              (* conversion of a uint32_t *)
  d_leb : double -> double -> bool;     (* x <= y *)
  d_eqb : double -> double -> bool;     (* x == y *)
  d_seconds : double -> Z               (* ns3::Seconds (x), in clock ticks *)
}.

Definition d_le `{Double} (x y : double) : Prop := d_leb x y = true.
Definition d_lt `{Double} (x y : double) : Prop := d_leb x y = true /\ d_leb y x = false.

(** Laws of the arithmetic used for the numerical properties of the
    popularity table.  They are laws of IEEE 754 arithmetic with rounding to
    nearest, [finite] being "neither an infinity nor NaN": a comparison with
    NaN is false, so the premises exclude NaN; rounding is monotone and leaves
    representable numbers alone, so adding a number that is not negative does
    not decrease and dividing by a positive finite number preserves the
    order; a positive finite number divided by itself is exactly 1.  Division
    by an infinity is left out: infinity / infinity is NaN.  [occurs]
    delimits the numbers at which a property needs the laws; for an
    arithmetic that has them everywhere it is [fun _ => True]. *)
Class DoubleLaws (D : Double) (occurs finite : double -> Prop) : Prop := {
  d_le_zero_zero : d_le d_zero d_zero;
  d_le_trans : forall x y z, occurs x -> occurs y -> occurs z ->
    d_le x y -> d_le y z -> d_le x z;
  d_add_nonneg_le : forall x y, occurs x -> occurs y ->
    d_le d_zero x -> d_le d_zero y -> d_le x (d_add x y);
  d_add_pos : forall x y, occurs x -> occurs y ->
    d_le d_zero x -> d_lt d_zero y -> d_lt d_zero (d_add x y);
  d_div_nonneg : forall x z, occurs x -> occurs z ->
    d_le d_zero x -> d_lt d_zero z -> finite z -> d_le d_zero (d_div x z);
  d_div_mono : forall x y z, occurs x -> occurs y -> occurs z ->
    d_le x y -> d_lt d_zero z -> finite z -> d_le (d_div x z) (d_div y z);
  d_div_self : forall x, occurs x -> d_lt d_zero x -> finite x -> d_div x x = d_one
}.

(** *** IEEE 754 binary64

    [double] is the type of primitive floats, with their operations.
    [std::pow] is a function of the C library and not an IEEE operation: it
    is a parameter of the instance.  A [uint32_t] is converted exactly. *)
Definition float_of_uint (z : Z) : float := PrimFloat.of_uint63 (Uint63.of_Z z).

(** Modelled from the name: the code of [ns3::Seconds] is not part of the
    sources.  The number of nanoseconds, truncated as the conversion of a
    [double] to an integer is in C++ ([0] where that conversion is
    undefined). *)
Definition float_to_int (x : float) : Z :=
  match Prim2SF x with
  | S754_finite s m e =>
      let magnitude := if 0 <=? e then Z.pos m * 2 ^ e else Z.pos m / 2 ^ (- e) in
      if s then - magnitude else magnitude
  | _ => 0
  end.

Definition Binary64 (pow : float -> float -> float) : Double :=
  {| double := float; d_zero := PrimFloat.zero; d_one := PrimFloat.one;
     d_add := PrimFloat.add; d_mul := PrimFloat.mul; d_div := PrimFloat.div;
     d_pow := pow; d_of_uint := float_of_uint; d_leb := PrimFloat.leb;
     d_eqb := PrimFloat.eqb;
     d_seconds := fun x => float_to_int (PrimFloat.mul x (float_of_uint 1000000000)) |}.

(** [std::pow (x, y)] for the exponents 0 and 1, at which its value does not
    depend on the C library: [pow (x, +-0)] is 1 for every [x], NaN included
    (C11, F.10.4.4), and [pow (x, 1)] is [x], the exact result.  The examples
    in binary64 use these two exponents only; at any other exponent the power
    is not modelled and the answer is NaN. *)
Definition pow_exponent_0_or_1 (x y : float) : float :=
  if PrimFloat.eqb y PrimFloat.zero then PrimFloat.one
  else if PrimFloat.eqb y PrimFloat.one then x
  else PrimFloat.nan.

(** *** Real numbers

    An arithmetic without rounding, infinities and NaN, in which the laws are
    proved ([ExactLaws]); it is not the arithmetic of the code.  The example
    states built on it below only hold numbers that binary64 represents
    exactly.  The power of a base that is not positive is 0 here, so that
    [1 / pow] is not positive either: [std::pow] yields 0, an infinity or NaN
    for such a base unless the exponent is an integer. *)
Definition R_leb (x y : R) : bool := if Rle_dec x y then true else false.

Definition R_eqb (x y : R) : bool := if Req_dec_T x y then true else false.

Definition R_pow (x y : R) : R := if Rlt_dec 0 x then Rpower x y else 0%R.

Definition ExactArithmetic : Double :=
  {| double := R; d_zero := 0%R; d_one := 1%R; d_add := Rplus; d_mul := Rmult;
     d_div := Rdiv; d_pow := R_pow; d_of_uint := IZR; d_leb := R_leb;
     d_eqb := R_eqb; d_seconds := fun x => Int_part (x * 1000000000) |}.

(** ** Simulator types *)

(** [ns3::Time]: a count of clock ticks (nanoseconds by default).  Simulated
    times stay far below the 63-bit range of the C++ representation, which is
    therefore not modelled. *)
Definition Time : Type := Z.

(** [ns3::EventId] as the consumer uses it: either no event is pending
    ([IsRunning ()] is false) or one is, due at the given time. *)
Definition EventId : Type := option Time.

Definition IsRunning (e : EventId) : bool :=
  match e with Some _ => true | None => false end.

(** [Simulator::Schedule (delay, ...)] called at time [now]. *)
Definition Schedule (now delay : Time) : EventId := Some (now + delay).

(** Outcome of a call that may stop on [NS_ASSERT_MSG], or whose loop may
    still be running when the model's fuel is spent. *)
Inductive Outcome (A : Type) : Type :=
| Returned (a : A)
| AssertionFailed (msg : string)
| OutOfFuel.
Arguments Returned {A} a.
Arguments AssertionFailed {A} msg.
Arguments OutOfFuel {A}.

(** ** Containers *)

(** [std::set<uint32_t>]: the elements in increasing order, without
    repetition; [begin ()] is the head of the list. *)
Module StdSet.

Fixpoint insert (x : Z) (s : list Z) : list Z :=
  match s with
  | [] => [x]
  | y :: r => if x <? y then x :: s
              else if x =? y then s
              else y :: insert x r
  end.

Definition erase (x : Z) (s : list Z) : list Z :=
  List.filter (fun y => negb (y =? x)) s.

Definition count (x : Z) (s : list Z) : bool :=
  existsb (fun y => y =? x) s.

End StdSet.

(** Modelled from the spec: the declaration of [SeqTimeoutsContainer]
    ([ndn-consumer.h]) is not part of the sources.  The code uses it as a
    Boost multi-index container of [SeqTimeout (seq, time)] records with a
    unique index on [seq] ([find], [count], [erase] by sequence number:
    "one per outstanding sequence number") and an ordered index [i_timestamp]
    on [time] (scanned "in ascending order").  The list holds the records in
    the order of the [i_timestamp] index; among equal times the older
    insertion comes first.  [insert] does nothing when a record with the same
    [seq] is present, which is why [WillSendOutInterest] erases from
    [m_seqLastDelay] before inserting and why [m_seqFullDelay] keeps the time
    of the first transmission. *)
Record SeqTimeout : Type := mkSeqTimeout { seq : Z; time : Time }.

Definition SeqTimeoutsContainer : Type := list SeqTimeout.

Module SeqTimeouts.

Definition find (s : Z) (c : SeqTimeoutsContainer) : option SeqTimeout :=
  List.find (fun e => seq e =? s) c.

Definition count (s : Z) (c : SeqTimeoutsContainer) : bool :=
  existsb (fun e => seq e =? s) c.

Fixpoint place (e : SeqTimeout) (c : SeqTimeoutsContainer) : SeqTimeoutsContainer :=
  match c with
  | [] => [e]
  | x :: r => if time e <? time x then e :: c else x :: place e r
  end.

Definition insert (e : SeqTimeout) (c : SeqTimeoutsContainer) : SeqTimeoutsContainer :=
  if count (seq e) c then c else place e c.

Definition erase (s : Z) (c : SeqTimeoutsContainer) : SeqTimeoutsContainer :=
  List.filter (fun e => negb (seq e =? s)) c.

Definition size (c : SeqTimeoutsContainer) : Z := Z.of_nat (length c).

(** The two index invariants. *)
Definition time_sorted (c : SeqTimeoutsContainer) : Prop :=
  StronglySorted (fun a b => time a <= time b) c.

Definition seq_unique (c : SeqTimeoutsContainer) : Prop :=
  List.NoDup (map seq c).

End SeqTimeouts.

(** ** The consumer application ([ndn-consumer.cc], [ndn-consumer-rate.cc]) *)

Inductive RequestMode : Type := SEQUENTIAL | ZIPF_MANDELBROT.

(** The Interest handed to the protocol stack: the optional random name
    component, the sequence number appended to the prefix, the nonce and the
    lifetime. *)
Record Interest : Type := mkInterest {
  i_randComponent : option (list Z);
  i_seq : Z;
  i_nonce : Z;
  i_lifetime : Time
}.

(** Calls made to the collaborators of the consumer, in the order they are
    made: the RTT estimator ([m_rtt]), the tracing of the base class [App],
    the trace sources and the protocol handler. *)
Inductive Event : Type :=
| RttSentSeq (s : Z) (size : Z)
| RttAckSeq (s : Z)
| AppOnNack (s : Z)
| AppOnContentObject (s : Z)
| TransmittedInterest (i : Interest)
| LastRetransmittedInterestDataDelay (s : Z) (delay : Time) (hopCount : Z)
| FirstInterestDataDelay (s : Z) (delay : Time) (retxCount : Z) (hopCount : Z).

Section ConsumerModel.

Context `{D : Double}.

(** [m_rand]: the random variable of the consumer.  Its answers are an input
    of the model: the [k]-th call returns [rv_value k] when it is
    [GetValue (0.0, 1.0)], [rv_integer k lo hi] when it is
    [GetInteger (lo, hi)] and [rv_nonce k] when it is the [GetValue ()] stored
    in the nonce.  [rv_calls] counts the calls made so far. *)
Record RandomVariable : Type := mkRandomVariable {
  rv_value : nat -> double;
  rv_integer : nat -> Z -> Z -> Z;
  rv_nonce : nat -> Z;
  rv_calls : nat
}.

Definition rv_next (rv : RandomVariable) : RandomVariable :=
  {| rv_value := rv_value rv; rv_integer := rv_integer rv; rv_nonce := rv_nonce rv;
     rv_calls := S (rv_calls rv) |}.

Definition GetValue01 (rv : RandomVariable) : double * RandomVariable :=
  (rv_value rv (rv_calls rv), rv_next rv).

Definition GetInteger (lo hi : Z) (rv : RandomVariable) : Z * RandomVariable :=
  (rv_integer rv (rv_calls rv) lo hi, rv_next rv).

Definition GetNonce (rv : RandomVariable) : Z * RandomVariable :=
  (rv_nonce rv (rv_calls rv), rv_next rv).

(** The state of a [ConsumerRate] object: the members of [Consumer], the two
    members of [ConsumerRate] used by [ScheduleNextPacket], and [m_log], the
    calls made to the collaborators so far. *)
Record Consumer : Type := mkConsumer {
  m_active : bool;
  m_rand : RandomVariable;
  m_seq : Z;
  m_seqMax : Z;
  m_requestMode : RequestMode;
  m_N : Z;
  m_q : double;
  m_s : double;
  m_Pcum : list double;
  m_randCompLenMax : Z;
  m_randCompName : list Z;
  m_interestLifeTime : Time;
  m_retxTimer : Time;
  m_retxEvent : EventId;
  m_sendEvent : EventId;
  m_retxSeqs : list Z;
  m_seqTimeouts : SeqTimeoutsContainer;
  m_seqLastDelay : SeqTimeoutsContainer;
  m_seqFullDelay : SeqTimeoutsContainer;
  m_seqRetxCounts : gmap Z Z;
  m_firstTime : bool;
  m_frequency : double;
  m_log : list Event
}.

Definition set_m_rand (v : RandomVariable) (c : Consumer) : Consumer :=
  {| m_active := m_active c; m_rand := v; m_seq := m_seq c; m_seqMax := m_seqMax c;
     m_requestMode := m_requestMode c; m_N := m_N c; m_q := m_q c; m_s := m_s c; m_Pcum
     := m_Pcum c; m_randCompLenMax := m_randCompLenMax c; m_randCompName :=
     m_randCompName c; m_interestLifeTime := m_interestLifeTime c; m_retxTimer :=
     m_retxTimer c; m_retxEvent := m_retxEvent c; m_sendEvent := m_sendEvent c;
     m_retxSeqs := m_retxSeqs c; m_seqTimeouts := m_seqTimeouts c; m_seqLastDelay :=
     m_seqLastDelay c; m_seqFullDelay := m_seqFullDelay c; m_seqRetxCounts :=
     m_seqRetxCounts c; m_firstTime := m_firstTime c; m_frequency := m_frequency c;
     m_log := m_log c |}.

Definition set_m_seq (v : Z) (c : Consumer) : Consumer :=
  {| m_active := m_active c; m_rand := m_rand c; m_seq := v; m_seqMax := m_seqMax c;
     m_requestMode := m_requestMode c; m_N := m_N c; m_q := m_q c; m_s := m_s c; m_Pcum
     := m_Pcum c; m_randCompLenMax := m_randCompLenMax c; m_randCompName :=
     m_randCompName c; m_interestLifeTime := m_interestLifeTime c; m_retxTimer :=
     m_retxTimer c; m_retxEvent := m_retxEvent c; m_sendEvent := m_sendEvent c;
     m_retxSeqs := m_retxSeqs c; m_seqTimeouts := m_seqTimeouts c; m_seqLastDelay :=
     m_seqLastDelay c; m_seqFullDelay := m_seqFullDelay c; m_seqRetxCounts :=
     m_seqRetxCounts c; m_firstTime := m_firstTime c; m_frequency := m_frequency c;
     m_log := m_log c |}.

Definition set_m_N (v : Z) (c : Consumer) : Consumer :=
  {| m_active := m_active c; m_rand := m_rand c; m_seq := m_seq c; m_seqMax := m_seqMax
     c; m_requestMode := m_requestMode c; m_N := v; m_q := m_q c; m_s := m_s c; m_Pcum
     := m_Pcum c; m_randCompLenMax := m_randCompLenMax c; m_randCompName :=
     m_randCompName c; m_interestLifeTime := m_interestLifeTime c; m_retxTimer :=
     m_retxTimer c; m_retxEvent := m_retxEvent c; m_sendEvent := m_sendEvent c;
     m_retxSeqs := m_retxSeqs c; m_seqTimeouts := m_seqTimeouts c; m_seqLastDelay :=
     m_seqLastDelay c; m_seqFullDelay := m_seqFullDelay c; m_seqRetxCounts :=
     m_seqRetxCounts c; m_firstTime := m_firstTime c; m_frequency := m_frequency c;
     m_log := m_log c |}.

Definition set_m_q (v : double) (c : Consumer) : Consumer :=
  {| m_active := m_active c; m_rand := m_rand c; m_seq := m_seq c; m_seqMax := m_seqMax
     c; m_requestMode := m_requestMode c; m_N := m_N c; m_q := v; m_s := m_s c; m_Pcum
     := m_Pcum c; m_randCompLenMax := m_randCompLenMax c; m_randCompName :=
     m_randCompName c; m_interestLifeTime := m_interestLifeTime c; m_retxTimer :=
     m_retxTimer c; m_retxEvent := m_retxEvent c; m_sendEvent := m_sendEvent c;
     m_retxSeqs := m_retxSeqs c; m_seqTimeouts := m_seqTimeouts c; m_seqLastDelay :=
     m_seqLastDelay c; m_seqFullDelay := m_seqFullDelay c; m_seqRetxCounts :=
     m_seqRetxCounts c; m_firstTime := m_firstTime c; m_frequency := m_frequency c;
     m_log := m_log c |}.

Definition set_m_s (v : double) (c : Consumer) : Consumer :=
  {| m_active := m_active c; m_rand := m_rand c; m_seq := m_seq c; m_seqMax := m_seqMax
     c; m_requestMode := m_requestMode c; m_N := m_N c; m_q := m_q c; m_s := v; m_Pcum
     := m_Pcum c; m_randCompLenMax := m_randCompLenMax c; m_randCompName :=
     m_randCompName c; m_interestLifeTime := m_interestLifeTime c; m_retxTimer :=
     m_retxTimer c; m_retxEvent := m_retxEvent c; m_sendEvent := m_sendEvent c;
     m_retxSeqs := m_retxSeqs c; m_seqTimeouts := m_seqTimeouts c; m_seqLastDelay :=
     m_seqLastDelay c; m_seqFullDelay := m_seqFullDelay c; m_seqRetxCounts :=
     m_seqRetxCounts c; m_firstTime := m_firstTime c; m_frequency := m_frequency c;
     m_log := m_log c |}.

Definition set_m_Pcum (v : list double) (c : Consumer) : Consumer :=
  {| m_active := m_active c; m_rand := m_rand c; m_seq := m_seq c; m_seqMax := m_seqMax
     c; m_requestMode := m_requestMode c; m_N := m_N c; m_q := m_q c; m_s := m_s c;
     m_Pcum := v; m_randCompLenMax := m_randCompLenMax c; m_randCompName :=
     m_randCompName c; m_interestLifeTime := m_interestLifeTime c; m_retxTimer :=
     m_retxTimer c; m_retxEvent := m_retxEvent c; m_sendEvent := m_sendEvent c;
     m_retxSeqs := m_retxSeqs c; m_seqTimeouts := m_seqTimeouts c; m_seqLastDelay :=
     m_seqLastDelay c; m_seqFullDelay := m_seqFullDelay c; m_seqRetxCounts :=
     m_seqRetxCounts c; m_firstTime := m_firstTime c; m_frequency := m_frequency c;
     m_log := m_log c |}.

Definition set_m_randCompName (v : list Z) (c : Consumer) : Consumer :=
  {| m_active := m_active c; m_rand := m_rand c; m_seq := m_seq c; m_seqMax := m_seqMax
     c; m_requestMode := m_requestMode c; m_N := m_N c; m_q := m_q c; m_s := m_s c;
     m_Pcum := m_Pcum c; m_randCompLenMax := m_randCompLenMax c; m_randCompName := v;
     m_interestLifeTime := m_interestLifeTime c; m_retxTimer := m_retxTimer c;
     m_retxEvent := m_retxEvent c; m_sendEvent := m_sendEvent c; m_retxSeqs :=
     m_retxSeqs c; m_seqTimeouts := m_seqTimeouts c; m_seqLastDelay := m_seqLastDelay c;
     m_seqFullDelay := m_seqFullDelay c; m_seqRetxCounts := m_seqRetxCounts c;
     m_firstTime := m_firstTime c; m_frequency := m_frequency c; m_log := m_log c |}.

Definition set_m_retxEvent (v : EventId) (c : Consumer) : Consumer :=
  {| m_active := m_active c; m_rand := m_rand c; m_seq := m_seq c; m_seqMax := m_seqMax
     c; m_requestMode := m_requestMode c; m_N := m_N c; m_q := m_q c; m_s := m_s c;
     m_Pcum := m_Pcum c; m_randCompLenMax := m_randCompLenMax c; m_randCompName :=
     m_randCompName c; m_interestLifeTime := m_interestLifeTime c; m_retxTimer :=
     m_retxTimer c; m_retxEvent := v; m_sendEvent := m_sendEvent c; m_retxSeqs :=
     m_retxSeqs c; m_seqTimeouts := m_seqTimeouts c; m_seqLastDelay := m_seqLastDelay c;
     m_seqFullDelay := m_seqFullDelay c; m_seqRetxCounts := m_seqRetxCounts c;
     m_firstTime := m_firstTime c; m_frequency := m_frequency c; m_log := m_log c |}.

Definition set_m_sendEvent (v : EventId) (c : Consumer) : Consumer :=
  {| m_active := m_active c; m_rand := m_rand c; m_seq := m_seq c; m_seqMax := m_seqMax
     c; m_requestMode := m_requestMode c; m_N := m_N c; m_q := m_q c; m_s := m_s c;
     m_Pcum := m_Pcum c; m_randCompLenMax := m_randCompLenMax c; m_randCompName :=
     m_randCompName c; m_interestLifeTime := m_interestLifeTime c; m_retxTimer :=
     m_retxTimer c; m_retxEvent := m_retxEvent c; m_sendEvent := v; m_retxSeqs :=
     m_retxSeqs c; m_seqTimeouts := m_seqTimeouts c; m_seqLastDelay := m_seqLastDelay c;
     m_seqFullDelay := m_seqFullDelay c; m_seqRetxCounts := m_seqRetxCounts c;
     m_firstTime := m_firstTime c; m_frequency := m_frequency c; m_log := m_log c |}.

Definition set_m_retxSeqs (v : list Z) (c : Consumer) : Consumer :=
  {| m_active := m_active c; m_rand := m_rand c; m_seq := m_seq c; m_seqMax := m_seqMax
     c; m_requestMode := m_requestMode c; m_N := m_N c; m_q := m_q c; m_s := m_s c;
     m_Pcum := m_Pcum c; m_randCompLenMax := m_randCompLenMax c; m_randCompName :=
     m_randCompName c; m_interestLifeTime := m_interestLifeTime c; m_retxTimer :=
     m_retxTimer c; m_retxEvent := m_retxEvent c; m_sendEvent := m_sendEvent c;
     m_retxSeqs := v; m_seqTimeouts := m_seqTimeouts c; m_seqLastDelay := m_seqLastDelay
     c; m_seqFullDelay := m_seqFullDelay c; m_seqRetxCounts := m_seqRetxCounts c;
     m_firstTime := m_firstTime c; m_frequency := m_frequency c; m_log := m_log c |}.

Definition set_m_seqTimeouts (v : SeqTimeoutsContainer) (c : Consumer) : Consumer :=
  {| m_active := m_active c; m_rand := m_rand c; m_seq := m_seq c; m_seqMax := m_seqMax
     c; m_requestMode := m_requestMode c; m_N := m_N c; m_q := m_q c; m_s := m_s c;
     m_Pcum := m_Pcum c; m_randCompLenMax := m_randCompLenMax c; m_randCompName :=
     m_randCompName c; m_interestLifeTime := m_interestLifeTime c; m_retxTimer :=
     m_retxTimer c; m_retxEvent := m_retxEvent c; m_sendEvent := m_sendEvent c;
     m_retxSeqs := m_retxSeqs c; m_seqTimeouts := v; m_seqLastDelay := m_seqLastDelay c;
     m_seqFullDelay := m_seqFullDelay c; m_seqRetxCounts := m_seqRetxCounts c;
     m_firstTime := m_firstTime c; m_frequency := m_frequency c; m_log := m_log c |}.

Definition set_m_seqLastDelay (v : SeqTimeoutsContainer) (c : Consumer) : Consumer :=
  {| m_active := m_active c; m_rand := m_rand c; m_seq := m_seq c; m_seqMax := m_seqMax
     c; m_requestMode := m_requestMode c; m_N := m_N c; m_q := m_q c; m_s := m_s c;
     m_Pcum := m_Pcum c; m_randCompLenMax := m_randCompLenMax c; m_randCompName :=
     m_randCompName c; m_interestLifeTime := m_interestLifeTime c; m_retxTimer :=
     m_retxTimer c; m_retxEvent := m_retxEvent c; m_sendEvent := m_sendEvent c;
     m_retxSeqs := m_retxSeqs c; m_seqTimeouts := m_seqTimeouts c; m_seqLastDelay := v;
     m_seqFullDelay := m_seqFullDelay c; m_seqRetxCounts := m_seqRetxCounts c;
     m_firstTime := m_firstTime c; m_frequency := m_frequency c; m_log := m_log c |}.

Definition set_m_seqFullDelay (v : SeqTimeoutsContainer) (c : Consumer) : Consumer :=
  {| m_active := m_active c; m_rand := m_rand c; m_seq := m_seq c; m_seqMax := m_seqMax
     c; m_requestMode := m_requestMode c; m_N := m_N c; m_q := m_q c; m_s := m_s c;
     m_Pcum := m_Pcum c; m_randCompLenMax := m_randCompLenMax c; m_randCompName :=
     m_randCompName c; m_interestLifeTime := m_interestLifeTime c; m_retxTimer :=
     m_retxTimer c; m_retxEvent := m_retxEvent c; m_sendEvent := m_sendEvent c;
     m_retxSeqs := m_retxSeqs c; m_seqTimeouts := m_seqTimeouts c; m_seqLastDelay :=
     m_seqLastDelay c; m_seqFullDelay := v; m_seqRetxCounts := m_seqRetxCounts c;
     m_firstTime := m_firstTime c; m_frequency := m_frequency c; m_log := m_log c |}.

Definition set_m_seqRetxCounts (v : gmap Z Z) (c : Consumer) : Consumer :=
  {| m_active := m_active c; m_rand := m_rand c; m_seq := m_seq c; m_seqMax := m_seqMax
     c; m_requestMode := m_requestMode c; m_N := m_N c; m_q := m_q c; m_s := m_s c;
     m_Pcum := m_Pcum c; m_randCompLenMax := m_randCompLenMax c; m_randCompName :=
     m_randCompName c; m_interestLifeTime := m_interestLifeTime c; m_retxTimer :=
     m_retxTimer c; m_retxEvent := m_retxEvent c; m_sendEvent := m_sendEvent c;
     m_retxSeqs := m_retxSeqs c; m_seqTimeouts := m_seqTimeouts c; m_seqLastDelay :=
     m_seqLastDelay c; m_seqFullDelay := m_seqFullDelay c; m_seqRetxCounts := v;
     m_firstTime := m_firstTime c; m_frequency := m_frequency c; m_log := m_log c |}.

Definition set_m_firstTime (v : bool) (c : Consumer) : Consumer :=
  {| m_active := m_active c; m_rand := m_rand c; m_seq := m_seq c; m_seqMax := m_seqMax
     c; m_requestMode := m_requestMode c; m_N := m_N c; m_q := m_q c; m_s := m_s c;
     m_Pcum := m_Pcum c; m_randCompLenMax := m_randCompLenMax c; m_randCompName :=
     m_randCompName c; m_interestLifeTime := m_interestLifeTime c; m_retxTimer :=
     m_retxTimer c; m_retxEvent := m_retxEvent c; m_sendEvent := m_sendEvent c;
     m_retxSeqs := m_retxSeqs c; m_seqTimeouts := m_seqTimeouts c; m_seqLastDelay :=
     m_seqLastDelay c; m_seqFullDelay := m_seqFullDelay c; m_seqRetxCounts :=
     m_seqRetxCounts c; m_firstTime := v; m_frequency := m_frequency c; m_log := m_log c
     |}.

Definition set_m_log (v : list Event) (c : Consumer) : Consumer :=
  {| m_active := m_active c; m_rand := m_rand c; m_seq := m_seq c; m_seqMax := m_seqMax
     c; m_requestMode := m_requestMode c; m_N := m_N c; m_q := m_q c; m_s := m_s c;
     m_Pcum := m_Pcum c; m_randCompLenMax := m_randCompLenMax c; m_randCompName :=
     m_randCompName c; m_interestLifeTime := m_interestLifeTime c; m_retxTimer :=
     m_retxTimer c; m_retxEvent := m_retxEvent c; m_sendEvent := m_sendEvent c;
     m_retxSeqs := m_retxSeqs c; m_seqTimeouts := m_seqTimeouts c; m_seqLastDelay :=
     m_seqLastDelay c; m_seqFullDelay := m_seqFullDelay c; m_seqRetxCounts :=
     m_seqRetxCounts c; m_firstTime := m_firstTime c; m_frequency := m_frequency c;
     m_log := v |}.

Definition log (e : Event) (c : Consumer) : Consumer :=
  set_m_log (m_log c ++ [e]) c.

(** *** The popularity table *)

(** [m_Pcum[i]] and [m_Pcum[i] = x] on a [std::vector<double>].  The
    setters only use indices within the vector ([build_Pcum] below), and so
    does [GetNextSeq] as long as the table was built for the current [m_N];
    outside, where C++ leaves the behaviour undefined, a read gives 0.0 and a
    write does nothing. *)
Definition vec_get (v : list double) (i : nat) : double := nth i v d_zero.

Definition vec_set (v : list double) (i : nat) (x : double) : list double :=
  <[i := x]> v.

(** [for (uint32_t i=1; i<=m_N; i++) m_Pcum[i] = m_Pcum[i-1] + 1.0 / std::pow(i+m_q, m_s);] *)
Definition Pcum_term (q s : double) (i : nat) : double :=
  d_div d_one (d_pow (d_add (d_of_uint (Z.of_nat i)) q) s).

Definition Pcum_accumulate (q s : double) (N : nat) (v : list double) : list double :=
  fold_left (fun v i => vec_set v i (d_add (vec_get v (i - 1)) (Pcum_term q s i)))
            (List.seq 1 N) v.

(** [for (uint32_t i=1; i<=m_N; i++) m_Pcum[i] = m_Pcum[i] / m_Pcum[m_N];] *)
Definition Pcum_normalize (N : nat) (v : list double) : list double :=
  fold_left (fun v i => vec_set v i (d_div (vec_get v i) (vec_get v N)))
            (List.seq 1 N) v.

(** [SetNumberOfContents] after the mode test, for the members [m_q], [m_s]
    and [m_N] now in force.  [m_N + 1] is computed on [uint32_t]: for
    [m_N = 2^32 - 1] the vector has no element, [m_Pcum[0] = 0.0] writes
    outside of it and the behaviour is undefined ([None]).  For every other
    [m_N] the two loops stay within the [m_N + 1] elements. *)
Definition build_Pcum (q s : double) (N : Z) : option (list double) :=
  (* m_Pcum = std::vector<double> (m_N + 1); *)
  let m_Pcum := replicate (Z.to_nat (wrap32 (N + 1))) d_zero in
  match m_Pcum with
  | [] => None
  | _ :: _ =>
      (* m_Pcum[0] = 0.0; *)
      let m_Pcum := vec_set m_Pcum 0 d_zero in
      let m_Pcum := Pcum_accumulate q s (Z.to_nat N) m_Pcum in
      Some (Pcum_normalize (Z.to_nat N) m_Pcum)
  end.

(** The three setters; [None] when the behaviour is undefined. *)
Definition SetNumberOfContents (numOfContents : Z) (c : Consumer) : option Consumer :=
  match m_requestMode c with
  | ZIPF_MANDELBROT =>
      let c := set_m_N numOfContents c in
      match build_Pcum (m_q c) (m_s c) (m_N c) with
      | Some m_Pcum => Some (set_m_Pcum m_Pcum c)
      | None => None
      end
  | SEQUENTIAL => Some c
  end.

Definition GetNumberOfContents (c : Consumer) : Z := m_N c.

Definition SetQ (q : double) (c : Consumer) : option Consumer :=
  match m_requestMode c with
  | ZIPF_MANDELBROT => let c := set_m_q q c in SetNumberOfContents (m_N c) c
  | SEQUENTIAL => Some c
  end.

Definition SetS (s : double) (c : Consumer) : option Consumer :=
  match m_requestMode c with
  | ZIPF_MANDELBROT => let c := set_m_s s c in SetNumberOfContents (m_N c) c
  | SEQUENTIAL => Some c
  end.

(** *** Pacing ([ConsumerRate::ScheduleNextPacket]) *)

Definition ScheduleNextPacket (now : Time) (c : Consumer) : Consumer :=
  if m_firstTime c then
    (* Simulator::Schedule (Seconds (0.0), ...) *)
    set_m_firstTime false (set_m_sendEvent (Schedule now 0) c)
  else if negb (IsRunning (m_sendEvent c)) then
    set_m_sendEvent (Schedule now (d_seconds (d_div d_one (m_frequency c)))) c
  else c.

(** *** Timeouts *)

(** [ConsumerRate::OnTimeout] adjusts nothing and calls [Consumer::OnTimeout]. *)
Definition OnTimeout (now : Time) (sequenceNumber : Z) (c : Consumer) : Consumer :=
  let c := log (RttSentSeq sequenceNumber 1) c in
  let c := set_m_retxSeqs (StdSet.insert sequenceNumber (m_retxSeqs c)) c in
  ScheduleNextPacket now c.

(** The loop of [CheckRetxTimeout].  [entries] is [m_seqTimeouts] in the order
    of its [i_timestamp] index: each round looks at [begin ()], and erasing
    it leaves the tail ([OnTimeout] does not touch [m_seqTimeouts], see
    [OnTimeout_seqTimeouts]). *)
Fixpoint CheckRetxTimeout_loop (now rto : Time) (entries : SeqTimeoutsContainer)
         (c : Consumer) : Consumer :=
  match entries with
  | [] => c
  | entry :: rest =>
      if time entry + rto <=? now then
        let seqNo := seq entry in
        let c := set_m_seqTimeouts rest c in
        CheckRetxTimeout_loop now rto rest (OnTimeout now seqNo c)
      else c
  end.

(** [rto] is the value of [m_rtt->RetransmitTimeout ()]. *)
Definition CheckRetxTimeout (now rto : Time) (c : Consumer) : Consumer :=
  let c := CheckRetxTimeout_loop now rto (m_seqTimeouts c) c in
  set_m_retxEvent (Schedule now (m_retxTimer c)) c.

(** *** Sending *)

Definition WillSendOutInterest (now : Time) (sequenceNumber : Z) (c : Consumer)
  : Consumer :=
  let e := mkSeqTimeout sequenceNumber now in
  let c := set_m_seqTimeouts (SeqTimeouts.insert e (m_seqTimeouts c)) c in
  let c := set_m_seqFullDelay (SeqTimeouts.insert e (m_seqFullDelay c)) c in
  let c := set_m_seqLastDelay (SeqTimeouts.erase sequenceNumber (m_seqLastDelay c)) c in
  let c := set_m_seqLastDelay (SeqTimeouts.insert e (m_seqLastDelay c)) c in
  (* m_seqRetxCounts[sequenceNumber] ++ *)
  let c := set_m_seqRetxCounts
             (<[sequenceNumber :=
                  wrap32 (default 0 (m_seqRetxCounts c !! sequenceNumber) + 1)]>
                (m_seqRetxCounts c)) c in
  log (RttSentSeq sequenceNumber 1) c.

(** [while (p_random == 0) p_random = m_rand.GetValue (0.0, 1.0);] *)
Fixpoint redraw_while_zero (fuel : nat) (p_random : double) (rv : RandomVariable)
  : option (double * RandomVariable) :=
  if d_eqb p_random d_zero then
    match fuel with
    | O => None
    | S fuel' => let (p, rv') := GetValue01 rv in redraw_while_zero fuel' p rv'
    end
  else Some (p_random, rv).

(** The scan of the cumulative table: the first [i] of [indices] with
    [p_random <= m_Pcum[i]], or [content_index] as it was. *)
Fixpoint scan_Pcum (Pcum : list double) (p_random : double) (indices : list nat)
         (content_index : Z) : Z :=
  match indices with
  | [] => content_index
  | i :: rest =>
      if d_leb p_random (vec_get Pcum i) then Z.of_nat i
      else scan_Pcum Pcum p_random rest content_index
  end.

Definition GetNextSeq (fuel : nat) (c : Consumer) : option (Z * Consumer) :=
  let (p0, rv0) := GetValue01 (m_rand c) in
  match redraw_while_zero fuel p0 rv0 with
  | None => None
  | Some (p_random, rv) =>
      Some (scan_Pcum (m_Pcum c) p_random (List.seq 1 (Z.to_nat (m_N c))) 1,
            set_m_rand rv c)
  end.

(** [while (m_seqTimeouts.count (seq = GetNextSeq ()));] *)
Fixpoint draw_fresh (inner fuel : nat) (c : Consumer) : option (Z * Consumer) :=
  match fuel with
  | O => None
  | S fuel' =>
      match GetNextSeq inner c with
      | None => None
      | Some (s, c') =>
          if SeqTimeouts.count s (m_seqTimeouts c') then draw_fresh inner fuel' c'
          else Some (s, c')
      end
  end.

(** The random name component: [regenerate n] appends [n] letters. *)
Fixpoint regenerate (n : nat) (name : list Z) (rv : RandomVariable)
  : list Z * RandomVariable :=
  match n with
  | O => (name, rv)
  | S n' => let (x, rv') := GetInteger 0 25 rv in regenerate n' (name ++ [97 + x]) rv'
  end.

Definition random_component (c : Consumer) : option (list Z) * Consumer :=
  if m_randCompLenMax c =? 0 then (None, c)
  else
    let c :=
      if m_randCompLenMax c >=? Z.of_nat (length (m_randCompName c)) then
        let (name, rv) :=
          regenerate (Z.to_nat (m_randCompLenMax c + 1)) [] (m_rand c) in
        set_m_rand rv (set_m_randCompName name c)
      else c in
    let (len, rv) := GetInteger 1 (m_randCompLenMax c) (m_rand c) in
    (Some (firstn (Z.to_nat len) (m_randCompName c)), set_m_rand rv c).

(** The second half of [SendPacket], once the sequence number is chosen. *)
Definition send_interest (now : Time) (s : Z) (c : Consumer) : Consumer :=
  let (comp, c) := random_component c in
  let (nonce, rv) := GetNonce (m_rand c) in
  let c := set_m_rand rv c in
  let interestHeader :=
    {| i_randComponent := comp; i_seq := s; i_nonce := nonce;
       i_lifetime := m_interestLifeTime c |} in
  let c := WillSendOutInterest now s c in
  let c := log (TransmittedInterest interestHeader) c in
  ScheduleNextPacket now c.

Definition SendPacket (fuel : nat) (now : Time) (c : Consumer) : Outcome Consumer :=
  if negb (m_active c) then Returned c
  else
    (* seq = max (), "invalid"; the while loop takes at most one element *)
    let (s, c) :=
      match m_retxSeqs c with
      | [] => (UINT32_MAX, c)
      | x :: rest => (x, set_m_retxSeqs rest c)
      end in
    if s =? UINT32_MAX then
      if negb (m_seqMax c =? UINT32_MAX) && (m_seq c >=? m_seqMax c) then
        Returned c                                    (* we are totally done *)
      else
        match m_requestMode c with
        | SEQUENTIAL =>
            let s := m_seq c in
            let c := set_m_seq (wrap32 (m_seq c + 1)) c in
            Returned (send_interest now s c)
        | ZIPF_MANDELBROT =>
            if SeqTimeouts.size (m_seqTimeouts c) <? GetNumberOfContents c then
              match draw_fresh fuel fuel c with
              | None => OutOfFuel
              | Some (s, c) =>
                  let c := set_m_seq (wrap32 (m_seq c + 1)) c in
                  Returned (send_interest now s c)
              end
            else AssertionFailed "Content catelog exhausted!!!"
        end
    else Returned (send_interest now s c).

(** *** Incoming packets *)

(** [seq] is the sequence number read from the last component of the name;
    [hopCount] is [-1] when the packet carries no hop-count tag. *)
Definition OnContentObject (now : Time) (s : Z) (hopCount : Z) (c : Consumer)
  : Consumer :=
  if negb (m_active c) then c
  else
    let c := log (AppOnContentObject s) c in
    let c :=
      match SeqTimeouts.find s (m_seqLastDelay c) with
      | Some entry => log (LastRetransmittedInterestDataDelay s (now - time entry) hopCount) c
      | None => c
      end in
    let c :=
      match SeqTimeouts.find s (m_seqFullDelay c) with
      | Some entry =>
          (* m_seqRetxCounts[seq] creates the entry when it is missing *)
          let n := default 0 (m_seqRetxCounts c !! s) in
          log (FirstInterestDataDelay s (now - time entry) n hopCount)
              (set_m_seqRetxCounts (<[s := n]> (m_seqRetxCounts c)) c)
      | None => c
      end in
    let c := set_m_seqRetxCounts (delete s (m_seqRetxCounts c)) c in
    let c := set_m_seqFullDelay (SeqTimeouts.erase s (m_seqFullDelay c)) c in
    let c := set_m_seqLastDelay (SeqTimeouts.erase s (m_seqLastDelay c)) c in
    let c := set_m_seqTimeouts (SeqTimeouts.erase s (m_seqTimeouts c)) c in
    let c := set_m_retxSeqs (StdSet.erase s (m_retxSeqs c)) c in
    log (RttAckSeq s) c.

(** [ConsumerRate::OnNack] adjusts nothing and calls [Consumer::OnNack]. *)
Definition OnNack (now : Time) (s : Z) (c : Consumer) : Consumer :=
  if negb (m_active c) then c
  else
    let c := log (AppOnNack s) c in
    let c := set_m_retxSeqs (StdSet.insert s (m_retxSeqs c)) c in
    let c := set_m_seqTimeouts (SeqTimeouts.erase s (m_seqTimeouts c)) c in
    ScheduleNextPacket now c.

End ConsumerModel.

(** ** The congestion-aware forwarding strategy ([congestion-aware.cc]) *)

(** A face is identified by a number; a null [Ptr<Face>] is [None]. *)
Definition Face : Type := Z.

(** The NACK type carried by an Interest ([Interest::NORMAL_INTEREST],
    [Interest::NACK_LOOP], ...); [NACK_OTHER] stands for every other value of
    the [uint32_t] argument. *)
Inductive NackCode : Type :=
| NORMAL_INTEREST
| NACK_LOOP
| NACK_CONGESTION
| NACK_GIVEUP_PIT
| NACK_OTHER (code : Z).

Record InterestHeader : Type := mkInterestHeader {
  h_name : list Z;
  h_nonce : Z;
  h_nack : NackCode
}.

Definition SetNack (n : NackCode) (h : InterestHeader) : InterestHeader :=
  {| h_name := h_name h; h_nonce := h_nonce h; h_nack := n |}.

(** A packet: the header added to it, if any, and its [FwHopCountTag]. *)
Record Packet : Type := mkPacket {
  p_header : option InterestHeader;
  p_hopCountTag : option Z
}.

(** [fib::FaceMetric]: a face of a FIB entry and its congestion window.  The
    window is an integer: the code sums the windows in a [uint32_t] and
    promotes each one with [1.0 *] before dividing. *)
Record FaceMetric : Type := mkFaceMetric {
  GetFace : Face;
  GetCwnd : Z
}.

(** The faces of a FIB entry in the order of the index [fib::i_nth]. *)
Definition FibEntry : Type := list FaceMetric.

Record OutgoingFace : Type := mkOutgoingFace {
  m_face : Face;
  m_waitingInVain : bool
}.

Record PitEntry : Type := mkPitEntry {
  GetFibEntry : FibEntry;
  GetIncoming : gset Face;
  GetOutgoing : list OutgoingFace
}.

(** Calls made by the strategy to its collaborators. *)
Inductive FwEvent : Type :=
| TrySend (outFace : Face) (success : bool)
| DropNacks (header : InterestHeader) (inFace : option Face)
| DidExhaustForwardingOptions (inFace : option Face) (header : InterestHeader)
                              (packet : Packet)
| SuperWillSatisfyPendingInterest (inFace : option Face)
| SuperWillEraseTimedOutPendingInterest.

(** Modelled from the spec: [fib::Entry::IncreaseCwnd] and [DecreaseCwnd] are
    not part of the sources.  They "mutate only the addressed face's window";
    by how much is left open ([cwnd_increase], [cwnd_decrease]). *)
Class CwndPolicy : Type := {
  cwnd_increase : Z -> Z;
  cwnd_decrease : Z -> Z
}.

Definition update_cwnd (f : Z -> Z) (face : Face) (fib : FibEntry) : FibEntry :=
  map (fun m => if GetFace m =? face then mkFaceMetric (GetFace m) (f (GetCwnd m)) else m)
      fib.

Definition set_FibEntry (fib : FibEntry) (p : PitEntry) : PitEntry :=
  {| GetFibEntry := fib; GetIncoming := GetIncoming p; GetOutgoing := GetOutgoing p |}.

Definition IncreaseCwnd `{CwndPolicy} (face : Face) (p : PitEntry) : PitEntry :=
  set_FibEntry (update_cwnd cwnd_increase face (GetFibEntry p)) p.

Definition DecreaseCwnd `{CwndPolicy} (face : Face) (p : PitEntry) : PitEntry :=
  set_FibEntry (update_cwnd cwnd_decrease face (GetFibEntry p)) p.

(** Modelled from the spec: the operations of [pit::Entry] are not part of
    the sources.  The entry "exposes outgoing-face set, incoming-face set,
    per-face in-vain flag, and operations markInVain(face),
    allOutgoingInVain() -> bool, removeIncoming(face)". *)
Definition RemoveIncoming (face : option Face) (p : PitEntry) : PitEntry :=
  match face with
  | Some f => {| GetFibEntry := GetFibEntry p; GetIncoming := GetIncoming p ∖ {[ f ]};
                 GetOutgoing := GetOutgoing p |}
  | None => p
  end.

Definition SetWaitingInVain (face : option Face) (p : PitEntry) : PitEntry :=
  match face with
  | Some f =>
      {| GetFibEntry := GetFibEntry p; GetIncoming := GetIncoming p;
         GetOutgoing :=
           map (fun o => if m_face o =? f then mkOutgoingFace (m_face o) true else o)
               (GetOutgoing p) |}
  | None => p
  end.

Definition AreAllOutgoingInVain (p : PitEntry) : bool :=
  forallb m_waitingInVain (GetOutgoing p).

Section ForwarderModel.

Context `{D : Double} `{W : CwndPolicy}.

(** [TrySendOutInterest] belongs to the base strategy: it answers whether the
    Interest went out through [outFace] and leaves the PIT entry as it
    updated it. *)
Variable TrySendOutInterest :
  option Face -> Face -> InterestHeader -> Packet -> PitEntry -> bool * PitEntry.

(** [uint32_t total_cwnd = 0; BOOST_FOREACH (...) total_cwnd += metricFace.GetCwnd ();] *)
Definition total_cwnd (faces : FibEntry) : Z :=
  fold_left (fun total metricFace => wrap32 (total + GetCwnd metricFace)) faces 0.

(** The second loop of [DoPropagateInterest]; it ends at the first face tried. *)
Fixpoint propagate_walk (p_random p_sum : double) (total : Z) (faces : FibEntry)
         (inFace : option Face) (header : InterestHeader) (origPacket : Packet)
         (pitEntry : PitEntry) : bool * PitEntry * list FwEvent :=
  match faces with
  | [] => (false, pitEntry, [])
  | metricFace :: rest =>
      (* p_sum += 1.0 * metricFace.GetCwnd () / total_cwnd; *)
      let p_sum :=
        d_add p_sum (d_div (d_mul d_one (d_of_uint (GetCwnd metricFace)))
                           (d_of_uint total)) in
      if d_leb p_random p_sum then
        let (success, pitEntry) :=
          TrySendOutInterest inFace (GetFace metricFace) header origPacket pitEntry in
        let pitEntry :=
          if success then pitEntry else DecreaseCwnd (GetFace metricFace) pitEntry in
        (success, pitEntry, [TrySend (GetFace metricFace) success])
      else propagate_walk p_random p_sum total rest inFace header origPacket pitEntry
  end.

(** [p_random] is the value drawn from [UniformVariable r (0, 1.0)]. *)
Definition DoPropagateInterest (p_random : double) (inFace : option Face)
           (header : InterestHeader) (origPacket : Packet) (pitEntry : PitEntry)
  : bool * PitEntry * list FwEvent :=
  let faces := GetFibEntry pitEntry in
  propagate_walk p_random d_zero (total_cwnd faces) faces inFace header origPacket
                 pitEntry.

Definition WillSatisfyPendingInterest (inFace : option Face) (pitEntry : PitEntry)
  : PitEntry * list FwEvent :=
  let pitEntry :=
    match inFace with
    | Some f => IncreaseCwnd f pitEntry
    | None => pitEntry
    end in
  (pitEntry, [SuperWillSatisfyPendingInterest inFace]).


Definition is_congestion_or_giveup (nackCode : NackCode) : bool :=
  match nackCode with
  | NACK_CONGESTION | NACK_GIVEUP_PIT => true
  | _ => false
  end.

Definition is_giveup (nackCode : NackCode) : bool :=
  match nackCode with
  | NACK_GIVEUP_PIT => true
  | _ => false
  end.

Definition is_loop_congestion_or_giveup (nackCode : NackCode) : bool :=
  match nackCode with
  | NACK_LOOP | NACK_CONGESTION | NACK_GIVEUP_PIT => true
  | _ => false
  end.

Definition DidReceiveValidNack (inFace : option Face) (nackCode : NackCode)
           (header : InterestHeader) (origPacket : Packet) (pitEntry : PitEntry)
  : PitEntry * list FwEvent :=
  let pitEntry :=
    match inFace with
    | Some f => if is_congestion_or_giveup nackCode then DecreaseCwnd f pitEntry
                else pitEntry
    | None => pitEntry
    end in
  let pitEntry :=
    if is_giveup nackCode then RemoveIncoming inFace pitEntry else pitEntry in
  if is_loop_congestion_or_giveup nackCode then
    let pitEntry := SetWaitingInVain inFace pitEntry in
    if negb (AreAllOutgoingInVain pitEntry) then
      (* suppress: still expecting data from some other face *)
      (pitEntry, [DropNacks header inFace])
    else
      let nonNackHeader := SetNack NORMAL_INTEREST header in
      let nonNackInterest :=
        {| p_header := Some nonNackHeader;
           p_hopCountTag := p_hopCountTag origPacket |} in
      (pitEntry, [DidExhaustForwardingOptions inFace nonNackHeader nonNackInterest])
  else (pitEntry, []).

End ForwarderModel.

(** ** The multipath scenario ([examples/ndn-cc-mp-balance.cc])

    What [main] makes of its three command-line values: the forwarding
    strategy and its attributes, the shaper installed on the faces and the
    consumer application.  [None] stands for [return -1]. *)

Inductive QueueMode : Type :=
| QUEUE_MODE_DROPTAIL
| QUEUE_MODE_PIE
| QUEUE_MODE_CODEL.

Record Scenario : Type := mkScenario {
  sc_strategy : string;               (* SetForwardingStrategy: the type name *)
  sc_attributes : list (string * string);         (* ... and its attributes *)
  sc_shaper : option QueueMode;       (* EnableShaper (true, 60, 0.97, 0.1s, mode) *)
  sc_consumer : string                (* the type name given to AppHelper *)
}.

(** The first chain of comparisons: [Some None] when [mode_enum] is left
    unset (shaper ["None"]), [None] for [return -1]. *)
Definition shaper_mode (shaper : string) : option (option QueueMode) :=
  (if String.eqb shaper "DropTail" then Some (Some QUEUE_MODE_DROPTAIL)
  else if String.eqb shaper "PIE" then Some (Some QUEUE_MODE_PIE)
  else if String.eqb shaper "CoDel" then Some (Some QUEUE_MODE_CODEL)
  else if negb (String.eqb shaper "None") then None
  else Some None)%string.

Definition consumer_type (consumer : string) : option string :=
  (if String.eqb consumer "AIMD" then Some "ns3::ndn::ConsumerWindowAIMD"
  else if String.eqb consumer "CUBIC" then Some "ns3::ndn::ConsumerWindowCUBIC"
  else if String.eqb consumer "RAAQM" then Some "ns3::ndn::ConsumerWindowRAAQM"
  else if String.eqb consumer "WindowRelentless" then
    Some "ns3::ndn::ConsumerWindowRelentless"
  else if String.eqb consumer "RateRelentless" then
    Some "ns3::ndn::ConsumerRateRelentless"
  else if String.eqb consumer "RateFeedback" then
    Some "ns3::ndn::ConsumerRateFeedback"
  else None)%string.

Definition scenario (consumer shaper strategy : string) : option Scenario :=
  (match shaper_mode shaper with
  | None => None
  | Some mode_enum =>
      let stack :=
        if negb (String.eqb shaper "None") then
          if String.eqb strategy "CongestionAware" then
            ("ns3::ndn::fw::CongestionAware",
             [("EnableNACKs", "true"); ("K", "2")], mode_enum)
          else
            ("ns3::ndn::fw::BestRoute", [("EnableNACKs", "true")], mode_enum)
        else
          (* no hop-by-hop interest shaping, no NACKs *)
          ("ns3::ndn::fw::BestRoute", [], None) in
      match consumer_type consumer with
      | None => None
      | Some type =>
          Some {| sc_strategy := fst (fst stack); sc_attributes := snd (fst stack);
                  sc_shaper := snd stack; sc_consumer := type |}
      end
  end)%string.

(** ** Vocabulary of the properties *)

(** An entry of the timeout ledger is expired at [now] when its send time plus
    the retransmission timeout has passed. *)
Definition expired (now rto : Time) (e : SeqTimeout) : bool := time e + rto <=? now.

Definition unexpired (now rto : Time) (e : SeqTimeout) : bool := negb (expired now rto e).

(** The sequence numbers of the Interests handed to the protocol stack. *)
Definition issued (l : list Event) : list Z :=
  flat_map (fun e => match e with
                     | TransmittedInterest i => [i_seq i]
                     | _ => []
                     end) l.

(** The sum of the windows of the faces, as an integer. *)
Definition sum_cwnd (faces : FibEntry) : Z :=
  fold_right Z.add 0 (map GetCwnd faces).

Section ConsumerVocabulary.

Context `{D : Double}.

(** [OnTimeout] called for each sequence number of a list, in order. *)
Definition signal_timeouts (now : Time) (seqs : list Z) (c : Consumer) : Consumer :=
  fold_left (fun c s => OnTimeout now s c) seqs c.

(** [c'] is [c] up to the state of the random variable and the cached random
    name component. *)
Definition same_but_rand (c c' : Consumer) : Prop :=
  c' = set_m_rand (m_rand c') (set_m_randCompName (m_randCompName c') c).

(** The scheduler fires the pending transmission event (which is then no
    longer running) at each time of [nows] in turn. *)
Fixpoint run_ticks (fuel : nat) (nows : list Time) (c : Consumer) : Outcome Consumer :=
  match nows with
  | [] => Returned c
  | now :: rest =>
      match SendPacket fuel now (set_m_sendEvent None c) with
      | Returned c' => run_ticks fuel rest c'
      | AssertionFailed msg => AssertionFailed msg
      | OutOfFuel => OutOfFuel
      end
  end.


Definition index_of (c : Consumer) (p : double) : Z :=
  scan_Pcum (m_Pcum c) p (List.seq 1 (Z.to_nat (m_N c))) 1.




End ConsumerVocabulary.

Section TableVocabulary.

Context `{D : Double}.

(** The popularity table in the words of the specification.  Before
    normalisation [cumulative[0] = 0] and
    [cumulative[i] = cumulative[i-1] + 1 / (i + q)^s]; [i] is a [uint32_t]
    converted to [double], and the power is [std::pow]. *)
Fixpoint cumulative (q s : double) (i : nat) : double :=
  match i with
  | O => d_zero
  | S j =>
      d_add (cumulative q s j)
            (d_div d_one (d_pow (d_add (d_of_uint (Z.of_nat (S j))) q) s))
  end.

(** "Then every entry normalized by [cumulative[N]]": every entry but the
    first, which the loop of the code does not touch. *)
Definition normalized (q s : double) (N i : nat) : double :=
  match i with
  | O => d_zero
  | S _ => d_div (cumulative q s i) (cumulative q s N)
  end.

(** The table for a catalogue of [N] items: the entries 0 to [N]. *)
Definition popularity_table (q s : double) (N : nat) : list double :=
  map (normalized q s N) (List.seq 0 (S N)).

(** The accumulated probability of the face selection after the first [k]
    faces: the sum, from 0.0 and in the order of the faces, of
    [1.0 * window / total], where [total] is the sum of the windows of all the
    faces as a [uint32_t] holds it (modulo [2^32]). *)
Definition accumulated_probability (faces : FibEntry) (k : nat) : double :=
  fold_left
    (fun p_sum m =>
       d_add p_sum (d_div (d_mul d_one (d_of_uint (GetCwnd m)))
                          (d_of_uint (sum_cwnd faces mod 2 ^ 32))))
    (firstn k faces) d_zero.

End TableVocabulary.

Section ForwarderVocabulary.

Context `{W : CwndPolicy}.

(** What [DoPropagateInterest] does at the face its walk stops at, if any:
    one attempt to send and, if it fails, a smaller window for that face. *)
Definition attempt
           (TrySendOutInterest :
              option Face -> Face -> InterestHeader -> Packet -> PitEntry
              -> bool * PitEntry)
           (inFace : option Face) (header : InterestHeader)
           (origPacket : Packet) (pitEntry : PitEntry) (selected : option FaceMetric)
  : bool * PitEntry * list FwEvent :=
  match selected with
  | None => (false, pitEntry, [])
  | Some m =>
      let (success, pitEntry') :=
        TrySendOutInterest inFace (GetFace m) header origPacket pitEntry in
      (success,
       if success then pitEntry' else DecreaseCwnd (GetFace m) pitEntry',
       [TrySend (GetFace m) success])
  end.

(** The FIB entry after the window of [inFace], if there is one, is decreased. *)
Definition decreased (inFace : option Face) (fib : FibEntry) : FibEntry :=
  match inFace with
  | Some f => update_cwnd cwnd_decrease f fib
  | None => fib
  end.


End ForwarderVocabulary.

(** ** Vocabulary of the further properties *)


(** A ledger respects both of its indices. *)
Definition container_wf (l : SeqTimeoutsContainer) : Prop :=
  SeqTimeouts.time_sorted l /\ SeqTimeouts.seq_unique l.

Section ExtraVocabulary.

Context `{D : Double}.


(** The three ledgers respect their indices and the retransmission queue is
    a [std::set]: strictly increasing. *)
Definition containers_wf (c : Consumer) : Prop :=
  container_wf (m_seqTimeouts c) /\ container_wf (m_seqLastDelay c) /\
  container_wf (m_seqFullDelay c) /\ StronglySorted Z.lt (m_retxSeqs c).

(** [c'] has the configuration of [c]: activity, sequence bound, request
    mode, popularity table and its parameters, lifetime, timers, frequency,
    length of the random component. *)
Definition same_configuration (c c' : Consumer) : Prop :=
  m_active c' = m_active c /\ m_seqMax c' = m_seqMax c /\
  m_requestMode c' = m_requestMode c /\ m_N c' = m_N c /\ m_q c' = m_q c /\
  m_s c' = m_s c /\ m_Pcum c' = m_Pcum c /\
  m_randCompLenMax c' = m_randCompLenMax c /\
  m_interestLifeTime c' = m_interestLifeTime c /\ m_retxTimer c' = m_retxTimer c /\
  m_frequency c' = m_frequency c.

(** [p] falls into bucket [i] of the cumulative table [Pcum]: [i] is the
    first index from 1 on with [p <= Pcum[i]]. *)
Definition first_bucket (Pcum : list double) (p : double) (i : nat) : Prop :=
  d_leb p (vec_get Pcum i) = true /\
  forall j, (1 <= j < i)%nat -> d_leb p (vec_get Pcum j) = false.

End ExtraVocabulary.

Section PacingVocabulary.

Context `{D : Double}.

(** A transmission is scheduled for time [t] (and it is not the first one). *)
Definition send_pending (t : Time) (c : Consumer) : Prop :=
  m_firstTime c = false /\ m_sendEvent c = Some t.

(** What an operation leaves alone: the configuration, and a transmission
    that is already scheduled. *)
Definition keeps_pace (c c' : Consumer) : Prop :=
  same_configuration c c' /\ forall t, send_pending t c -> send_pending t c'.

End PacingVocabulary.

Section SetterVocabulary.

Context `{D : Double}.

(** Setters called one after the other, as long as none is undefined. *)
Definition call_in_order (setters : list (Consumer -> option Consumer)) (c : Consumer)
  : option Consumer :=
  fold_left (fun state setter =>
               match state with
               | Some c => setter c
               | None => None
               end) setters (Some c).

End SetterVocabulary.

Section ExampleVocabulary.

Context `{D : Double}.


End ExampleVocabulary.

(** The [n] consecutive numbers from [from] on. *)
Definition count_up (from : Z) (n : nat) : list Z :=
  map (fun i => from + Z.of_nat i) (List.seq 0%nat n).

(** ** Example states *)

(** A random variable that answers [p] to every [GetValue (0.0, 1.0)]. *)
Definition constant_random (p : R) : @RandomVariable ExactArithmetic :=
  @mkRandomVariable ExactArithmetic (fun _ => p) (fun _ lo _ => lo) (fun _ => 0) 0.

(** A [ConsumerRate] as its constructor and attribute defaults leave it
    ([NumberOfContents] 1000, [Q] 0.0, [S] 0.75, [LifeTime] 2s, [RetxTimer]
    50ms, [Frequency] 10), with the given request mode, [MaxSeq] and activity,
    over the real numbers. *)
Definition new_Consumer (mode : RequestMode) (seqMax : Z) (active : bool)
  : @Consumer ExactArithmetic :=
  @mkConsumer ExactArithmetic
    active                         (* m_active *)
    (constant_random (1 / 4))      (* m_rand *)
    0                              (* m_seq *)
    seqMax                         (* m_seqMax *)
    mode                           (* m_requestMode *)
    1000                           (* m_N *)
    0%R                            (* m_q *)
    (3 / 4)%R                      (* m_s *)
    []                             (* m_Pcum *)
    0                              (* m_randCompLenMax *)
    []                             (* m_randCompName *)
    2000000000                     (* m_interestLifeTime *)
    50000000                       (* m_retxTimer *)
    None                           (* m_retxEvent *)
    None                           (* m_sendEvent *)
    []                             (* m_retxSeqs *)
    []                             (* m_seqTimeouts *)
    []                             (* m_seqLastDelay *)
    []                             (* m_seqFullDelay *)
    ∅                              (* m_seqRetxCounts *)
    true                           (* m_firstTime *)
    10%R                           (* m_frequency *)
    [].                            (* m_log *)

(** Three requests sent at t = 0s, 1s and 2s and still awaited. *)
Definition three_pending : @Consumer ExactArithmetic :=
  set_m_seqTimeouts
    [mkSeqTimeout 0 0; mkSeqTimeout 1 1000000000; mkSeqTimeout 2 2000000000]
    (new_Consumer SEQUENTIAL UINT32_MAX true).

(** A consumer that has sent its first packet and whose next transmission is
    scheduled for t = 100ms. *)
Definition paced_consumer : @Consumer ExactArithmetic :=
  set_m_firstTime false
    (set_m_sendEvent (Some 100000000) (new_Consumer SEQUENTIAL UINT32_MAX true)).

(** A popularity consumer over a catalogue of two equally popular items
    ([s = 0]), as [SetS] and [SetNumberOfContents] leave it
    ([two_items_built]), with item 1 pending since t = 0, whose random
    variable answers [p] to every draw. *)
Definition two_items (p : R) : @Consumer ExactArithmetic :=
  set_m_seqTimeouts [mkSeqTimeout 1 0]
    (@set_m_Pcum ExactArithmetic [0; 1 / 2; 1]%R
       (set_m_N 2
          (@set_m_s ExactArithmetic 0%R
             (set_m_rand (constant_random p)
                (new_Consumer ZIPF_MANDELBROT UINT32_MAX true))))).

(** A [ConsumerRate] in popularity mode with the parameters [q] and [s] and
    the defaults of [new_Consumer], in binary64; the exponent [s] is 0 or 1. *)
Definition popularity_consumer64 (q s : float)
  : @Consumer (Binary64 pow_exponent_0_or_1) :=
  @mkConsumer (Binary64 pow_exponent_0_or_1)
    true                           (* m_active *)
    (@mkRandomVariable (Binary64 pow_exponent_0_or_1)
       (fun _ => 0.25%float) (fun _ lo _ => lo) (fun _ => 0) 0)   (* m_rand *)
    0                              (* m_seq *)
    UINT32_MAX                     (* m_seqMax *)
    ZIPF_MANDELBROT                (* m_requestMode *)
    1000                           (* m_N *)
    q                              (* m_q *)
    s                              (* m_s *)
    []                             (* m_Pcum *)
    0                              (* m_randCompLenMax *)
    []                             (* m_randCompName *)
    2000000000                     (* m_interestLifeTime *)
    50000000                       (* m_retxTimer *)
    None                           (* m_retxEvent *)
    None                           (* m_sendEvent *)
    []                             (* m_retxSeqs *)
    []                             (* m_seqTimeouts *)
    []                             (* m_seqLastDelay *)
    []                             (* m_seqFullDelay *)
    ∅                              (* m_seqRetxCounts *)
    true                           (* m_firstTime *)
    10%float                       (* m_frequency *)
    [].                            (* m_log *)

(** A window policy for the examples: one more on increase, half on decrease. *)
Definition halving_policy : CwndPolicy :=
  {| cwnd_increase := fun w => w + 1; cwnd_decrease := fun w => w / 2 |}.

(** A pending Interest sent out on the faces 1, 2 and 3, that came in on
    face 9, for a FIB entry whose faces have the windows 3, 1 and 4. *)
Definition three_paths : PitEntry :=
  {| GetFibEntry := [mkFaceMetric 1 3; mkFaceMetric 2 1; mkFaceMetric 3 4];
     GetIncoming := {[ 9 ]};
     GetOutgoing := [mkOutgoingFace 1 false; mkOutgoingFace 2 false;
                     mkOutgoingFace 3 false] |}.


(** A pending Interest for a FIB entry of four faces with the windows 1, 4, 1
    and 1, not sent out yet. *)
Definition four_paths : PitEntry :=
  {| GetFibEntry := [mkFaceMetric 1 1; mkFaceMetric 2 4; mkFaceMetric 3 1;
                     mkFaceMetric 4 1];
     GetIncoming := {[ 9 ]};
     GetOutgoing := [] |}.

(** A transport through which every Interest goes out, and one through which
    none does; neither touches the PIT entry. *)
Definition always_sent (inFace : option Face) (outFace : Face)
           (header : InterestHeader) (origPacket : Packet) (pitEntry : PitEntry)
  : bool * PitEntry := (true, pitEntry).

Definition never_sent (inFace : option Face) (outFace : Face)
           (header : InterestHeader) (origPacket : Packet) (pitEntry : PitEntry)
  : bool * PitEntry := (false, pitEntry).

Definition example_header (nack : NackCode) : InterestHeader :=
  {| h_name := [112; 49]; h_nonce := 77; h_nack := nack |}.

Definition example_packet (nack : NackCode) : Packet :=
  {| p_header := Some (example_header nack); p_hopCountTag := Some 2 |}.

(** * Properties *)

(** ** The real numbers have the laws *)

Lemma R_leb_le (x y : R) : R_leb x y = true <-> (x <= y)%R.
Proof. unfold R_leb. destruct (Rle_dec x y); split; intros; try easy. Qed.

Lemma R_leb_gt (x y : R) : R_leb x y = false <-> (y < x)%R.
Proof.
  unfold R_leb. destruct (Rle_dec x y); split; intros; try easy; lra.
Qed.

Lemma exact_le (x y : R) : @d_le ExactArithmetic x y <-> (x <= y)%R.
Proof. apply R_leb_le. Qed.

Lemma exact_lt (x y : R) : @d_lt ExactArithmetic x y <-> (x < y)%R.
Proof.
  unfold d_lt; simpl. rewrite R_leb_le, R_leb_gt. lra.
Qed.

Lemma exact_div_mono (x y z : R) :
  @d_le ExactArithmetic x y -> @d_lt ExactArithmetic 0%R z ->
  @d_le ExactArithmetic (x / z)%R (y / z)%R.
Proof.
  rewrite !exact_le, exact_lt. intros Hxy Hz. unfold Rdiv.
  apply Rmult_le_compat_r; [ | exact Hxy ].
  left. apply Rinv_0_lt_compat. exact Hz.
Qed.

Lemma ExactLaws : DoubleLaws ExactArithmetic (fun _ => True) (fun _ => True).
Proof.
  split; simpl.
  - apply exact_le. lra.
  - intros x y z _ _ _. rewrite !exact_le. lra.
  - intros x y _ _. rewrite !exact_le. lra.
  - intros x y _ _. rewrite exact_le, !exact_lt. lra.
  - intros x z _ _ Hx Hz _. pose proof (exact_div_mono 0 x z Hx Hz) as H.
    apply exact_le in H. apply exact_le. unfold Rdiv in *. lra.
  - intros x y z _ _ _ Hxy Hz _. apply exact_div_mono; assumption.
  - intros x _ Hx _. apply exact_lt in Hx. field. lra.
Qed.

Lemma R_pow_zero_exponent (x : R) : (0 < x)%R -> R_pow x 0 = 1%R.
Proof.
  intros Hx. unfold R_pow. destruct (Rlt_dec 0 x) as [_ | Hn]; [| contradiction].
  unfold Rpower. rewrite Rmult_0_l. apply exp_0.
Qed.

(** ** Binary64 and the laws

    For binary64 the laws of [DoubleLaws] are the monotonicity of rounding.
    They are evaluated here on the zeros, the smallest and the largest
    numbers, the infinities, NaN and a few ordinary numbers; without the
    finiteness premises the laws of division fail (infinity / infinity is
    NaN). *)
Lemma binary64_laws_on_samples :
  let le x y := PrimFloat.leb x y in
  let lt x y := PrimFloat.leb x y && negb (PrimFloat.leb y x) in
  let samples :=
    [0; -0; 1; -1; 0x1p-1074; -0x1p-1074; 0x1p-1022; 0x1.fffffffffffffp+1023;
     -0x1.fffffffffffffp+1023; infinity; neg_infinity; nan; 3; 7;
     0x1.fffffffffffffp-1; 0x1.0000000000001p+0; 0x1p+1023; 0x1p-537; 2; 0.5;
     0x1.999999999999ap-4]%float in
  let all2 f := forallb (fun x => forallb (f x) samples) samples in
  let all3 f := forallb (fun x => all2 (f x)) samples in
  all3 (fun x y z => implb (le x y && le y z) (le x z)) = true /\
  all2 (fun x y => implb (le 0%float x && le 0%float y) (le x (x + y)%float)) = true /\
  all2 (fun x y => implb (le 0%float x && lt 0%float y) (lt 0%float (x + y)%float))
  = true /\
  all2 (fun x z => implb (le 0%float x && lt 0%float z && is_finite z)
                         (le 0%float (x / z)%float)) = true /\
  all3 (fun x y z => implb (le x y && lt 0%float z && is_finite z)
                           (le (x / z)%float (y / z)%float)) = true /\
  forallb (fun x => implb (lt 0%float x && is_finite x)
                          (PrimFloat.Leibniz.eqb (x / x)%float 1%float)) samples = true /\
  (infinity / infinity)%float = nan.
Proof. vm_compute. repeat split. Qed.


(** The laws at the numbers of the table for two items, [q = 0] and [s = 1]
    in binary64: the terms 1 and 1/2 and the partial sums 0, 1 and 3/2. *)
Lemma binary64_laws_two_items :
  DoubleLaws (Binary64 pow_exponent_0_or_1)
             (fun x => In x [0; 1; 0.5; 1.5]%float)
             (fun x => is_finite x = true).
Proof.
  split; unfold d_le, d_lt; simpl; intros;
    repeat match goal with
           | H : _ \/ _ |- _ => destruct H
           | H : False |- _ => destruct H
           | H : _ /\ _ |- _ => destruct H
           end; subst;
    try reflexivity; try discriminate; try (split; reflexivity).
Qed.

(** ** The popularity table *)

Section TableFacts.

Context `{D : Double}.

Lemma vec_set_length (v : list double) (i : nat) (x : double) :
  length (vec_set v i x) = length v.
Proof. unfold vec_set. apply length_insert. Qed.

Lemma vec_get_set_eq (v : list double) (i : nat) (x : double) :
  (i < length v)%nat -> vec_get (vec_set v i x) i = x.
Proof.
  intros Hi. unfold vec_get, vec_set.
  rewrite nth_lookup, list_lookup_insert_eq by exact Hi. reflexivity.
Qed.

Lemma vec_get_set_ne (v : list double) (i j : nat) (x : double) :
  i <> j -> vec_get (vec_set v i x) j = vec_get v j.
Proof.
  intros Hij. unfold vec_get, vec_set.
  rewrite !nth_lookup, list_lookup_insert_ne by exact Hij. reflexivity.
Qed.

Lemma vec_get_replicate (n i : nat) : vec_get (replicate n d_zero) i = d_zero.
Proof.
  unfold vec_get. revert i. induction n as [|n IH]; intros [|i]; simpl; auto.
Qed.

Lemma fold_vec_set_length (f : list double -> nat -> double) (l : list nat)
      (v : list double) :
  length (fold_left (fun v i => vec_set v i (f v i)) l v) = length v.
Proof.
  revert v. induction l as [|i l IH]; intros v; simpl; [reflexivity|].
  rewrite IH. apply vec_set_length.
Qed.

(** The first loop, stopped after [k] rounds. *)
Lemma Pcum_accumulate_length (q s : double) (k : nat) (v : list double) :
  length (Pcum_accumulate q s k v) = length v.
Proof.
  unfold Pcum_accumulate.
  apply (fold_vec_set_length
           (fun v i => d_add (vec_get v (i - 1)) (Pcum_term q s i))).
Qed.

Lemma Pcum_accumulate_S (q s : double) (k : nat) (v : list double) :
  Pcum_accumulate q s (S k) v =
  let w := Pcum_accumulate q s k v in
  vec_set w (S k) (d_add (vec_get w k) (Pcum_term q s (S k))).
Proof.
  unfold Pcum_accumulate. rewrite seq_S, fold_left_app. simpl.
  rewrite Nat.sub_0_r. reflexivity.
Qed.

Lemma Pcum_accumulate_spec (q s : double) (v : list double) (k : nat) :
  (k < length v)%nat ->
  let w := Pcum_accumulate q s k v in
  vec_get w 0 = vec_get v 0 /\
  (forall i, (1 <= i <= k)%nat ->
             vec_get w i = d_add (vec_get w (i - 1)) (Pcum_term q s i)) /\
  (forall i, (k < i)%nat -> vec_get w i = vec_get v i).
Proof.
  induction k as [|k IH]; intros Hk.
  - simpl. split; [reflexivity | split; intros; [lia | reflexivity]].
  - rewrite Pcum_accumulate_S. cbv zeta.
    destruct IH as (H0 & Hrec & Hrest); [lia|].
    set (w := Pcum_accumulate q s k v) in *.
    assert (Hlen : (S k < length w)%nat)
      by (unfold w; rewrite Pcum_accumulate_length; exact Hk).
    split; [| split].
    + rewrite vec_get_set_ne by lia. exact H0.
    + intros i Hi. destruct (Nat.eq_dec i (S k)) as [->|Hne].
      * rewrite vec_get_set_eq by exact Hlen.
        rewrite vec_get_set_ne by lia. simpl. rewrite Nat.sub_0_r. reflexivity.
      * rewrite !vec_get_set_ne by lia. apply Hrec. lia.
    + intros i Hi. rewrite vec_get_set_ne by lia. apply Hrest. lia.
Qed.

(** The second loop, stopped after [k <= N] rounds: the entries up to [k] are
    divided by the total, which is still in place at index [N]. *)
Lemma Pcum_normalize_prefix_length (N k : nat) (v : list double) :
  length (fold_left (fun v i => vec_set v i (d_div (vec_get v i) (vec_get v N)))
                    (List.seq 1 k) v) = length v.
Proof.
  apply (fold_vec_set_length (fun v i => d_div (vec_get v i) (vec_get v N))).
Qed.

Lemma Pcum_normalize_prefix (N : nat) (v : list double) (k : nat) :
  (N < length v)%nat -> (k <= N)%nat ->
  let w := fold_left (fun v i => vec_set v i (d_div (vec_get v i) (vec_get v N)))
                     (List.seq 1 k) v in
  (forall i, (1 <= i <= k)%nat -> vec_get w i = d_div (vec_get v i) (vec_get v N)) /\
  (forall i, (i = 0 \/ k < i)%nat -> vec_get w i = vec_get v i).
Proof.
  intros HN. induction k as [|k IH]; intros Hk.
  - simpl. split; intros; [lia | reflexivity].
  - rewrite seq_S, fold_left_app. simpl.
    destruct IH as (Hdone & Hrest); [lia|].
    set (w := fold_left _ (List.seq 1 k) v) in *.
    assert (Hlen : (S k < length w)%nat)
      by (unfold w; rewrite Pcum_normalize_prefix_length; lia).
    split.
    + intros i Hi. destruct (Nat.eq_dec i (S k)) as [->|Hne].
      * rewrite vec_get_set_eq by exact Hlen.
        rewrite !Hrest by lia. reflexivity.
      * rewrite vec_get_set_ne by lia. apply Hdone. lia.
    + intros i Hi. rewrite vec_get_set_ne by lia. apply Hrest. lia.
Qed.

(** The vector allocated for a catalogue size below [2^32 - 1]. *)
Lemma allocated_vector (N : Z) :
  0 <= N < UINT32_MAX ->
  replicate (Z.to_nat (wrap32 (N + 1))) d_zero
  = d_zero :: replicate (Z.to_nat N) d_zero.
Proof.
  intros HN. unfold wrap32, UINT32_MAX in *.
  rewrite Z.mod_small by lia.
  replace (Z.to_nat (N + 1)) with (S (Z.to_nat N)) by lia. reflexivity.
Qed.

(** The first loop computes the partial sums of the specification. *)
Lemma Pcum_accumulate_cumulative (q s : double) (N : nat) (v : list double) :
  (N < length v)%nat -> vec_get v 0 = d_zero ->
  forall i, (i <= N)%nat -> vec_get (Pcum_accumulate q s N v) i = cumulative q s i.
Proof.
  intros Hlen H0. destruct (Pcum_accumulate_spec q s v N Hlen) as (A0 & Arec & _).
  induction i as [|i IH]; intros Hi.
  - rewrite A0. exact H0.
  - rewrite Arec by lia. simpl. rewrite Nat.sub_0_r, IH by lia. reflexivity.
Qed.

(** The table built is the table of the specification. *)
Lemma build_Pcum_table (q s : double) (N : Z) :
  0 <= N < UINT32_MAX ->
  build_Pcum q s N = Some (popularity_table q s (Z.to_nat N)).
Proof.
  intros HN. unfold build_Pcum. rewrite (allocated_vector N HN).
  set (n := Z.to_nat N).
  set (v0 := vec_set (d_zero :: replicate n d_zero) 0 d_zero).
  assert (Hlen0 : length v0 = S n)
    by (unfold v0; rewrite vec_set_length; simpl; rewrite length_replicate; reflexivity).
  assert (Hv0 : vec_get v0 0 = d_zero) by reflexivity.
  set (pre := Pcum_accumulate q s n v0).
  assert (Hlen : length pre = S n)
    by (unfold pre; rewrite Pcum_accumulate_length; exact Hlen0).
  assert (Hpre : forall i, (i <= n)%nat -> vec_get pre i = cumulative q s i)
    by (apply Pcum_accumulate_cumulative; [lia | exact Hv0]).
  destruct (Pcum_normalize_prefix n pre n) as (Hdone & Hrest); [lia | lia |].
  f_equal. unfold popularity_table.
  apply (nth_ext _ _ d_zero d_zero).
  - unfold Pcum_normalize. rewrite Pcum_normalize_prefix_length, Hlen.
    rewrite length_map, length_seq. reflexivity.
  - unfold Pcum_normalize. rewrite Pcum_normalize_prefix_length, Hlen.
    intros i Hi.
    rewrite (nth_indep (map (normalized q s n) (List.seq 0 (S n))) d_zero
                       (normalized q s n 0%nat))
      by (rewrite length_map, length_seq; exact Hi).
    rewrite map_nth, seq_nth by exact Hi. simpl.
    destruct i as [|i].
    + change (vec_get (fold_left (fun v i => vec_set v i (d_div (vec_get v i)
                                                             (vec_get v n)))
                                 (List.seq 1 n) pre) 0 = d_zero).
      rewrite Hrest by lia. rewrite Hpre by lia. reflexivity.
    + change (vec_get (fold_left (fun v i => vec_set v i (d_div (vec_get v i)
                                                             (vec_get v n)))
                                 (List.seq 1 n) pre) (S i)
              = d_div (cumulative q s (S i)) (cumulative q s n)).
      rewrite Hdone by lia. rewrite !Hpre by lia. reflexivity.
Qed.

Lemma popularity_table_length (q s : double) (N : nat) :
  length (popularity_table q s N) = S N.
Proof. unfold popularity_table. rewrite length_map, length_seq. reflexivity. Qed.

Lemma popularity_table_get (q s : double) (N i : nat) :
  (i <= N)%nat -> vec_get (popularity_table q s N) i = normalized q s N i.
Proof.
  intros Hi. unfold vec_get, popularity_table.
  rewrite (nth_indep _ d_zero (normalized q s N 0%nat))
    by (rewrite length_map, length_seq; lia).
  rewrite map_nth, seq_nth by lia. reflexivity.
Qed.

(** What the setters do in popularity mode. *)
Lemma SetNumberOfContents_popularity (n : Z) (c : Consumer) :
  m_requestMode c = ZIPF_MANDELBROT -> 0 <= n < UINT32_MAX ->
  SetNumberOfContents n c
  = Some (set_m_Pcum (popularity_table (m_q c) (m_s c) (Z.to_nat n)) (set_m_N n c)).
Proof.
  intros Hmode Hn. unfold SetNumberOfContents. rewrite Hmode.
  change (m_q (set_m_N n c)) with (m_q c).
  change (m_s (set_m_N n c)) with (m_s c).
  change (m_N (set_m_N n c)) with n.
  rewrite (build_Pcum_table _ _ n Hn). reflexivity.
Qed.

Lemma SetQ_popularity (q : double) (c : Consumer) :
  m_requestMode c = ZIPF_MANDELBROT -> 0 <= m_N c < UINT32_MAX ->
  SetQ q c
  = Some (set_m_Pcum (popularity_table q (m_s c) (Z.to_nat (m_N c))) (set_m_q q c)).
Proof.
  intros Hmode HN. unfold SetQ. rewrite Hmode. cbv zeta.
  rewrite SetNumberOfContents_popularity by (try exact Hmode; exact HN).
  destruct c; reflexivity.
Qed.

Lemma SetS_popularity (s : double) (c : Consumer) :
  m_requestMode c = ZIPF_MANDELBROT -> 0 <= m_N c < UINT32_MAX ->
  SetS s c
  = Some (set_m_Pcum (popularity_table (m_q c) s (Z.to_nat (m_N c))) (set_m_s s c)).
Proof.
  intros Hmode HN. unfold SetS. rewrite Hmode. cbv zeta.
  rewrite SetNumberOfContents_popularity by (try exact Hmode; exact HN).
  destruct c; reflexivity.
Qed.

(** Under the laws: the partial sums are non-negative and grow. *)
Section UnderLaws.

Variables occurs finite : double -> Prop.
Context (L : DoubleLaws D occurs finite).
Variables (q s : double) (N : nat).

Hypothesis terms_positive :
  forall i, (1 <= i <= N)%nat ->
    d_lt d_zero (d_div d_one (d_pow (d_add (d_of_uint (Z.of_nat i)) q) s)).

Hypothesis terms_occur :
  forall i, (1 <= i <= N)%nat ->
    occurs (d_div d_one (d_pow (d_add (d_of_uint (Z.of_nat i)) q) s)).

Hypothesis sums_occur : forall i, (i <= N)%nat -> occurs (cumulative q s i).

Lemma cumulative_nonneg :
  forall i, (i <= N)%nat -> d_le d_zero (cumulative q s i).
Proof.
  induction i as [|i IH]; intros Hi.
  - apply d_le_zero_zero.
  - assert (H0 : occurs d_zero) by (apply (sums_occur 0%nat); lia).
    eapply d_le_trans; [exact H0 | apply (sums_occur i); lia
                       | apply (sums_occur (S i)); lia | apply IH; lia |].
    cbn [cumulative].
    apply d_add_nonneg_le;
      [apply sums_occur; lia | apply (terms_occur (S i)); lia | apply IH; lia |].
    apply (terms_positive (S i)). lia.
Qed.

Lemma cumulative_mono :
  forall i, (S i <= N)%nat -> d_le (cumulative q s i) (cumulative q s (S i)).
Proof.
  intros i Hi. cbn [cumulative].
  apply d_add_nonneg_le;
    [apply sums_occur; lia | apply (terms_occur (S i)); lia | |].
  - apply cumulative_nonneg. lia.
  - apply (terms_positive (S i)). lia.
Qed.

Lemma cumulative_total_pos : (1 <= N)%nat -> d_lt d_zero (cumulative q s N).
Proof.
  intros HN. pose proof cumulative_nonneg as Hnonneg.
  pose proof terms_positive as Hpos. pose proof terms_occur as Hocc.
  pose proof sums_occur as Hsum.
  destruct N as [|n]; [lia |]. cbn [cumulative].
  apply d_add_pos; [apply Hsum; lia | apply (Hocc (S n)); lia | |].
  - apply Hnonneg. lia.
  - apply (Hpos (S n)). lia.
Qed.

(** Under the laws the table of the specification is non-decreasing and ends
    with 1, when the terms are positive and their sum is finite. *)
Lemma popularity_table_sorted :
  (1 <= N)%nat -> finite (cumulative q s N) ->
  (forall i, (1 <= i <= N)%nat ->
     d_le (normalized q s N (i - 1)) (normalized q s N i)) /\
  normalized q s N N = d_one.
Proof.
  intros HN Hfin.
  pose proof (cumulative_total_pos HN) as Htot.
  split.
  - intros i Hi. destruct i as [|[|i]]; [lia | |].
    + simpl. apply d_div_nonneg;
        [apply (sums_occur 1%nat); lia | apply sums_occur; lia | | exact Htot
        | exact Hfin].
      apply (cumulative_nonneg 1%nat). lia.
    + replace (S (S i) - 1)%nat with (S i) by lia. unfold normalized.
      apply d_div_mono;
        [apply sums_occur; lia | apply sums_occur; lia | apply sums_occur; lia
        | | exact Htot | exact Hfin].
      apply (cumulative_mono (S i)). lia.
  - pose proof sums_occur as Hsum. destruct N as [|n]; [lia |]. unfold normalized.
    apply d_div_self; [apply Hsum; lia | exact Htot | exact Hfin].
Qed.

End UnderLaws.

End TableFacts.

(** ** Rebuilding the table (C5, C8) *)

Section TableClaims.

Context `{D : Double}.


(** C8, as amended.  In popularity mode, for a catalogue of [1 <= n < 2^32 - 1]
    items whose terms [1 / (i + q)^s] are all positive and whose sum
    [cumulative[n]] is finite, in an arithmetic that has the laws of IEEE 754
    listed in [DoubleLaws] at the terms and at their partial sums: the
    catalogue-size setter returns; the first loop leaves entry 0 at 0 and
    every entry [i] of [1..n] at entry [i - 1] plus the [i]-th term; the
    table stored has [n + 1] entries, entry 0 is 0 and every entry [i] of
    [1..n] is the entry before normalisation divided by [cumulative[n]]; the
    stored table is non-decreasing and its last entry is 1. *)
Theorem popularity_table_cumulative (occurs finite : double -> Prop)
        (L : DoubleLaws D occurs finite) (c : Consumer) (n : Z) :
  m_requestMode c = ZIPF_MANDELBROT ->
  1 <= n < UINT32_MAX ->
  (forall i, (1 <= i <= Z.to_nat n)%nat ->
     d_lt d_zero
          (d_div d_one (d_pow (d_add (d_of_uint (Z.of_nat i)) (m_q c)) (m_s c)))) ->
  finite (cumulative (m_q c) (m_s c) (Z.to_nat n)) ->
  (forall i, (1 <= i <= Z.to_nat n)%nat ->
     occurs (d_div d_one (d_pow (d_add (d_of_uint (Z.of_nat i)) (m_q c)) (m_s c)))) ->
  (forall i, (i <= Z.to_nat n)%nat -> occurs (cumulative (m_q c) (m_s c) i)) ->
  exists (c' : Consumer) (before : list double),
    SetNumberOfContents n c = Some c' /\
    before = Pcum_accumulate (m_q c) (m_s c) (Z.to_nat n)
               (vec_set (replicate (S (Z.to_nat n)) d_zero) 0 d_zero) /\
    (vec_get before 0 = d_zero /\
     forall i, (1 <= i <= Z.to_nat n)%nat ->
       vec_get before i =
       d_add (vec_get before (i - 1))
             (d_div d_one (d_pow (d_add (d_of_uint (Z.of_nat i)) (m_q c)) (m_s c)))) /\
    (length (m_Pcum c') = S (Z.to_nat n) /\
     vec_get (m_Pcum c') 0 = d_zero /\
     forall i, (1 <= i <= Z.to_nat n)%nat ->
       vec_get (m_Pcum c') i = d_div (vec_get before i) (vec_get before (Z.to_nat n))) /\
    (forall i, (1 <= i <= Z.to_nat n)%nat ->
       d_le (vec_get (m_Pcum c') (i - 1)) (vec_get (m_Pcum c') i)) /\
    vec_get (m_Pcum c') (Z.to_nat n) = d_one.
Proof.
  intros Hmode Hn Hpos Hfin Hterms Hsums.
  set (N := Z.to_nat n) in *.
  assert (HN : (1 <= N)%nat) by (unfold N; lia).
  exists (set_m_Pcum (popularity_table (m_q c) (m_s c) N) (set_m_N n c)).
  eexists. split; [apply SetNumberOfContents_popularity; [exact Hmode | lia] |].
  split; [reflexivity |].
  set (v0 := vec_set (replicate (S N) d_zero) 0 d_zero).
  assert (Hlen0 : (N < length v0)%nat)
    by (unfold v0; rewrite vec_set_length, length_replicate; lia).
  assert (Hbefore : forall i, (i <= N)%nat ->
            vec_get (Pcum_accumulate (m_q c) (m_s c) N v0) i
            = cumulative (m_q c) (m_s c) i)
    by (apply Pcum_accumulate_cumulative; [exact Hlen0 | reflexivity]).
  change (m_Pcum (set_m_Pcum (popularity_table (m_q c) (m_s c) N) (set_m_N n c)))
    with (popularity_table (m_q c) (m_s c) N).
  destruct (popularity_table_sorted occurs finite L (m_q c) (m_s c) N Hpos Hterms
              Hsums HN Hfin) as (Hsorted & Hlast).
  split; [split |].
  - rewrite Hbefore by lia. reflexivity.
  - intros i Hi. rewrite !Hbefore by lia.
    destruct i as [|i]; [lia |]. simpl. rewrite Nat.sub_0_r. reflexivity.
  - split; [split; [apply popularity_table_length | split] |].
    + rewrite popularity_table_get by lia. reflexivity.
    + intros i Hi. rewrite popularity_table_get, !Hbefore by lia.
      destruct i as [|i]; [lia | reflexivity].
    + split.
      * intros i Hi. rewrite !popularity_table_get by lia. apply Hsorted. exact Hi.
      * rewrite popularity_table_get by lia. exact Hlast.
Qed.

End TableClaims.



(** Witness of [popularity_table_cumulative], in binary64: a catalogue of two
    items with [q = 0] and [s = 1]; the terms are 1 and 1/2, the partial sums
    0, 1 and 3/2, and the table is 0, 2/3, 1. *)
Lemma popularity_table_cumulative_witness :
  exists c' : @Consumer (Binary64 pow_exponent_0_or_1),
    SetNumberOfContents 2 (popularity_consumer64 0 1) = Some c' /\
    length (m_Pcum c') = 3%nat /\
    (forall i, (1 <= i <= 2)%nat ->
       d_le (vec_get (m_Pcum c') (i - 1)) (vec_get (m_Pcum c') i)) /\
    vec_get (m_Pcum c') 2 = 1%float.
Proof.
  destruct (@popularity_table_cumulative (Binary64 pow_exponent_0_or_1)
              (fun x => In x [0; 1; 0.5; 1.5]%float) (fun x => is_finite x = true)
              binary64_laws_two_items (popularity_consumer64 0 1) 2
              eq_refl ltac:(unfold UINT32_MAX; lia))
    as (c' & before & E & _ & _ & (Hlen & _) & Hsorted & Hlast).
  - intros [|[|[|i]]] Hi; try (simpl in Hi; lia); split; reflexivity.
  - reflexivity.
  - intros [|[|[|i]]] Hi; try (simpl in Hi; lia); simpl; tauto.
  - intros [|[|[|i]]] Hi; try (simpl in Hi; lia); simpl; tauto.
  - exists c'. split; [exact E |]. split; [exact Hlen |].
    split; [exact Hsorted | exact Hlast].
Defined.

(** C8 as stated ("for all N, q, s") fails in binary64: for the empty
    catalogue the table is the single entry 0; for [q = -1] ([s = 1]) the
    first term is 1/0, the sum is infinite and the last entry is NaN; for
    [q = -1.5] the terms are -2 and 2, the sum is 0 and the table is 0,
    -infinity, NaN; for [2^32 - 1] items no table is built. *)
Lemma popularity_table_not_cumulative :
  option_map m_Pcum (SetNumberOfContents 0 (popularity_consumer64 0 1))
  = Some [0%float] /\
  option_map m_Pcum (SetNumberOfContents 1 (popularity_consumer64 (-1) 1))
  = Some [0%float; nan] /\
  option_map m_Pcum (SetNumberOfContents 2 (popularity_consumer64 (-1.5) 1))
  = Some [0%float; neg_infinity; nan] /\
  SetNumberOfContents UINT32_MAX (popularity_consumer64 0 1) = None.
Proof. repeat split. Qed.

(** ** The containers *)

Lemma StdSet_insert_In (x : Z) (s : list Z) : In x (StdSet.insert x s).
Proof.
  induction s as [|y r IH]; simpl; [auto |].
  destruct (x <? y); [simpl; auto |].
  destruct (x =? y) eqn:E; [apply Z.eqb_eq in E; simpl; auto | simpl; auto].
Qed.

Lemma StdSet_insert_In_iff (x y : Z) (s : list Z) :
  In y (StdSet.insert x s) <-> y = x \/ In y s.
Proof.
  induction s as [|z r IH]; simpl; [intuition |].
  destruct (x <? z); [simpl; intuition |].
  destruct (x =? z) eqn:E.
  - apply Z.eqb_eq in E. subst z. simpl. intuition.
  - simpl. rewrite IH. intuition.
Qed.

Lemma SeqTimeouts_count_erase (s : Z) (c : SeqTimeoutsContainer) :
  SeqTimeouts.count s (SeqTimeouts.erase s c) = false.
Proof.
  unfold SeqTimeouts.count, SeqTimeouts.erase.
  induction c as [|e r IH]; simpl; [reflexivity |].
  destruct (seq e =? s) eqn:E; simpl; [exact IH | rewrite E; exact IH].
Qed.

Lemma SeqTimeouts_find_place (e : SeqTimeout) (c : SeqTimeoutsContainer) :
  SeqTimeouts.count (seq e) c = false ->
  SeqTimeouts.find (seq e) (SeqTimeouts.place e c) = Some e.
Proof.
  unfold SeqTimeouts.count, SeqTimeouts.find.
  induction c as [|x r IH]; simpl; intros H.
  - rewrite Z.eqb_refl. reflexivity.
  - apply orb_false_iff in H as [Hx Hr].
    destruct (time e <? time x); simpl.
    + rewrite Z.eqb_refl. reflexivity.
    + rewrite Hx. apply IH. exact Hr.
Qed.

Lemma SeqTimeouts_count_find (s : Z) (c : SeqTimeoutsContainer) :
  SeqTimeouts.count s c = true -> exists e, SeqTimeouts.find s c = Some e.
Proof.
  unfold SeqTimeouts.count, SeqTimeouts.find.
  induction c as [|x r IH]; simpl; intros H; [discriminate |].
  destruct (seq x =? s); [eauto | apply IH; exact H].
Qed.

Lemma SeqTimeouts_find_count (s : Z) (c : SeqTimeoutsContainer) :
  SeqTimeouts.count s c = false -> SeqTimeouts.find s c = None.
Proof.
  unfold SeqTimeouts.count, SeqTimeouts.find.
  induction c as [|x r IH]; simpl; intros H; [reflexivity |].
  apply orb_false_iff in H as [Hx Hr]. rewrite Hx. apply IH. exact Hr.
Qed.

(** [insert] adds the record unless the sequence number is there already. *)
Lemma SeqTimeouts_find_insert (s : Z) (t : Time) (c : SeqTimeoutsContainer) :
  SeqTimeouts.find s (SeqTimeouts.insert (mkSeqTimeout s t) c) =
  Some (match SeqTimeouts.find s c with
        | Some e => e
        | None => mkSeqTimeout s t
        end).
Proof.
  unfold SeqTimeouts.insert; simpl.
  destruct (SeqTimeouts.count s c) eqn:E.
  - destruct (SeqTimeouts_count_find s c E) as [e He]. rewrite He. reflexivity.
  - rewrite (SeqTimeouts_find_count s c E).
    apply (SeqTimeouts_find_place (mkSeqTimeout s t) c E).
Qed.

(** The order of the timestamp index survives insertions and removals. *)
Lemma SeqTimeouts_place_In (e x : SeqTimeout) (c : SeqTimeoutsContainer) :
  In x (SeqTimeouts.place e c) -> x = e \/ In x c.
Proof.
  induction c as [|y r IH]; simpl; [intuition |].
  destruct (time e <? time y); simpl; intuition.
Qed.

Lemma SeqTimeouts_place_sorted (e : SeqTimeout) (c : SeqTimeoutsContainer) :
  SeqTimeouts.time_sorted c -> SeqTimeouts.time_sorted (SeqTimeouts.place e c).
Proof.
  unfold SeqTimeouts.time_sorted.
  induction c as [|y r IH]; intros Hs; simpl.
  - constructor; constructor.
  - apply StronglySorted_inv in Hs as [Hr Hy].
    destruct (time e <? time y) eqn:E.
    + apply Z.ltb_lt in E. constructor; [constructor; assumption |].
      constructor; [lia |].
      rewrite List.Forall_forall in Hy |- *. intros x Hx. specialize (Hy x Hx). lia.
    + apply Z.ltb_ge in E. constructor; [apply IH; exact Hr |].
      rewrite List.Forall_forall in Hy |- *. intros x Hx.
      apply SeqTimeouts_place_In in Hx as [-> | Hx]; [exact E | apply Hy; exact Hx].
Qed.

Lemma SeqTimeouts_insert_sorted (e : SeqTimeout) (c : SeqTimeoutsContainer) :
  SeqTimeouts.time_sorted c -> SeqTimeouts.time_sorted (SeqTimeouts.insert e c).
Proof.
  intros Hs. unfold SeqTimeouts.insert.
  destruct (SeqTimeouts.count (seq e) c); [exact Hs |].
  apply SeqTimeouts_place_sorted. exact Hs.
Qed.

Lemma filter_time_sorted (f : SeqTimeout -> bool) (c : SeqTimeoutsContainer) :
  SeqTimeouts.time_sorted c -> SeqTimeouts.time_sorted (List.filter f c).
Proof.
  unfold SeqTimeouts.time_sorted.
  induction c as [|y r IH]; intros Hs; simpl; [constructor |].
  apply StronglySorted_inv in Hs as [Hr Hy].
  destruct (f y); [| apply IH; exact Hr].
  constructor; [apply IH; exact Hr |].
  rewrite List.Forall_forall in Hy |- *. intros x Hx.
  apply List.filter_In in Hx as [Hx _]. apply Hy. exact Hx.
Qed.

Lemma SeqTimeouts_erase_sorted (s : Z) (c : SeqTimeoutsContainer) :
  SeqTimeouts.time_sorted c -> SeqTimeouts.time_sorted (SeqTimeouts.erase s c).
Proof. apply filter_time_sorted. Qed.

(** So does the uniqueness of the sequence numbers. *)
Lemma SeqTimeouts_count_In (s : Z) (c : SeqTimeoutsContainer) :
  SeqTimeouts.count s c = false -> ~ In s (map seq c).
Proof.
  unfold SeqTimeouts.count.
  induction c as [|x r IH]; simpl; intros H; [intros [] |].
  apply orb_false_iff in H as [Hx Hr]. apply Z.eqb_neq in Hx.
  intros [E | Hin]; [contradiction | exact (IH Hr Hin)].
Qed.

Lemma SeqTimeouts_insert_unique (e : SeqTimeout) (c : SeqTimeoutsContainer) :
  SeqTimeouts.seq_unique c -> SeqTimeouts.seq_unique (SeqTimeouts.insert e c).
Proof.
  unfold SeqTimeouts.seq_unique, SeqTimeouts.insert. intros Hu.
  destruct (SeqTimeouts.count (seq e) c) eqn:E; [exact Hu |].
  apply SeqTimeouts_count_In in E.
  induction c as [|x r IH]; simpl.
  - constructor; [intros [] | constructor].
  - inversion Hu as [|? ? Hx Hr]; subst.
    destruct (time e <? time x); simpl.
    + constructor; [exact E | exact Hu].
    + constructor.
      * rewrite in_map_iff. intros (y & Hy & Hin).
        apply SeqTimeouts_place_In in Hin as [-> | Hin].
        -- apply E. simpl. left. symmetry. exact Hy.
        -- apply Hx. rewrite in_map_iff. eauto.
      * apply IH; [exact Hr |]. intros Hin. apply E. simpl. right. exact Hin.
Qed.

Lemma SeqTimeouts_erase_unique (s : Z) (c : SeqTimeoutsContainer) :
  SeqTimeouts.seq_unique c -> SeqTimeouts.seq_unique (SeqTimeouts.erase s c).
Proof.
  unfold SeqTimeouts.seq_unique, SeqTimeouts.erase.
  induction c as [|x r IH]; intros Hu; simpl; [constructor |].
  inversion Hu as [|? ? Hx Hr]; subst.
  destruct (negb (seq x =? s)); simpl; [| apply IH; exact Hr].
  constructor; [| apply IH; exact Hr].
  rewrite in_map_iff. intros (y & Hy & Hin).
  apply List.filter_In in Hin as [Hin _].
  apply Hx. rewrite in_map_iff. eauto.
Qed.

(** ** The consumer: timeouts, recording a send, negative acknowledgements
    (C3, C6, C7) *)

Section LedgerClaims.

Context `{D : Double}.

Lemma OnTimeout_seqTimeouts (now : Time) (s : Z) (c : Consumer) :
  m_seqTimeouts (OnTimeout now s c) = m_seqTimeouts c.
Proof.
  unfold OnTimeout, ScheduleNextPacket, log; simpl.
  destruct (m_firstTime c); [reflexivity |].
  destruct (IsRunning (m_sendEvent c)); reflexivity.
Qed.

Lemma OnTimeout_set_seqTimeouts (now : Time) (s : Z) (r : SeqTimeoutsContainer)
      (c : Consumer) :
  OnTimeout now s (set_m_seqTimeouts r c) = set_m_seqTimeouts r (OnTimeout now s c).
Proof.
  unfold OnTimeout, ScheduleNextPacket, log; simpl.
  destruct (m_firstTime c); [reflexivity |].
  destruct (IsRunning (m_sendEvent c)); reflexivity.
Qed.

Lemma signal_timeouts_set_seqTimeouts (now : Time) (seqs : list Z)
      (r : SeqTimeoutsContainer) (c : Consumer) :
  signal_timeouts now seqs (set_m_seqTimeouts r c) =
  set_m_seqTimeouts r (signal_timeouts now seqs c).
Proof.
  unfold signal_timeouts. revert c.
  induction seqs as [|s l IH]; intros c; simpl; [reflexivity |].
  rewrite OnTimeout_set_seqTimeouts. apply IH.
Qed.

Lemma OnTimeout_log (now : Time) (s : Z) (c : Consumer) :
  m_log (OnTimeout now s c) = m_log c ++ [RttSentSeq s 1].
Proof.
  unfold OnTimeout, ScheduleNextPacket, log; simpl.
  destruct (m_firstTime c); [reflexivity |].
  destruct (IsRunning (m_sendEvent c)); reflexivity.
Qed.

Lemma OnTimeout_retxSeqs (now : Time) (s : Z) (c : Consumer) :
  m_retxSeqs (OnTimeout now s c) = StdSet.insert s (m_retxSeqs c).
Proof.
  unfold OnTimeout, ScheduleNextPacket, log; simpl.
  destruct (m_firstTime c); [reflexivity |].
  destruct (IsRunning (m_sendEvent c)); reflexivity.
Qed.

Lemma signal_timeouts_log (now : Time) (seqs : list Z) (c : Consumer) :
  m_log (signal_timeouts now seqs c) = m_log c ++ map (fun s => RttSentSeq s 1) seqs.
Proof.
  unfold signal_timeouts. revert c.
  induction seqs as [|s l IH]; intros c; simpl; [rewrite app_nil_r; reflexivity |].
  rewrite IH, OnTimeout_log, <- app_assoc. reflexivity.
Qed.

Lemma signal_timeouts_retxSeqs (now : Time) (seqs : list Z) (c : Consumer) (x : Z) :
  In x (m_retxSeqs (signal_timeouts now seqs c)) <-> In x (m_retxSeqs c) \/ In x seqs.
Proof.
  unfold signal_timeouts. revert c.
  induction seqs as [|s l IH]; intros c; simpl; [intuition |].
  rewrite IH, OnTimeout_retxSeqs, StdSet_insert_In_iff. intuition.
Qed.

Lemma signal_timeouts_retxTimer (now : Time) (seqs : list Z) (c : Consumer) :
  m_retxTimer (signal_timeouts now seqs c) = m_retxTimer c.
Proof.
  unfold signal_timeouts. revert c.
  induction seqs as [|s l IH]; intros c; simpl; [reflexivity |].
  rewrite IH. unfold OnTimeout, ScheduleNextPacket, log; simpl.
  destruct (m_firstTime c); [reflexivity |].
  destruct (IsRunning (m_sendEvent c)); reflexivity.
Qed.

Lemma set_m_seqTimeouts_same (c : Consumer) : set_m_seqTimeouts (m_seqTimeouts c) c = c.
Proof. destruct c; reflexivity. Qed.

Lemma set_m_seqTimeouts_twice (r r' : SeqTimeoutsContainer) (c : Consumer) :
  set_m_seqTimeouts r (set_m_seqTimeouts r' c) = set_m_seqTimeouts r c.
Proof. reflexivity. Qed.

(** In a container sorted by time, nothing follows an unexpired record that
    is expired. *)
Lemma unexpired_tail (now rto : Time) (e : SeqTimeout) (r : SeqTimeoutsContainer) :
  SeqTimeouts.time_sorted (e :: r) -> expired now rto e = false ->
  List.filter (expired now rto) r = [] /\ List.filter (unexpired now rto) r = r.
Proof.
  unfold SeqTimeouts.time_sorted. intros Hs He.
  apply StronglySorted_inv in Hs as [_ Hall].
  induction r as [|x r IH]; simpl; [auto |].
  inversion Hall as [|? ? Hx Hr]; subst.
  assert (Ex : expired now rto x = false).
  { unfold expired in *. apply Z.leb_gt. apply Z.leb_gt in He. lia. }
  unfold unexpired at 1. rewrite Ex; simpl.
  destruct (IH Hr) as [IH1 IH2]. rewrite IH2.
  split; [exact IH1 | reflexivity].
Qed.

(** The loop removes the expired records, oldest first, calling [OnTimeout]
    for each. *)
Lemma CheckRetxTimeout_loop_spec (now rto : Time) (entries : SeqTimeoutsContainer) :
  SeqTimeouts.time_sorted entries ->
  forall c : Consumer, m_seqTimeouts c = entries ->
  CheckRetxTimeout_loop now rto entries c =
  signal_timeouts now (map seq (List.filter (expired now rto) entries))
                  (set_m_seqTimeouts (List.filter (unexpired now rto) entries) c).
Proof.
  induction entries as [|e r IH]; intros Hs c Hc.
  - simpl. rewrite <- Hc, set_m_seqTimeouts_same. reflexivity.
  - simpl. unfold unexpired at 1. fold (expired now rto e).
    destruct (expired now rto e) eqn:He; simpl.
    + rewrite IH.
      * rewrite OnTimeout_set_seqTimeouts, set_m_seqTimeouts_twice.
        rewrite <- OnTimeout_set_seqTimeouts. reflexivity.
      * apply StronglySorted_inv in Hs as [Hr _]. exact Hr.
      * rewrite OnTimeout_seqTimeouts. reflexivity.
    + destruct (unexpired_tail now rto e r Hs He) as [E1 E2].
      rewrite E1, E2. simpl. rewrite <- Hc, set_m_seqTimeouts_same. reflexivity.
Qed.

(** The expired records are the head of the container, the others its tail. *)
Lemma expired_prefix (now rto : Time) (entries : SeqTimeoutsContainer) :
  SeqTimeouts.time_sorted entries ->
  entries = List.filter (expired now rto) entries ++ List.filter (unexpired now rto) entries.
Proof.
  induction entries as [|e r IH]; intros Hs; [reflexivity |].
  simpl. unfold unexpired at 1.
  destruct (expired now rto e) eqn:He; simpl.
  - f_equal. apply IH. apply StronglySorted_inv in Hs as [Hr _]. exact Hr.
  - destruct (unexpired_tail now rto e r Hs He) as [E1 E2]. rewrite E1, E2. reflexivity.
Qed.

(** The timeout ledger of the consumer stays in the order of its timestamp
    index under every operation that touches it. *)
Lemma WillSendOutInterest_sorted (now : Time) (s : Z) (c : Consumer) :
  SeqTimeouts.time_sorted (m_seqTimeouts c) ->
  SeqTimeouts.time_sorted (m_seqTimeouts (WillSendOutInterest now s c)).
Proof.
  intros Hs. unfold WillSendOutInterest, log; simpl.
  apply SeqTimeouts_insert_sorted. exact Hs.
Qed.

Lemma OnNack_sorted (now : Time) (s : Z) (c : Consumer) :
  SeqTimeouts.time_sorted (m_seqTimeouts c) ->
  SeqTimeouts.time_sorted (m_seqTimeouts (OnNack now s c)).
Proof.
  intros Hs. unfold OnNack, ScheduleNextPacket, log.
  destruct (m_active c); simpl; [| exact Hs].
  destruct (m_firstTime c); simpl; [apply SeqTimeouts_erase_sorted; exact Hs |].
  destruct (IsRunning (m_sendEvent c)); simpl; apply SeqTimeouts_erase_sorted; exact Hs.
Qed.

Lemma OnContentObject_sorted (now : Time) (s hopCount : Z) (c : Consumer) :
  SeqTimeouts.time_sorted (m_seqTimeouts c) ->
  SeqTimeouts.time_sorted (m_seqTimeouts (OnContentObject now s hopCount c)).
Proof.
  intros Hs. unfold OnContentObject, log.
  destruct (m_active c); simpl; [| exact Hs].
  destruct (SeqTimeouts.find s (m_seqLastDelay c)); simpl;
    destruct (SeqTimeouts.find s (m_seqFullDelay c)); simpl;
    apply SeqTimeouts_erase_sorted; exact Hs.
Qed.

(** [CheckRetxTimeout] as a whole. *)
Lemma CheckRetxTimeout_spec (now rto : Time) (c : Consumer) :
  SeqTimeouts.time_sorted (m_seqTimeouts c) ->
  CheckRetxTimeout now rto c =
  set_m_retxEvent (Schedule now (m_retxTimer c))
    (signal_timeouts now
       (map seq (List.filter (expired now rto) (m_seqTimeouts c)))
       (set_m_seqTimeouts (List.filter (unexpired now rto) (m_seqTimeouts c)) c)).
Proof.
  intros Hs. unfold CheckRetxTimeout. cbv zeta.
  rewrite (CheckRetxTimeout_loop_spec now rto (m_seqTimeouts c) Hs c eq_refl).
  rewrite signal_timeouts_retxTimer. reflexivity.
Qed.

Lemma CheckRetxTimeout_seqTimeouts (now rto : Time) (c : Consumer) :
  SeqTimeouts.time_sorted (m_seqTimeouts c) ->
  m_seqTimeouts (CheckRetxTimeout now rto c) =
  List.filter (unexpired now rto) (m_seqTimeouts c).
Proof.
  intros Hs. rewrite (CheckRetxTimeout_spec now rto c Hs). simpl.
  rewrite signal_timeouts_set_seqTimeouts. reflexivity.
Qed.

Lemma CheckRetxTimeout_sorted (now rto : Time) (c : Consumer) :
  SeqTimeouts.time_sorted (m_seqTimeouts c) ->
  SeqTimeouts.time_sorted (m_seqTimeouts (CheckRetxTimeout now rto c)).
Proof.
  intros Hs. rewrite (CheckRetxTimeout_seqTimeouts now rto c Hs).
  apply filter_time_sorted. exact Hs.
Qed.

(** C3.  With the pending entries in ascending order of their send time,
    [CheckRetxTimeout] calls [OnTimeout], oldest first, for exactly the
    entries with [time + rto <= now] and removes exactly these; they are the
    head of the ledger, up to the first entry not yet expired, and the rest is
    left as it was. *)
Theorem CheckRetxTimeout_expires_oldest (now rto : Time) (c : Consumer) :
  SeqTimeouts.time_sorted (m_seqTimeouts c) ->
  let gone := List.filter (expired now rto) (m_seqTimeouts c) in
  let kept := List.filter (unexpired now rto) (m_seqTimeouts c) in
  let c' := CheckRetxTimeout now rto c in
  c' = set_m_retxEvent (Schedule now (m_retxTimer c))
         (signal_timeouts now (map seq gone) (set_m_seqTimeouts kept c)) /\
  m_seqTimeouts c' = kept /\
  m_seqTimeouts c = gone ++ kept /\
  m_log c' = m_log c ++ map (fun s => RttSentSeq s 1) (map seq gone) /\
  (forall s, In s (m_retxSeqs c') <-> In s (m_retxSeqs c) \/ In s (map seq gone)).
Proof.
  intros Hs gone kept c'.
  assert (Hc' : c' = set_m_retxEvent (Schedule now (m_retxTimer c))
                       (signal_timeouts now (map seq gone) (set_m_seqTimeouts kept c)))
    by (apply CheckRetxTimeout_spec; exact Hs).
  split; [exact Hc' |].
  split; [apply CheckRetxTimeout_seqTimeouts; exact Hs |].
  split; [apply expired_prefix; exact Hs |].
  rewrite Hc'; simpl. rewrite signal_timeouts_set_seqTimeouts; simpl.
  split; [apply signal_timeouts_log | apply signal_timeouts_retxSeqs].
Qed.

(** C6, as amended.  [WillSendOutInterest] sets the last-send time of the
    sequence to the current time; puts the sequence into the timeout ledger
    and into the first-send ledger with the current time unless an entry is
    there already, which is kept; and increments the retransmission counter
    of the sequence on every send, the first one included (from 0 when the
    sequence has no counter yet), leaving the other counters alone. *)
Theorem WillSendOutInterest_records_send (now : Time) (s : Z) (c : Consumer) :
  let c' := WillSendOutInterest now s c in
  let kept_or_now (old : SeqTimeoutsContainer) :=
    match SeqTimeouts.find s old with
    | Some e => e
    | None => mkSeqTimeout s now
    end in
  SeqTimeouts.find s (m_seqLastDelay c') = Some (mkSeqTimeout s now) /\
  SeqTimeouts.find s (m_seqTimeouts c') = Some (kept_or_now (m_seqTimeouts c)) /\
  SeqTimeouts.find s (m_seqFullDelay c') = Some (kept_or_now (m_seqFullDelay c)) /\
  m_seqRetxCounts c' !! s = Some (wrap32 (default 0 (m_seqRetxCounts c !! s) + 1)) /\
  (forall s', s' <> s -> m_seqRetxCounts c' !! s' = m_seqRetxCounts c !! s') /\
  m_log c' = m_log c ++ [RttSentSeq s 1].
Proof.
  cbv zeta. unfold WillSendOutInterest, log; simpl.
  split; [| split; [| split; [| split; [| split]]]].
  - rewrite SeqTimeouts_find_insert.
    rewrite (SeqTimeouts_find_count s _ (SeqTimeouts_count_erase s _)). reflexivity.
  - apply SeqTimeouts_find_insert.
  - apply SeqTimeouts_find_insert.
  - apply lookup_insert_eq.
  - intros s' Hne. apply lookup_insert_ne. congruence.
  - reflexivity.
Qed.

(** C7, as amended.  A negative acknowledgement received by an active
    consumer puts the sequence into the retransmission queue, removes it from
    the timeout ledger, leaves the retransmission counters and the send times
    alone, transmits nothing by itself and asks the pacing policy for the next
    transmission: at once if nothing was ever scheduled, after one period if
    no transmission is pending, and not at all if one is pending already. *)
Theorem OnNack_requeues (now : Time) (s : Z) (c : Consumer) :
  m_active c = true ->
  let c' := OnNack now s c in
  (m_retxSeqs c' = StdSet.insert s (m_retxSeqs c) /\ In s (m_retxSeqs c')) /\
  (m_seqTimeouts c' = SeqTimeouts.erase s (m_seqTimeouts c) /\
   SeqTimeouts.count s (m_seqTimeouts c') = false) /\
  (m_seqRetxCounts c' = m_seqRetxCounts c /\
   m_seqFullDelay c' = m_seqFullDelay c /\
   m_seqLastDelay c' = m_seqLastDelay c) /\
  m_log c' = m_log c ++ [AppOnNack s] /\
  m_sendEvent c' =
    (if m_firstTime c then Some (now + 0)
     else if IsRunning (m_sendEvent c) then m_sendEvent c
          else Some (now + d_seconds (d_div d_one (m_frequency c)))).
Proof.
  intros Hact. cbv zeta. unfold OnNack. rewrite Hact; simpl.
  unfold ScheduleNextPacket, log; simpl.
  destruct (m_firstTime c); simpl.
  - repeat split; auto using StdSet_insert_In, SeqTimeouts_count_erase.
  - destruct (IsRunning (m_sendEvent c)); simpl;
      repeat split; auto using StdSet_insert_In, SeqTimeouts_count_erase.
Qed.

End LedgerClaims.

(** Witness of [CheckRetxTimeout_expires_oldest], the scenario of the
    specification: entries sent at t = 0s, 1s and 2s, a retransmission timeout
    of 1.5s and a check at t = 3s.  The first two expire, the third stays. *)
Lemma CheckRetxTimeout_expires_oldest_witness :
  m_seqTimeouts (CheckRetxTimeout 3000000000 1500000000 three_pending)
  = [mkSeqTimeout 2 2000000000] /\
  m_log (CheckRetxTimeout 3000000000 1500000000 three_pending)
  = [RttSentSeq 0 1; RttSentSeq 1 1] /\
  (forall s, In s (m_retxSeqs (CheckRetxTimeout 3000000000 1500000000 three_pending))
             <-> In s [0; 1]).
Proof.
  assert (Hs : SeqTimeouts.time_sorted (m_seqTimeouts three_pending))
    by (repeat constructor; simpl; lia).
  destruct (CheckRetxTimeout_expires_oldest 3000000000 1500000000 three_pending Hs)
    as (_ & Hkept & _ & Hlog & Hretx).
  split; [exact Hkept |]. split; [exact Hlog |].
  intros s. rewrite Hretx. simpl. intuition.
Defined.

(** C6 as stated fails on the first send: the counter is 1 afterwards, not 0. *)
Lemma first_send_counts_one :
  m_seqRetxCounts (new_Consumer SEQUENTIAL UINT32_MAX true) !! 7 = None /\
  m_seqRetxCounts (WillSendOutInterest 0 7 (new_Consumer SEQUENTIAL UINT32_MAX true))
    !! 7 = Some 1 /\
  m_seqRetxCounts (WillSendOutInterest 0 7 (new_Consumer SEQUENTIAL UINT32_MAX true))
    !! 7 <> Some 0.
Proof.
  unfold WillSendOutInterest, log; simpl.
  rewrite lookup_insert_eq, lookup_empty. simpl.
  split; [reflexivity |]. split; [reflexivity | discriminate].
Qed.

(** Witness of [OnNack_requeues]. *)
Lemma OnNack_requeues_witness :
  m_retxSeqs (OnNack 0 7 paced_consumer) = [7] /\
  m_sendEvent (OnNack 0 7 paced_consumer) = Some 100000000.
Proof.
  destruct (OnNack_requeues 0 7 paced_consumer eq_refl)
    as ((Hretx & _) & _ & _ & _ & Hsend).
  split; [exact Hretx | exact Hsend].
Defined.

(** C7 as stated fails: with a transmission pending for t = 100ms, a negative
    acknowledgement at t = 0 transmits nothing and leaves the next
    transmission where it was. *)
Lemma nack_waits_for_paced_slot :
  m_active paced_consumer = true /\
  m_sendEvent (OnNack 0 7 paced_consumer) = Some 100000000 /\
  m_sendEvent (OnNack 0 7 paced_consumer) <> Some 0 /\
  m_log (OnNack 0 7 paced_consumer) = [AppOnNack 7].
Proof.
  unfold OnNack, ScheduleNextPacket, log; simpl.
  repeat split; discriminate.
Qed.

(** ** Issuing requests (C4, C10) *)

Section SendClaims.

Context `{D : Double}.

Lemma issued_app (l l' : list Event) : issued (l ++ l') = issued l ++ issued l'.
Proof. unfold issued. apply flat_map_app. Qed.

Lemma random_component_same (c : Consumer) :
  same_but_rand c (snd (random_component c)).
Proof.
  unfold random_component, same_but_rand, GetInteger.
  destruct (m_randCompLenMax c =? 0); [destruct c; reflexivity |].
  destruct (m_randCompLenMax c >=? Z.of_nat (length (m_randCompName c))).
  - destruct (regenerate (Z.to_nat (m_randCompLenMax c + 1)) [] (m_rand c))
      as [name rv]. reflexivity.
  - destruct c; reflexivity.
Qed.

Lemma send_interest_spec (now : Time) (s : Z) (c : Consumer) :
  exists (c1 : Consumer) (i : Interest),
    same_but_rand c c1 /\ i_seq i = s /\
    send_interest now s c =
    ScheduleNextPacket now (log (TransmittedInterest i) (WillSendOutInterest now s c1)).
Proof.
  unfold send_interest.
  pose proof (random_component_same c) as Hsame.
  destruct (random_component c) as [comp c0]. simpl in Hsame.
  destruct (GetNonce (m_rand c0)) as [nonce rv] eqn:En.
  exists (set_m_rand rv c0). eexists.
  split; [| split; [| reflexivity]]; [| reflexivity].
  unfold same_but_rand in *. rewrite Hsame. reflexivity.
Qed.

(** What sending an Interest leaves alone, and what it adds to the log. *)
Lemma send_interest_fields (now : Time) (s : Z) (c : Consumer) :
  let c' := send_interest now s c in
  m_active c' = m_active c /\ m_seq c' = m_seq c /\ m_seqMax c' = m_seqMax c /\
  m_requestMode c' = m_requestMode c /\ m_retxSeqs c' = m_retxSeqs c /\
  issued (m_log c') = issued (m_log c) ++ [s].
Proof.
  cbv zeta. destruct (send_interest_spec now s c) as (c1 & i & Hsame & Hi & ->).
  unfold same_but_rand in Hsame.
  assert (Hlog : issued (m_log (ScheduleNextPacket now
                   (log (TransmittedInterest i) (WillSendOutInterest now s c1))))
                 = issued (m_log c) ++ [s]).
  { assert (E : m_log (ScheduleNextPacket now
                   (log (TransmittedInterest i) (WillSendOutInterest now s c1)))
                = (m_log c ++ [RttSentSeq s 1]) ++ [TransmittedInterest i]).
    { rewrite Hsame. unfold ScheduleNextPacket, WillSendOutInterest, log; simpl.
      destruct (m_firstTime c); [reflexivity |].
      destruct (IsRunning (m_sendEvent c)); reflexivity. }
    rewrite E, !issued_app. simpl. rewrite Hi, app_nil_r. reflexivity. }
  rewrite Hlog. rewrite Hsame.
  unfold ScheduleNextPacket, WillSendOutInterest, log; simpl.
  destruct (m_firstTime c); [repeat split |].
  destruct (IsRunning (m_sendEvent c)); repeat split.
Qed.


Lemma ScheduleNextPacket_seqTimeouts (now : Time) (c : Consumer) :
  m_seqTimeouts (ScheduleNextPacket now c) = m_seqTimeouts c.
Proof.
  unfold ScheduleNextPacket.
  destruct (m_firstTime c); [reflexivity |].
  destruct (IsRunning (m_sendEvent c)); reflexivity.
Qed.

Lemma log_seqTimeouts (e : Event) (c : Consumer) :
  m_seqTimeouts (log e c) = m_seqTimeouts c.
Proof. reflexivity. Qed.

Lemma send_interest_sorted (now : Time) (s : Z) (c : Consumer) :
  SeqTimeouts.time_sorted (m_seqTimeouts c) ->
  SeqTimeouts.time_sorted (m_seqTimeouts (send_interest now s c)).
Proof.
  intros Hs. destruct (send_interest_spec now s c) as (c1 & i & Hsame & _ & ->).
  assert (E : m_seqTimeouts c1 = m_seqTimeouts c)
    by (unfold same_but_rand in Hsame; rewrite Hsame; reflexivity).
  rewrite ScheduleNextPacket_seqTimeouts, log_seqTimeouts.
  apply WillSendOutInterest_sorted. rewrite E. exact Hs.
Qed.

(** One tick of a sequential consumer with nothing to retransmit and a
    sequence bound: below the bound the next sequence number is issued, at
    the bound nothing happens. *)
Lemma SendPacket_sequential (fuel : nat) (now : Time) (c : Consumer) :
  m_active c = true -> m_requestMode c = SEQUENTIAL -> m_retxSeqs c = [] ->
  m_seqMax c < UINT32_MAX -> 0 <= m_seq c <= m_seqMax c ->
  exists c', SendPacket fuel now c = Returned c' /\
    m_active c' = true /\ m_requestMode c' = SEQUENTIAL /\ m_retxSeqs c' = [] /\
    m_seqMax c' = m_seqMax c /\
    (if m_seq c <? m_seqMax c
     then m_seq c' = m_seq c + 1 /\ issued (m_log c') = issued (m_log c) ++ [m_seq c]
     else c' = c).
Proof.
  intros Hact Hmode Hretx Hmax Hseq.
  unfold SendPacket. rewrite Hact, Hretx; simpl.
  assert (E1 : (m_seqMax c =? UINT32_MAX) = false) by (apply Z.eqb_neq; lia).
  rewrite E1; simpl.
  destruct (m_seq c <? m_seqMax c) eqn:Hlt.
  - apply Z.ltb_lt in Hlt.
    assert (E2 : (m_seq c >=? m_seqMax c) = false)
      by (rewrite Z.geb_leb; apply Z.leb_gt; lia).
    rewrite E2, Hmode.
    eexists. split; [reflexivity |].
    destruct (send_interest_fields now (m_seq c)
                (set_m_seq (wrap32 (m_seq c + 1)) c)) as (A & B & C & M & R & L).
    rewrite A, B, C, M, R, L; simpl.
    repeat split; auto.
    unfold wrap32. apply Z.mod_small. unfold UINT32_MAX in Hmax. lia.
  - apply Z.ltb_ge in Hlt.
    assert (E2 : (m_seq c >=? m_seqMax c) = true)
      by (rewrite Z.geb_leb; apply Z.leb_le; lia).
    rewrite E2. eexists. split; [reflexivity |]. repeat split; auto.
Qed.

Lemma run_ticks_sequential (fuel : nat) (nows : list Time) :
  forall c : Consumer,
  m_active c = true -> m_requestMode c = SEQUENTIAL -> m_retxSeqs c = [] ->
  m_seqMax c < UINT32_MAX -> 0 <= m_seq c <= m_seqMax c ->
  exists c', run_ticks fuel nows c = Returned c' /\
    issued (m_log c') =
    issued (m_log c) ++
    seqZ (m_seq c) (Z.min (Z.of_nat (length nows)) (m_seqMax c - m_seq c)).
Proof.
  induction nows as [|now rest IH]; intros c Hact Hmode Hretx Hmax Hseq.
  - exists c. split; [reflexivity |]. simpl.
    rewrite seqZ_nil by lia. rewrite app_nil_r. reflexivity.
  - cbn [run_ticks].
    destruct (SendPacket_sequential fuel now (set_m_sendEvent None c))
      as (c1 & E & A1 & M1 & R1 & X1 & Hcase); auto.
    rewrite E. simpl in X1, Hcase.
    destruct (m_seq c <? m_seqMax c) eqn:Hlt.
    + apply Z.ltb_lt in Hlt. destruct Hcase as [S1 L1].
      destruct (IH c1) as (c' & E' & L'); auto; [lia | lia |].
      exists c'. split; [exact E' |].
      rewrite L', L1, X1, S1, <- app_assoc. f_equal. simpl app.
      rewrite (seqZ_cons (m_seq c)) by (cbn [length]; lia).
      f_equal. f_equal; cbn [length]; lia.
    + apply Z.ltb_ge in Hlt. subst c1.
      destruct (IH (set_m_sendEvent None c)) as (c' & E' & L'); auto.
      exists c'. split; [exact E' |].
      rewrite L'. simpl. rewrite !seqZ_nil by lia. reflexivity.
Qed.

(** C4, as amended.  On an issuance attempt of an active consumer: if the
    retransmission queue is not empty, its smallest sequence number is taken
    out and, unless it is the reserved value [2^32 - 1], resent, whatever the
    sequence counter; if the queue is empty, a bound is configured and the
    counter has reached it, nothing is issued and nothing changes; and a
    sequential consumer starting at 0 with bound 5 and nothing to retransmit
    issues exactly the sequences 0 to 4, however many ticks follow. *)
Theorem SendPacket_issuance (fuel : nat) (now : Time) (c : Consumer) :
  m_active c = true ->
  (forall x rest, m_retxSeqs c = x :: rest -> x <> UINT32_MAX ->
     exists c', SendPacket fuel now c = Returned c' /\
       m_retxSeqs c' = rest /\ m_seq c' = m_seq c /\
       issued (m_log c') = issued (m_log c) ++ [x]) /\
  (m_retxSeqs c = [] -> m_seqMax c <> UINT32_MAX -> m_seqMax c <= m_seq c ->
     SendPacket fuel now c = Returned c) /\
  (m_requestMode c = SEQUENTIAL -> m_retxSeqs c = [] -> m_seq c = 0 ->
   m_seqMax c = 5 ->
     forall nows, exists c', run_ticks fuel nows c = Returned c' /\
       issued (m_log c') =
       issued (m_log c) ++ seqZ 0 (Z.min (Z.of_nat (length nows)) 5)).
Proof.
  intros Hact. split; [| split].
  - intros x rest Hretx Hx. unfold SendPacket. rewrite Hact, Hretx; simpl.
    assert (E : (x =? UINT32_MAX) = false) by (apply Z.eqb_neq; exact Hx).
    rewrite E. eexists. split; [reflexivity |].
    destruct (send_interest_fields now x (set_m_retxSeqs rest c))
      as (_ & B & _ & _ & R & L).
    rewrite B, R, L. simpl. auto.
  - intros Hretx Hmax Hseq. unfold SendPacket. rewrite Hact, Hretx; simpl.
    assert (E1 : (m_seqMax c =? UINT32_MAX) = false) by (apply Z.eqb_neq; exact Hmax).
    assert (E2 : (m_seq c >=? m_seqMax c) = true)
      by (rewrite Z.geb_leb; apply Z.leb_le; exact Hseq).
    rewrite E1, E2. reflexivity.
  - intros Hmode Hretx Hseq Hmax nows.
    destruct (run_ticks_sequential fuel nows c) as (c' & E & L); auto.
    + rewrite Hmax. unfold UINT32_MAX. lia.
    + lia.
    + exists c'. split; [exact E |]. rewrite L, Hseq, Hmax.
      replace (5 - 0) with 5 by lia. reflexivity.
Qed.

End SendClaims.

(** Witness of [SendPacket_issuance]: seven ticks of a sequential consumer
    with [MaxSeq] 5 issue the sequences 0, 1, 2, 3, 4. *)
Lemma SendPacket_issuance_witness :
  exists c', run_ticks 0 [0; 1; 2; 3; 4; 5; 6] (new_Consumer SEQUENTIAL 5 true)
             = Returned c' /\
             issued (m_log c') = [0; 1; 2; 3; 4].
Proof.
  destruct (SendPacket_issuance 0 0 (new_Consumer SEQUENTIAL 5 true) eq_refl)
    as (_ & _ & H).
  destruct (H eq_refl eq_refl eq_refl eq_refl [0; 1; 2; 3; 4; 5; 6]) as (c' & E & L).
  exists c'. split; [exact E | exact L].
Defined.

(** C4 as stated fails when the queue holds the reserved value: it is taken
    out of the queue, but what is sent is the next new sequence. *)
Lemma reserved_sequence_not_resent :
  exists c',
    SendPacket 0 0 (set_m_retxSeqs [UINT32_MAX] (new_Consumer SEQUENTIAL 5 true))
    = Returned c' /\
    m_retxSeqs c' = [] /\ issued (m_log c') = [0].
Proof.
  eexists. split; [reflexivity |]. split; reflexivity.
Qed.

(** *** Popularity mode: drawing a fresh sequence (C10) *)

Section RedrawClaims.

Context `{D : Double}.









(** Drawing changes the random variable only. *)
Lemma GetNextSeq_rand_only (inner : nat) (c : Consumer) (s : Z) (c' : Consumer) :
  GetNextSeq inner c = Some (s, c') -> c' = set_m_rand (m_rand c') c.
Proof.
  unfold GetNextSeq. destruct (GetValue01 (m_rand c)) as [p0 rv0].
  destruct (redraw_while_zero inner p0 rv0) as [[p rv] |]; [| discriminate].
  intros H. inversion H. reflexivity.
Qed.

(** Whatever the loop returns is not pending. *)
Lemma draw_fresh_sound (inner fuel : nat) :
  forall (c : Consumer) (s : Z) (c' : Consumer),
  draw_fresh inner fuel c = Some (s, c') ->
  SeqTimeouts.count s (m_seqTimeouts c) = false /\ c' = set_m_rand (m_rand c') c.
Proof.
  induction fuel as [|fuel IH]; intros c s c'; [discriminate |].
  cbn [draw_fresh].
  destruct (GetNextSeq inner c) as [[s1 c1] |] eqn:E; [| discriminate].
  pose proof (GetNextSeq_rand_only inner c s1 c1 E) as Hc1.
  destruct (SeqTimeouts.count s1 (m_seqTimeouts c1)) eqn:Hcount.
  - intros H. destruct (IH c1 s c' H) as [Hs Hc'].
    rewrite Hc1 in Hs. simpl in Hs. split; [exact Hs |].
    rewrite Hc', Hc1. reflexivity.
  - intros H. inversion H; subst s1 c1.
    rewrite Hc1 in Hcount. simpl in Hcount. split; [exact Hcount | exact Hc1].
Qed.





End RedrawClaims.


(** [two_items] is the consumer that [SetS 0] followed by
    [SetNumberOfContents 2] and a first transmission of item 1 leave. *)
Lemma two_items_built (p : R) :
  exists c1 c2 : @Consumer ExactArithmetic,
    @SetS ExactArithmetic 0%R
      (set_m_rand (constant_random p)
         (new_Consumer ZIPF_MANDELBROT UINT32_MAX true)) = Some c1 /\
    SetNumberOfContents 2 c1 = Some c2 /\
    two_items p = set_m_seqTimeouts [mkSeqTimeout 1 0] c2.
Proof.
  set (c0 := set_m_rand (constant_random p)
               (new_Consumer ZIPF_MANDELBROT UINT32_MAX true)).
  pose proof (@SetS_popularity ExactArithmetic 0%R c0 eq_refl
                ltac:(unfold UINT32_MAX; simpl; lia)) as H1.
  revert H1. generalize (popularity_table (m_q c0) 0%R (Z.to_nat (m_N c0))).
  intros T H1.
  exists (set_m_Pcum T (@set_m_s ExactArithmetic 0%R c0)). eexists.
  split; [exact H1 |]. split.
  - apply SetNumberOfContents_popularity; [reflexivity | unfold UINT32_MAX; lia].
  - unfold two_items. fold c0. f_equal.
    assert (HT : @popularity_table ExactArithmetic 0%R 0%R (Z.to_nat 2)
                 = [0; 1 / 2; 1]%R).
    { unfold popularity_table, normalized; simpl.
      change (Z.of_nat 1) with 1; change (Z.of_nat 2) with 2.
      rewrite !R_pow_zero_exponent by lra.
      f_equal. f_equal; [field |]. f_equal. field. }
    change (m_q (set_m_Pcum T (@set_m_s ExactArithmetic 0%R c0))) with 0%R.
    change (m_s (set_m_Pcum T (@set_m_s ExactArithmetic 0%R c0))) with 0%R.
    rewrite HT. reflexivity.
Qed.








(** ** The forwarding strategy (C1, C2, C9) *)

Section ForwarderClaims.

Context `{D : Double} `{W : CwndPolicy}.

Variable TrySendOutInterest :
  option Face -> Face -> InterestHeader -> Packet -> PitEntry -> bool * PitEntry.

Lemma total_cwnd_from (faces : FibEntry) (acc : Z) :
  fold_left (fun total metricFace => wrap32 (total + GetCwnd metricFace)) faces
            (wrap32 acc) = wrap32 (acc + sum_cwnd faces).
Proof.
  revert acc. induction faces as [|m r IH]; intros acc; simpl.
  - rewrite Z.add_0_r. reflexivity.
  - unfold sum_cwnd in *; simpl.
    replace (wrap32 (wrap32 acc + GetCwnd m)) with (wrap32 (acc + GetCwnd m)).
    + rewrite IH. f_equal. lia.
    + unfold wrap32. rewrite Zplus_mod_idemp_l. reflexivity.
Qed.

Lemma total_cwnd_sum (faces : FibEntry) : total_cwnd faces = wrap32 (sum_cwnd faces).
Proof.
  unfold total_cwnd. change 0 with (wrap32 0) at 1.
  rewrite total_cwnd_from. reflexivity.
Qed.

(** The walk from a face on: [seen] are the faces already passed, [p_sum]
    is what they add up to. *)
Lemma propagate_walk_first (p_random : double) (total : Z) (inFace : option Face)
      (header : InterestHeader) (origPacket : Packet) (pitEntry : PitEntry)
      (rest : FibEntry) :
  forall (seen : FibEntry),
  (forall k m, nth_error rest k = Some m ->
     d_leb p_random
           (fold_left (fun p_sum m =>
                         d_add p_sum (d_div (d_mul d_one (d_of_uint (GetCwnd m)))
                                            (d_of_uint total)))
                      (seen ++ firstn (S k) rest) d_zero) = true ->
     (forall j, (j < k)%nat ->
        d_leb p_random
              (fold_left (fun p_sum m =>
                            d_add p_sum (d_div (d_mul d_one (d_of_uint (GetCwnd m)))
                                               (d_of_uint total)))
                         (seen ++ firstn (S j) rest) d_zero) = false) ->
     propagate_walk TrySendOutInterest p_random
       (fold_left (fun p_sum m =>
                     d_add p_sum (d_div (d_mul d_one (d_of_uint (GetCwnd m)))
                                        (d_of_uint total)))
                  seen d_zero)
       total rest inFace header origPacket pitEntry
     = attempt TrySendOutInterest inFace header origPacket pitEntry (Some m)) /\
  ((forall j, (j < length rest)%nat ->
      d_leb p_random
            (fold_left (fun p_sum m =>
                          d_add p_sum (d_div (d_mul d_one (d_of_uint (GetCwnd m)))
                                             (d_of_uint total)))
                       (seen ++ firstn (S j) rest) d_zero) = false) ->
   propagate_walk TrySendOutInterest p_random
     (fold_left (fun p_sum m =>
                   d_add p_sum (d_div (d_mul d_one (d_of_uint (GetCwnd m)))
                                      (d_of_uint total)))
                seen d_zero)
     total rest inFace header origPacket pitEntry
   = (false, pitEntry, [])).
Proof.
  induction rest as [|m0 rest IH]; intros seen.
  - split; [intros [|k] m H; discriminate | reflexivity].
  - assert (Hshift : forall k, seen ++ firstn (S k) (m0 :: rest)
                               = (seen ++ [m0]) ++ firstn k rest)
      by (intros k; rewrite <- app_assoc; reflexivity).
    assert (Hone : seen ++ firstn 1 (m0 :: rest) = seen ++ [m0])
      by (simpl; destruct rest; reflexivity).
    destruct (IH (seen ++ [m0])) as (IHsome & IHnone).
    cbn [propagate_walk].
    rewrite fold_left_app in IHsome, IHnone. cbn [fold_left] in IHsome, IHnone.
    split.
    + intros k m Hnth Hreach Hbefore. destruct k as [|k].
      * inversion Hnth; subst m0. rewrite Hone, fold_left_app in Hreach.
        cbn [fold_left] in Hreach. rewrite Hreach. unfold attempt.
        destruct (TrySendOutInterest inFace (GetFace m) header origPacket pitEntry)
          as [success pitEntry'].
        reflexivity.
      * pose proof (Hbefore 0%nat ltac:(lia)) as H0.
        rewrite Hone, fold_left_app in H0. cbn [fold_left] in H0. rewrite H0.
        apply (IHsome k m Hnth).
        -- rewrite <- Hshift. exact Hreach.
        -- intros j Hj. rewrite <- Hshift. apply Hbefore. lia.
    + intros Hnone. pose proof (Hnone 0%nat ltac:(simpl; lia)) as H0.
      rewrite Hone, fold_left_app in H0. cbn [fold_left] in H0. rewrite H0.
      apply IHnone. intros j Hj. rewrite <- Hshift. apply Hnone. simpl. lia.
Qed.

(** Some face is the first one reached, or none is. *)
Lemma first_reached_or_none (reached : nat -> bool) (n : nat) :
  (exists k, (k < n)%nat /\ reached k = true /\
             forall j, (j < k)%nat -> reached j = false) \/
  (forall j, (j < n)%nat -> reached j = false).
Proof.
  induction n as [|n [(k & Hk & Hr & Hb) | Hnone]].
  - right. intros j Hj. lia.
  - left. exists k. split; [lia | split; assumption].
  - destruct (reached n) eqn:E.
    + left. exists n. split; [lia | split; [exact E | intros j Hj; apply Hnone; exact Hj]].
    + right. intros j Hj. destruct (Nat.eq_dec j n) as [-> | Hne]; [exact E |].
      apply Hnone. lia.
Qed.

(** C1, as amended.  [DoPropagateInterest] sums the windows of the candidate
    faces in a [uint32_t] (modulo [2^32]) and walks the faces in the order of
    the FIB entry, accumulating [1.0 * window / total].  Either some face is
    the first one at which the accumulated value is at least the number
    drawn: then this face is the only one tried, and if sending through it
    fails its window is decreased and the call fails.  Or the accumulated
    value stays below the number drawn (or is NaN) at every face: then no
    face is tried, the PIT entry is unchanged and the call fails. *)
Theorem DoPropagateInterest_roulette (p_random : double) (inFace : option Face)
        (header : InterestHeader) (origPacket : Packet) (pitEntry : PitEntry) :
  (exists (k : nat) (m : FaceMetric),
     nth_error (GetFibEntry pitEntry) k = Some m /\
     d_leb p_random (accumulated_probability (GetFibEntry pitEntry) (S k)) = true /\
     (forall j, (j < k)%nat ->
        d_leb p_random (accumulated_probability (GetFibEntry pitEntry) (S j)) = false) /\
     DoPropagateInterest TrySendOutInterest p_random inFace header origPacket pitEntry
     = (fst (TrySendOutInterest inFace (GetFace m) header origPacket pitEntry),
        if fst (TrySendOutInterest inFace (GetFace m) header origPacket pitEntry)
        then snd (TrySendOutInterest inFace (GetFace m) header origPacket pitEntry)
        else DecreaseCwnd (GetFace m)
               (snd (TrySendOutInterest inFace (GetFace m) header origPacket pitEntry)),
        [TrySend (GetFace m)
           (fst (TrySendOutInterest inFace (GetFace m) header origPacket pitEntry))]))
  \/
  ((forall j, (j < length (GetFibEntry pitEntry))%nat ->
      d_leb p_random (accumulated_probability (GetFibEntry pitEntry) (S j)) = false) /\
   DoPropagateInterest TrySendOutInterest p_random inFace header origPacket pitEntry
   = (false, pitEntry, [])).
Proof.
  destruct (propagate_walk_first p_random (total_cwnd (GetFibEntry pitEntry)) inFace
              header origPacket pitEntry (GetFibEntry pitEntry) [])
    as (Hsome & Hnone).
  rewrite total_cwnd_sum in Hsome, Hnone. unfold wrap32 in Hsome, Hnone.
  cbn [app fold_left] in Hsome, Hnone.
  assert (Hcall : DoPropagateInterest TrySendOutInterest p_random inFace header
                    origPacket pitEntry
                  = propagate_walk TrySendOutInterest p_random d_zero
                      (sum_cwnd (GetFibEntry pitEntry) mod 2 ^ 32)
                      (GetFibEntry pitEntry) inFace header origPacket pitEntry).
  { unfold DoPropagateInterest. cbv zeta. rewrite total_cwnd_sum. reflexivity. }
  destruct (first_reached_or_none
              (fun j => d_leb p_random
                          (accumulated_probability (GetFibEntry pitEntry) (S j)))
              (length (GetFibEntry pitEntry)))
    as [(k & Hk & Hreach & Hbefore) | Hall].
  - left. destruct (nth_error (GetFibEntry pitEntry) k) as [m |] eqn:Hnth;
      [| apply nth_error_None in Hnth; lia].
    exists k, m. split; [exact Hnth |]. split; [exact Hreach |].
    split; [exact Hbefore |].
    rewrite Hcall, (Hsome k m Hnth Hreach Hbefore). unfold attempt.
    destruct (TrySendOutInterest inFace (GetFace m) header origPacket pitEntry)
      as [success pitEntry'].
    reflexivity.
  - right. split; [exact Hall |]. rewrite Hcall. apply Hnone. exact Hall.
Qed.

End ForwarderClaims.

(** An instance in binary64: with the windows 3, 1 and 4 and a draw of 1/2
    the accumulated values are 3/8 and 1/2; face 2 is tried, and its window
    is halved when sending fails. *)
Example three_paths_second_face :
  @DoPropagateInterest (Binary64 pow_exponent_0_or_1) halving_policy never_sent
    0.5%float (Some 9) (example_header NORMAL_INTEREST)
    (example_packet NORMAL_INTEREST) three_paths
  = (false,
     {| GetFibEntry := [mkFaceMetric 1 3; mkFaceMetric 2 0; mkFaceMetric 3 4];
        GetIncoming := GetIncoming three_paths;
        GetOutgoing := GetOutgoing three_paths |},
     [TrySend 2 false]).
Proof. reflexivity. Qed.

(** C1 as stated ("selects one face") fails in binary64: with the windows 1,
    4, 1 and 1 the accumulated values are the rounded 1/7, 5/7, 6/7 and
    [1 - 2^-52]; a draw of [1 - 2^-53], below 1, is above all of them, and no
    face is tried.  And the total is not the sum of the windows when this
    one does not fit a [uint32_t]: two windows of [2^31] give a total of 0. *)
Lemma rounding_leaves_no_face :
  PrimFloat.ltb 0x1.fffffffffffffp-1%float 1%float = true /\
  @accumulated_probability (Binary64 pow_exponent_0_or_1) (GetFibEntry four_paths) 4
  = 0x1.ffffffffffffep-1%float /\
  @DoPropagateInterest (Binary64 pow_exponent_0_or_1) halving_policy always_sent
    0x1.fffffffffffffp-1%float (Some 9) (example_header NORMAL_INTEREST)
    (example_packet NORMAL_INTEREST) four_paths
  = (false, four_paths, []) /\
  total_cwnd [mkFaceMetric 1 2147483648; mkFaceMetric 2 2147483648] = 0.
Proof. repeat split. Qed.

Section NackClaims.

Context `{W : CwndPolicy}.



(** C9.  A give-up NACK removes its incoming face from the incoming faces of
    the PIT entry, whatever the state of the outgoing faces; a loop or a
    congestion NACK (or any other type) leaves the incoming faces as they
    are.  The window of the incoming face is decreased for a congestion and
    for a give-up NACK, and for no other type. *)
Theorem DidReceiveValidNack_cleanup (inFace : option Face) (nackCode : NackCode)
        (header : InterestHeader) (origPacket : Packet) (pitEntry : PitEntry) :
  let pitEntry' := fst (DidReceiveValidNack inFace nackCode header origPacket pitEntry) in
  match nackCode with
  | NACK_GIVEUP_PIT =>
      GetIncoming pitEntry' =
        match inFace with
        | Some f => GetIncoming pitEntry ∖ {[ f ]}
        | None => GetIncoming pitEntry
        end /\
      match inFace with
      | Some f => f ∉ GetIncoming pitEntry'
      | None => True
      end /\
      GetFibEntry pitEntry' = decreased inFace (GetFibEntry pitEntry)
  | NACK_CONGESTION =>
      GetIncoming pitEntry' = GetIncoming pitEntry /\
      GetFibEntry pitEntry' = decreased inFace (GetFibEntry pitEntry)
  | NACK_LOOP | NORMAL_INTEREST | NACK_OTHER _ =>
      GetIncoming pitEntry' = GetIncoming pitEntry /\
      GetFibEntry pitEntry' = GetFibEntry pitEntry
  end.
Proof.
  cbv zeta. unfold DidReceiveValidNack, AreAllOutgoingInVain.
  destruct nackCode, inFace as [f |]; simpl;
    try match goal with
        | |- context [negb (forallb ?p ?l)] => destruct (forallb p l)
        end; simpl; repeat split; try reflexivity;
    (intros Hin; apply elem_of_difference in Hin as [_ Hout];
     apply Hout, elem_of_singleton; reflexivity).
Qed.

End NackClaims.


(** The whole scenario: the NACKs of the first two faces are suppressed, the
    third one escalates. *)
Example three_paths_escalate_last :
  let nack f p :=
    @DidReceiveValidNack halving_policy (Some f) NACK_CONGESTION
      (example_header NACK_CONGESTION) (example_packet NACK_CONGESTION) p in
  let step1 := nack 1 three_paths in
  let step2 := nack 2 (fst step1) in
  let step3 := nack 3 (fst step2) in
  snd step1 = [DropNacks (example_header NACK_CONGESTION) (Some 1)] /\
  snd step2 = [DropNacks (example_header NACK_CONGESTION) (Some 2)] /\
  snd step3 = [DidExhaustForwardingOptions (Some 3) (example_header NORMAL_INTEREST)
                 (example_packet NORMAL_INTEREST)].
Proof. repeat split. Qed.

(** Give-up cleanup: the incoming face 9 gives up while the three outgoing
    faces are still awaited; it is no longer an incoming face afterwards. *)
Example giveup_removes_incoming :
  let p := fst (@DidReceiveValidNack halving_policy (Some 9) NACK_GIVEUP_PIT
                  (example_header NACK_GIVEUP_PIT) (example_packet NACK_GIVEUP_PIT)
                  three_paths) in
  (9 ∈ GetIncoming three_paths) /\ (9 ∉ GetIncoming p) /\
  forallb m_waitingInVain (GetOutgoing p) = false.
Proof.
  split; [simpl; apply elem_of_singleton_2; reflexivity |].
  split; [| reflexivity].
  simpl. intros Hin. apply elem_of_difference in Hin as [_ Hout].
  apply Hout, elem_of_singleton_2. reflexivity.
Qed.

(** * Further properties *)

(** ** The containers, continued *)

Lemma SeqTimeouts_find_erase_ne (s s' : Z) (c : SeqTimeoutsContainer) :
  s' <> s -> SeqTimeouts.find s' (SeqTimeouts.erase s c) = SeqTimeouts.find s' c.
Proof.
  intros Hne. unfold SeqTimeouts.find, SeqTimeouts.erase.
  induction c as [|x r IH]; simpl; [reflexivity |].
  destruct (seq x =? s) eqn:E; simpl.
  - apply Z.eqb_eq in E.
    assert (E' : (seq x =? s') = false) by (apply Z.eqb_neq; congruence).
    rewrite E'. exact IH.
  - destruct (seq x =? s'); [reflexivity | exact IH].
Qed.

Lemma SeqTimeouts_find_place_ne (e : SeqTimeout) (s' : Z) (c : SeqTimeoutsContainer) :
  s' <> seq e ->
  SeqTimeouts.find s' (SeqTimeouts.place e c) = SeqTimeouts.find s' c.
Proof.
  intros Hne. unfold SeqTimeouts.find.
  assert (E : (seq e =? s') = false) by (apply Z.eqb_neq; congruence).
  induction c as [|x r IH]; simpl.
  - rewrite E. reflexivity.
  - destruct (time e <? time x); simpl.
    + rewrite E. reflexivity.
    + destruct (seq x =? s'); [reflexivity | exact IH].
Qed.

Lemma SeqTimeouts_find_insert_ne (e : SeqTimeout) (s' : Z) (c : SeqTimeoutsContainer) :
  s' <> seq e ->
  SeqTimeouts.find s' (SeqTimeouts.insert e c) = SeqTimeouts.find s' c.
Proof.
  intros Hne. unfold SeqTimeouts.insert.
  destruct (SeqTimeouts.count (seq e) c); [reflexivity |].
  apply SeqTimeouts_find_place_ne. exact Hne.
Qed.

Lemma StdSet_erase_In (x y : Z) (s : list Z) :
  In y (StdSet.erase x s) <-> In y s /\ y <> x.
Proof.
  unfold StdSet.erase. rewrite List.filter_In.
  split; intros [Hin H]; (split; [exact Hin |]).
  - apply negb_true_iff, Z.eqb_neq in H. exact H.
  - apply negb_true_iff, Z.eqb_neq. exact H.
Qed.

Lemma StdSet_insert_sorted (x : Z) (s : list Z) :
  StronglySorted Z.lt s -> StronglySorted Z.lt (StdSet.insert x s).
Proof.
  induction s as [|y r IH]; intros Hs; simpl.
  - constructor; constructor.
  - apply StronglySorted_inv in Hs as [Hr Hy].
    destruct (x <? y) eqn:E1.
    + apply Z.ltb_lt in E1. constructor; [constructor; assumption |].
      constructor; [exact E1 |].
      rewrite List.Forall_forall in Hy |- *. intros z Hz. specialize (Hy z Hz). lia.
    + apply Z.ltb_ge in E1. destruct (x =? y) eqn:E2.
      * constructor; assumption.
      * apply Z.eqb_neq in E2. constructor; [apply IH; exact Hr |].
        rewrite List.Forall_forall in Hy |- *. intros z Hz.
        apply StdSet_insert_In_iff in Hz as [-> | Hz]; [lia | apply Hy; exact Hz].
Qed.

Lemma filter_sorted_lt (f : Z -> bool) (s : list Z) :
  StronglySorted Z.lt s -> StronglySorted Z.lt (List.filter f s).
Proof.
  induction s as [|y r IH]; intros Hs; simpl; [constructor |].
  apply StronglySorted_inv in Hs as [Hr Hy].
  destruct (f y); [| apply IH; exact Hr].
  constructor; [apply IH; exact Hr |].
  rewrite List.Forall_forall in Hy |- *. intros z Hz.
  apply List.filter_In in Hz as [Hz _]. apply Hy. exact Hz.
Qed.

Lemma filter_seq_unique (f : SeqTimeout -> bool) (c : SeqTimeoutsContainer) :
  SeqTimeouts.seq_unique c -> SeqTimeouts.seq_unique (List.filter f c).
Proof.
  unfold SeqTimeouts.seq_unique.
  induction c as [|x r IH]; intros Hu; simpl; [constructor |].
  inversion Hu as [|? ? Hx Hr]; subst.
  destruct (f x); simpl; [| apply IH; exact Hr].
  constructor; [| apply IH; exact Hr].
  rewrite in_map_iff. intros (y & Hy & Hin).
  apply List.filter_In in Hin as [Hin _].
  apply Hx. rewrite in_map_iff. eauto.
Qed.

Lemma container_wf_nil : container_wf [].
Proof. split; constructor. Qed.

Lemma container_wf_insert (e : SeqTimeout) (c : SeqTimeoutsContainer) :
  container_wf c -> container_wf (SeqTimeouts.insert e c).
Proof.
  intros [Hs Hu].
  split; [apply SeqTimeouts_insert_sorted | apply SeqTimeouts_insert_unique]; assumption.
Qed.

Lemma container_wf_filter (f : SeqTimeout -> bool) (c : SeqTimeoutsContainer) :
  container_wf c -> container_wf (List.filter f c).
Proof.
  intros [Hs Hu].
  split; [apply filter_time_sorted | apply filter_seq_unique]; assumption.
Qed.

Lemma container_wf_erase (s : Z) (c : SeqTimeoutsContainer) :
  container_wf c -> container_wf (SeqTimeouts.erase s c).
Proof. apply container_wf_filter. Qed.

(** ** The consumer: acknowledging a sequence *)

Section AcknowledgeFacts.

Context `{D : Double}.

(** The containers after [OnContentObject]. *)
Lemma OnContentObject_containers (now : Time) (s hopCount : Z) (c : Consumer) :
  m_active c = true ->
  let c' := OnContentObject now s hopCount c in
  m_seqTimeouts c' = SeqTimeouts.erase s (m_seqTimeouts c) /\
  m_seqLastDelay c' = SeqTimeouts.erase s (m_seqLastDelay c) /\
  m_seqFullDelay c' = SeqTimeouts.erase s (m_seqFullDelay c) /\
  m_retxSeqs c' = StdSet.erase s (m_retxSeqs c) /\
  (m_seqRetxCounts c' !! s = None /\
   forall s', s' <> s -> m_seqRetxCounts c' !! s' = m_seqRetxCounts c !! s').
Proof.
  intros Hact. cbv zeta. unfold OnContentObject, log. rewrite Hact; simpl.
  destruct (SeqTimeouts.find s (m_seqLastDelay c)); simpl;
    destruct (SeqTimeouts.find s (m_seqFullDelay c)); simpl;
    (repeat split; [apply lookup_delete_eq |]);
    intros s' Hne; rewrite lookup_delete_ne by congruence;
    rewrite ?lookup_insert_ne by congruence; reflexivity.
Qed.

(** X1.  A Data packet received by an active consumer removes every trace of
    its sequence number (timeout ledger, last-send and first-send ledgers,
    retransmission counter, retransmission queue) and leaves the records of
    all other sequence numbers as they were. *)
Theorem OnContentObject_forgets (now : Time) (s hopCount : Z) (c : Consumer) :
  m_active c = true ->
  let c' := OnContentObject now s hopCount c in
  (SeqTimeouts.find s (m_seqTimeouts c') = None /\
   SeqTimeouts.find s (m_seqLastDelay c') = None /\
   SeqTimeouts.find s (m_seqFullDelay c') = None /\
   m_seqRetxCounts c' !! s = None /\
   ~ In s (m_retxSeqs c')) /\
  (forall s', s' <> s ->
     SeqTimeouts.find s' (m_seqTimeouts c') = SeqTimeouts.find s' (m_seqTimeouts c) /\
     SeqTimeouts.find s' (m_seqLastDelay c') = SeqTimeouts.find s' (m_seqLastDelay c) /\
     SeqTimeouts.find s' (m_seqFullDelay c') = SeqTimeouts.find s' (m_seqFullDelay c) /\
     m_seqRetxCounts c' !! s' = m_seqRetxCounts c !! s' /\
     (In s' (m_retxSeqs c') <-> In s' (m_retxSeqs c))).
Proof.
  intros Hact.
  destruct (OnContentObject_containers now s hopCount c Hact)
    as (HT & HL & HF & HR & HC & HC').
  cbv zeta. rewrite HT, HL, HF, HR. split.
  - repeat split;
      try (apply SeqTimeouts_find_count, SeqTimeouts_count_erase).
    + exact HC.
    + rewrite StdSet_erase_In. tauto.
  - intros s' Hne. rewrite !SeqTimeouts_find_erase_ne by exact Hne.
    repeat split; try reflexivity.
    + apply HC'. exact Hne.
    + rewrite StdSet_erase_In. tauto.
    + rewrite StdSet_erase_In. tauto.
Qed.

End AcknowledgeFacts.

(** Witness of [OnContentObject_forgets]: sequence 1 of [three_pending] is
    acknowledged at t = 3s. *)
Lemma OnContentObject_forgets_witness :
  SeqTimeouts.find 1 (m_seqTimeouts (OnContentObject 3000000000 1 2 three_pending))
  = None /\
  SeqTimeouts.find 2 (m_seqTimeouts (OnContentObject 3000000000 1 2 three_pending))
  = Some (mkSeqTimeout 2 2000000000).
Proof.
  destruct (OnContentObject_forgets 3000000000 1 2 three_pending eq_refl)
    as ((H1 & _) & Hother).
  split; [exact H1 |].
  destruct (Hother 2 ltac:(discriminate)) as (H2 & _). rewrite H2. reflexivity.
Defined.

(** ** The consumer: delays, container invariants, repeated checks *)

Section LedgerFacts.

Context `{D : Double}.

(** X2.  For a sequence number with no first-send record, sent at [t0],
    sent again at [t1] and answered at [t2]: the consumer reports the delay
    since the last transmission ([t2 - t1]), the delay since the first one
    ([t2 - t0]) together with the number of transmissions made (two more than
    the counter held before), and tells the RTT estimator about the two
    transmissions and the acknowledgement, in this order. *)
Theorem delays_reported (t0 t1 t2 : Time) (s hopCount : Z) (c : Consumer) :
  m_active c = true ->
  SeqTimeouts.count s (m_seqFullDelay c) = false ->
  m_log (OnContentObject t2 s hopCount
           (WillSendOutInterest t1 s (WillSendOutInterest t0 s c))) =
  m_log c ++
  [RttSentSeq s 1; RttSentSeq s 1; AppOnContentObject s;
   LastRetransmittedInterestDataDelay s (t2 - t1) hopCount;
   FirstInterestDataDelay s (t2 - t0)
     (wrap32 (wrap32 (default 0 (m_seqRetxCounts c !! s) + 1) + 1)) hopCount;
   RttAckSeq s].
Proof.
  intros Hact Hfresh.
  set (c2 := WillSendOutInterest t1 s (WillSendOutInterest t0 s c)).
  assert (Hact2 : m_active c2 = true) by exact Hact.
  assert (Hlast : SeqTimeouts.find s (m_seqLastDelay c2) = Some (mkSeqTimeout s t1)).
  { unfold c2, WillSendOutInterest, log; simpl.
    rewrite SeqTimeouts_find_insert.
    rewrite (SeqTimeouts_find_count s _ (SeqTimeouts_count_erase s _)). reflexivity. }
  assert (Hfull : SeqTimeouts.find s (m_seqFullDelay c2) = Some (mkSeqTimeout s t0)).
  { unfold c2, WillSendOutInterest, log; simpl.
    rewrite !SeqTimeouts_find_insert.
    rewrite (SeqTimeouts_find_count s _ Hfresh). reflexivity. }
  assert (Hcount : m_seqRetxCounts c2 !! s
                   = Some (wrap32 (wrap32 (default 0 (m_seqRetxCounts c !! s) + 1) + 1))).
  { unfold c2, WillSendOutInterest, log; simpl.
    rewrite lookup_insert_eq. f_equal. f_equal. f_equal.
    rewrite lookup_insert_eq. reflexivity. }
  assert (Hlog : m_log c2 = (m_log c ++ [RttSentSeq s 1]) ++ [RttSentSeq s 1])
    by reflexivity.
  clearbody c2.
  unfold OnContentObject, log. rewrite Hact2; simpl.
  rewrite Hlast; simpl. rewrite Hfull; simpl. rewrite Hcount, Hlog; simpl.
  rewrite <- !app_assoc. reflexivity.
Qed.

(** The containers after the other operations. *)
Lemma containers_wf_same (c c' : Consumer) :
  m_seqTimeouts c' = m_seqTimeouts c -> m_seqLastDelay c' = m_seqLastDelay c ->
  m_seqFullDelay c' = m_seqFullDelay c -> m_retxSeqs c' = m_retxSeqs c ->
  containers_wf c -> containers_wf c'.
Proof. unfold containers_wf. intros -> -> -> ->. auto. Qed.

Lemma ScheduleNextPacket_containers (now : Time) (c : Consumer) :
  m_seqTimeouts (ScheduleNextPacket now c) = m_seqTimeouts c /\
  m_seqLastDelay (ScheduleNextPacket now c) = m_seqLastDelay c /\
  m_seqFullDelay (ScheduleNextPacket now c) = m_seqFullDelay c /\
  m_retxSeqs (ScheduleNextPacket now c) = m_retxSeqs c.
Proof.
  unfold ScheduleNextPacket.
  destruct (m_firstTime c); [repeat split |].
  destruct (IsRunning (m_sendEvent c)); repeat split.
Qed.

Lemma ScheduleNextPacket_wf (now : Time) (c : Consumer) :
  containers_wf c -> containers_wf (ScheduleNextPacket now c).
Proof.
  destruct (ScheduleNextPacket_containers now c) as (A & B & C & E).
  apply containers_wf_same; assumption.
Qed.

Lemma log_wf (e : Event) (c : Consumer) :
  containers_wf c -> containers_wf (log e c).
Proof. apply containers_wf_same; reflexivity. Qed.

Lemma WillSendOutInterest_wf (now : Time) (s : Z) (c : Consumer) :
  containers_wf c -> containers_wf (WillSendOutInterest now s c).
Proof.
  intros (HT & HL & HF & HR). unfold containers_wf, WillSendOutInterest, log; simpl.
  split; [apply container_wf_insert; exact HT |].
  split; [apply container_wf_insert, container_wf_erase; exact HL |].
  split; [apply container_wf_insert; exact HF | exact HR].
Qed.

Lemma OnTimeout_wf (now : Time) (s : Z) (c : Consumer) :
  containers_wf c -> containers_wf (OnTimeout now s c).
Proof.
  intros (HT & HL & HF & HR). unfold OnTimeout. apply ScheduleNextPacket_wf.
  unfold containers_wf, log; simpl.
  split; [exact HT |]. split; [exact HL |]. split; [exact HF |].
  apply StdSet_insert_sorted. exact HR.
Qed.

Lemma OnNack_wf (now : Time) (s : Z) (c : Consumer) :
  containers_wf c -> containers_wf (OnNack now s c).
Proof.
  intros Hwf. unfold OnNack. destruct (m_active c); simpl; [| exact Hwf].
  destruct Hwf as (HT & HL & HF & HR).
  apply ScheduleNextPacket_wf. unfold containers_wf, log; simpl.
  split; [apply container_wf_erase; exact HT |].
  split; [exact HL |]. split; [exact HF |].
  apply StdSet_insert_sorted. exact HR.
Qed.

Lemma OnContentObject_wf (now : Time) (s hopCount : Z) (c : Consumer) :
  containers_wf c -> containers_wf (OnContentObject now s hopCount c).
Proof.
  intros Hwf. destruct (m_active c) eqn:Hact.
  - destruct (OnContentObject_containers now s hopCount c Hact)
      as (HT & HL & HF & HR & _).
    destruct Hwf as (WT & WL & WF & WR).
    unfold containers_wf. rewrite HT, HL, HF, HR.
    split; [apply container_wf_erase; exact WT |].
    split; [apply container_wf_erase; exact WL |].
    split; [apply container_wf_erase; exact WF |].
    apply filter_sorted_lt. exact WR.
  - unfold OnContentObject. rewrite Hact. exact Hwf.
Qed.

Lemma signal_timeouts_wf (now : Time) (seqs : list Z) :
  forall c : Consumer, containers_wf c -> containers_wf (signal_timeouts now seqs c).
Proof.
  unfold signal_timeouts.
  induction seqs as [|s l IH]; intros c Hwf; simpl; [exact Hwf |].
  apply IH. apply OnTimeout_wf. exact Hwf.
Qed.

Lemma CheckRetxTimeout_wf (now rto : Time) (c : Consumer) :
  containers_wf c -> containers_wf (CheckRetxTimeout now rto c).
Proof.
  intros Hwf. pose proof Hwf as (HT & HL & HF & HR).
  rewrite (CheckRetxTimeout_spec now rto c (proj1 HT)).
  assert (H : containers_wf
                (signal_timeouts now
                   (map seq (List.filter (expired now rto) (m_seqTimeouts c)))
                   (set_m_seqTimeouts
                      (List.filter (unexpired now rto) (m_seqTimeouts c)) c))).
  { apply signal_timeouts_wf. unfold containers_wf; simpl.
    split; [apply container_wf_filter; exact HT |]. auto. }
  exact H.
Qed.

Lemma send_interest_wf (now : Time) (s : Z) (c : Consumer) :
  containers_wf c -> containers_wf (send_interest now s c).
Proof.
  intros Hwf. destruct (send_interest_spec now s c) as (c1 & i & Hsame & _ & ->).
  apply ScheduleNextPacket_wf.
  assert (H1 : containers_wf c1).
  { unfold same_but_rand in Hsame.
    apply (containers_wf_same c c1); try (rewrite Hsame; reflexivity). exact Hwf. }
  apply log_wf, WillSendOutInterest_wf. exact H1.
Qed.

Lemma SendPacket_wf (fuel : nat) (now : Time) (c c' : Consumer) :
  containers_wf c -> SendPacket fuel now c = Returned c' -> containers_wf c'.
Proof.
  intros Hwf. unfold SendPacket.
  destruct (m_active c); simpl; [| intros H; inversion H; subst; exact Hwf].
  destruct (m_retxSeqs c) as [|x rest] eqn:Hretx.
  - (* nothing to retransmit *)
    simpl.
    destruct (negb (m_seqMax c =? UINT32_MAX) && (m_seq c >=? m_seqMax c));
      [intros H; inversion H; subst; exact Hwf |].
    destruct (m_requestMode c).
    + intros H; inversion H; subst. apply send_interest_wf.
      apply (containers_wf_same c); try reflexivity. exact Hwf.
    + destruct (SeqTimeouts.size (m_seqTimeouts c) <? GetNumberOfContents c);
        [| discriminate].
      destruct (draw_fresh fuel fuel c) as [[s c1] |] eqn:E; [| discriminate].
      intros H; inversion H; subst. apply send_interest_wf.
      destruct (draw_fresh_sound fuel fuel c s c1 E) as [_ Hc1].
      apply (containers_wf_same c); try (rewrite Hc1; reflexivity). exact Hwf.
  - (* the head of the queue is taken out *)
    assert (Hwf1 : containers_wf (set_m_retxSeqs rest c)).
    { destruct Hwf as (HT & HL & HF & HR). unfold containers_wf; simpl.
      split; [exact HT |]. split; [exact HL |]. split; [exact HF |].
      rewrite Hretx in HR. apply StronglySorted_inv in HR as [HR _]. exact HR. }
    destruct (x =? UINT32_MAX);
      [| intros H; inversion H; subst; apply send_interest_wf; exact Hwf1].
    simpl.
    destruct (negb (m_seqMax c =? UINT32_MAX) && (m_seq c >=? m_seqMax c));
      [intros H; inversion H; subst; exact Hwf1 |].
    destruct (m_requestMode c).
    + intros H; inversion H; subst. apply send_interest_wf.
      apply (containers_wf_same (set_m_retxSeqs rest c)); try reflexivity. exact Hwf1.
    + match goal with
      | |- context [if ?b then _ else AssertionFailed _] => destruct b
      end; [| discriminate].
      destruct (draw_fresh fuel fuel (set_m_retxSeqs rest c)) as [[s c1] |] eqn:E;
        [| discriminate].
      intros H; inversion H; subst. apply send_interest_wf.
      destruct (draw_fresh_sound fuel fuel _ s c1 E) as [_ Hc1].
      apply (containers_wf_same (set_m_retxSeqs rest c));
        try (rewrite Hc1; reflexivity).
      exact Hwf1.
Qed.

(** X3.  Every operation of the consumer keeps its containers well formed:
    the three ledgers stay ordered by time with one record per sequence
    number, and the retransmission queue stays strictly increasing (hence
    without duplicates). *)
Theorem containers_stay_wf (fuel : nat) (now rto : Time) (s hopCount : Z)
        (c : Consumer) :
  containers_wf c ->
  containers_wf (WillSendOutInterest now s c) /\
  containers_wf (OnNack now s c) /\
  containers_wf (OnTimeout now s c) /\
  containers_wf (OnContentObject now s hopCount c) /\
  containers_wf (CheckRetxTimeout now rto c) /\
  (forall c', SendPacket fuel now c = Returned c' -> containers_wf c').
Proof.
  intros Hwf.
  split; [apply WillSendOutInterest_wf; exact Hwf |].
  split; [apply OnNack_wf; exact Hwf |].
  split; [apply OnTimeout_wf; exact Hwf |].
  split; [apply OnContentObject_wf; exact Hwf |].
  split; [apply CheckRetxTimeout_wf; exact Hwf |].
  intros c'. apply SendPacket_wf. exact Hwf.
Qed.

(** X4.  After a check no pending entry is expired, and a second check at
    the same time with the same timeout changes nothing at all. *)
Theorem CheckRetxTimeout_settles (now rto : Time) (c : Consumer) :
  SeqTimeouts.time_sorted (m_seqTimeouts c) ->
  List.Forall (fun e => now < time e + rto)
              (m_seqTimeouts (CheckRetxTimeout now rto c)) /\
  CheckRetxTimeout now rto (CheckRetxTimeout now rto c) = CheckRetxTimeout now rto c.
Proof.
  intros Hs.
  pose proof (CheckRetxTimeout_seqTimeouts now rto c Hs) as Hkept.
  pose proof (CheckRetxTimeout_sorted now rto c Hs) as Hs'.
  assert (Hnone : List.filter (expired now rto)
                    (m_seqTimeouts (CheckRetxTimeout now rto c)) = []).
  { rewrite Hkept. generalize (m_seqTimeouts c) as l.
    induction l as [|e r IH]; simpl; [reflexivity |].
    destruct (unexpired now rto e) eqn:E; simpl; [| exact IH].
    unfold unexpired in E. apply negb_true_iff in E. rewrite E. exact IH. }
  assert (Hall : List.filter (unexpired now rto)
                   (m_seqTimeouts (CheckRetxTimeout now rto c))
                 = m_seqTimeouts (CheckRetxTimeout now rto c)).
  { rewrite Hkept. generalize (m_seqTimeouts c) as l.
    induction l as [|e r IH]; simpl; [reflexivity |].
    destruct (unexpired now rto e) eqn:E; simpl; [| exact IH].
    rewrite E, IH. reflexivity. }
  split.
  - rewrite Hkept. rewrite List.Forall_forall. intros e He.
    apply List.filter_In in He as [_ He].
    unfold unexpired, expired in He. apply negb_true_iff, Z.leb_gt in He. exact He.
  - assert (Ht : m_retxTimer (CheckRetxTimeout now rto c) = m_retxTimer c).
    { rewrite (CheckRetxTimeout_spec now rto c Hs).
      change (m_retxTimer (set_m_retxEvent ?e ?x)) with (m_retxTimer x).
      rewrite signal_timeouts_retxTimer. reflexivity. }
    rewrite (CheckRetxTimeout_spec now rto (CheckRetxTimeout now rto c) Hs').
    rewrite Hnone, Hall, Ht. unfold signal_timeouts at 1. cbn [map fold_left].
    rewrite set_m_seqTimeouts_same.
    rewrite (CheckRetxTimeout_spec now rto c Hs). reflexivity.
Qed.

End LedgerFacts.

(** Witness of [delays_reported]: sequence 7 sent at 0s and 1s, answered at
    1.25s after two hops. *)
Lemma delays_reported_witness :
  m_log (OnContentObject 1250000000 7 2
           (WillSendOutInterest 1000000000 7
              (WillSendOutInterest 0 7 (new_Consumer SEQUENTIAL UINT32_MAX true)))) =
  [RttSentSeq 7 1; RttSentSeq 7 1; AppOnContentObject 7;
   LastRetransmittedInterestDataDelay 7 250000000 2;
   FirstInterestDataDelay 7 1250000000 2 2; RttAckSeq 7].
Proof.
  exact (delays_reported 0 1000000000 1250000000 7 2
           (new_Consumer SEQUENTIAL UINT32_MAX true) eq_refl eq_refl).
Defined.

(** Witness of [containers_stay_wf]. *)
Lemma containers_stay_wf_witness :
  containers_wf (CheckRetxTimeout 3000000000 1500000000 three_pending) /\
  containers_wf (OnNack 3000000000 1 three_pending).
Proof.
  assert (Hwf : containers_wf three_pending).
  { unfold containers_wf, container_wf, SeqTimeouts.time_sorted,
      SeqTimeouts.seq_unique; simpl.
    repeat split; repeat constructor; simpl; try lia; intuition discriminate. }
  destruct (containers_stay_wf 0 3000000000 1500000000 1 0 three_pending Hwf)
    as (_ & Hnack & _ & _ & Hcheck & _).
  split; [exact Hcheck | exact Hnack].
Defined.

(** Witness of [CheckRetxTimeout_settles]. *)
Lemma CheckRetxTimeout_settles_witness :
  CheckRetxTimeout 3000000000 1500000000
    (CheckRetxTimeout 3000000000 1500000000 three_pending)
  = CheckRetxTimeout 3000000000 1500000000 three_pending.
Proof.
  assert (Hs : SeqTimeouts.time_sorted (m_seqTimeouts three_pending))
    by (repeat constructor; simpl; lia).
  exact (proj2 (CheckRetxTimeout_settles 3000000000 1500000000 three_pending Hs)).
Defined.

(** ** The consumer: what event handling never touches *)

Section PacingFacts.

Context `{D : Double}.

Lemma keeps_pace_refl (c : Consumer) : keeps_pace c c.
Proof. split; [unfold same_configuration; repeat split | auto]. Qed.

Lemma keeps_pace_trans (c1 c2 c3 : Consumer) :
  keeps_pace c1 c2 -> keeps_pace c2 c3 -> keeps_pace c1 c3.
Proof.
  intros [A1 B1] [A2 B2]. split; [| auto].
  unfold same_configuration in *.
  destruct A1 as (a1 & a2 & a3 & a4 & a5 & a6 & a7 & a8 & a9 & a10 & a11).
  destruct A2 as (b1 & b2 & b3 & b4 & b5 & b6 & b7 & b8 & b9 & b10 & b11).
  repeat split; congruence.
Qed.

(** Two states that differ in neither configuration nor pacing. *)
Lemma keeps_pace_same (c c' : Consumer) :
  m_active c' = m_active c -> m_seqMax c' = m_seqMax c ->
  m_requestMode c' = m_requestMode c -> m_N c' = m_N c -> m_q c' = m_q c ->
  m_s c' = m_s c -> m_Pcum c' = m_Pcum c ->
  m_randCompLenMax c' = m_randCompLenMax c ->
  m_interestLifeTime c' = m_interestLifeTime c -> m_retxTimer c' = m_retxTimer c ->
  m_frequency c' = m_frequency c ->
  m_firstTime c' = m_firstTime c -> m_sendEvent c' = m_sendEvent c ->
  keeps_pace c c'.
Proof.
  intros. split; [unfold same_configuration; repeat split; assumption |].
  unfold send_pending. intros t [? ?]. split; congruence.
Qed.

Lemma ScheduleNextPacket_keeps_pace (now : Time) (c : Consumer) :
  keeps_pace c (ScheduleNextPacket now c).
Proof.
  unfold ScheduleNextPacket. destruct (m_firstTime c) eqn:Hfirst.
  - split; [unfold same_configuration; repeat split |].
    unfold send_pending. intros t [Hf _]. congruence.
  - destruct (m_sendEvent c) as [t0 |] eqn:Hev; simpl.
    + apply keeps_pace_refl.
    + split; [unfold same_configuration; repeat split |].
      unfold send_pending. intros t [_ He]. congruence.
Qed.

Lemma log_keeps_pace (e : Event) (c : Consumer) : keeps_pace c (log e c).
Proof. apply keeps_pace_same; reflexivity. Qed.

Lemma WillSendOutInterest_keeps_pace (now : Time) (s : Z) (c : Consumer) :
  keeps_pace c (WillSendOutInterest now s c).
Proof. apply keeps_pace_same; reflexivity. Qed.

Lemma OnTimeout_keeps_pace (now : Time) (s : Z) (c : Consumer) :
  keeps_pace c (OnTimeout now s c).
Proof.
  unfold OnTimeout. eapply keeps_pace_trans; [| apply ScheduleNextPacket_keeps_pace].
  apply keeps_pace_same; reflexivity.
Qed.

Lemma OnNack_keeps_pace (now : Time) (s : Z) (c : Consumer) :
  keeps_pace c (OnNack now s c).
Proof.
  unfold OnNack. destruct (m_active c); simpl; [| apply keeps_pace_refl].
  eapply keeps_pace_trans; [| apply ScheduleNextPacket_keeps_pace].
  apply keeps_pace_same; reflexivity.
Qed.

Lemma OnContentObject_keeps_pace (now : Time) (s hopCount : Z) (c : Consumer) :
  keeps_pace c (OnContentObject now s hopCount c).
Proof.
  unfold OnContentObject, log. destruct (m_active c) eqn:Hact; simpl;
    [| apply keeps_pace_refl].
  destruct (SeqTimeouts.find s (m_seqLastDelay c)); simpl;
    destruct (SeqTimeouts.find s (m_seqFullDelay c)); simpl;
    apply keeps_pace_same; try reflexivity; exact Hact.
Qed.

Lemma CheckRetxTimeout_loop_keeps_pace (now rto : Time)
      (entries : SeqTimeoutsContainer) :
  forall c : Consumer, keeps_pace c (CheckRetxTimeout_loop now rto entries c).
Proof.
  induction entries as [|e r IH]; intros c; simpl; [apply keeps_pace_refl |].
  destruct (time e + rto <=? now); [| apply keeps_pace_refl].
  eapply keeps_pace_trans; [| apply IH].
  eapply keeps_pace_trans; [| apply OnTimeout_keeps_pace].
  apply keeps_pace_same; reflexivity.
Qed.

Lemma CheckRetxTimeout_keeps_pace (now rto : Time) (c : Consumer) :
  keeps_pace c (CheckRetxTimeout now rto c).
Proof.
  unfold CheckRetxTimeout. cbv zeta.
  eapply keeps_pace_trans; [apply (CheckRetxTimeout_loop_keeps_pace now rto) |].
  apply keeps_pace_same; reflexivity.
Qed.

Lemma send_interest_keeps_pace (now : Time) (s : Z) (c : Consumer) :
  keeps_pace c (send_interest now s c).
Proof.
  destruct (send_interest_spec now s c) as (c1 & i & Hsame & _ & ->).
  eapply keeps_pace_trans; [| apply ScheduleNextPacket_keeps_pace].
  eapply keeps_pace_trans; [| apply log_keeps_pace].
  eapply keeps_pace_trans; [| apply WillSendOutInterest_keeps_pace].
  unfold same_but_rand in Hsame.
  apply keeps_pace_same; rewrite Hsame; reflexivity.
Qed.

Lemma SendPacket_keeps_pace (fuel : nat) (now : Time) (c c' : Consumer) :
  SendPacket fuel now c = Returned c' -> keeps_pace c c'.
Proof.
  unfold SendPacket.
  destruct (m_active c); simpl; [| intros H; inversion H; apply keeps_pace_refl].
  set (popped := match m_retxSeqs c with
                 | [] => (UINT32_MAX, c)
                 | x :: rest => (x, set_m_retxSeqs rest c)
                 end).
  assert (Hpop : keeps_pace c (snd popped)).
  { unfold popped. destruct (m_retxSeqs c); simpl;
      [apply keeps_pace_refl | apply keeps_pace_same; reflexivity]. }
  destruct popped as [x c0]. simpl in Hpop.
  destruct (x =? UINT32_MAX).
  - destruct (negb (m_seqMax c0 =? UINT32_MAX) && (m_seq c0 >=? m_seqMax c0));
      [intros H; inversion H; subst; exact Hpop |].
    destruct (m_requestMode c0).
    + intros H; inversion H; subst.
      eapply keeps_pace_trans; [exact Hpop |].
      eapply keeps_pace_trans; [| apply send_interest_keeps_pace].
      apply keeps_pace_same; reflexivity.
    + destruct (SeqTimeouts.size (m_seqTimeouts c0) <? GetNumberOfContents c0);
        [| discriminate].
      destruct (draw_fresh fuel fuel c0) as [[s c1] |] eqn:E; [| discriminate].
      intros H; inversion H; subst.
      destruct (draw_fresh_sound fuel fuel c0 s c1 E) as [_ Hc1].
      eapply keeps_pace_trans; [exact Hpop |].
      eapply keeps_pace_trans; [| apply send_interest_keeps_pace].
      apply keeps_pace_same; rewrite Hc1; reflexivity.
  - intros H; inversion H; subst.
    eapply keeps_pace_trans; [exact Hpop | apply send_interest_keeps_pace].
Qed.

(** X5.  No event handler and no transmission changes the configuration of
    the consumer: the frequency of the rate-based consumer in particular is
    never adapted, whatever Data, NACK or timeout arrives. *)
Theorem configuration_is_never_adapted (fuel : nat) (now rto : Time) (s hopCount : Z)
        (c : Consumer) :
  same_configuration c (OnNack now s c) /\
  same_configuration c (OnTimeout now s c) /\
  same_configuration c (OnContentObject now s hopCount c) /\
  same_configuration c (CheckRetxTimeout now rto c) /\
  match SendPacket fuel now c with
  | Returned c' => same_configuration c c'
  | _ => True
  end.
Proof.
  split; [apply OnNack_keeps_pace |].
  split; [apply OnTimeout_keeps_pace |].
  split; [apply OnContentObject_keeps_pace |].
  split; [apply CheckRetxTimeout_keeps_pace |].
  destruct (SendPacket fuel now c) as [c' | |] eqn:E; [| exact I | exact I].
  apply (SendPacket_keeps_pace fuel now c c' E).
Qed.

(** X6.  After [ScheduleNextPacket] a transmission is pending, and once one
    is pending nothing moves or cancels it: not a further
    [ScheduleNextPacket], not a NACK, a timeout, a Data packet or a timeout
    check.  Only the first call ever schedules at the current time. *)
Theorem pending_transmission_stays (now now' rto : Time) (s hopCount : Z)
        (c : Consumer) :
  (IsRunning (m_sendEvent (ScheduleNextPacket now c)) = true /\
   m_firstTime (ScheduleNextPacket now c) = false /\
   ScheduleNextPacket now' (ScheduleNextPacket now c) = ScheduleNextPacket now c) /\
  (forall t, send_pending t c ->
     send_pending t (ScheduleNextPacket now c) /\
     send_pending t (OnNack now s c) /\
     send_pending t (OnTimeout now s c) /\
     send_pending t (OnContentObject now s hopCount c) /\
     send_pending t (CheckRetxTimeout now rto c)).
Proof.
  split.
  - unfold ScheduleNextPacket. destruct (m_firstTime c) eqn:Hfirst; simpl.
    + repeat split.
    + destruct (m_sendEvent c) as [t0 |] eqn:Hev; simpl.
      * rewrite Hfirst, Hev. repeat split.
      * rewrite Hfirst. repeat split.
  - intros t Ht.
    split; [apply ScheduleNextPacket_keeps_pace; exact Ht |].
    split; [apply OnNack_keeps_pace; exact Ht |].
    split; [apply OnTimeout_keeps_pace; exact Ht |].
    split; [apply OnContentObject_keeps_pace; exact Ht |].
    apply CheckRetxTimeout_keeps_pace; exact Ht.
Qed.

End PacingFacts.

(** Witness of [pending_transmission_stays]: a NACK does not move the
    transmission due at 0.1 s. *)
Lemma pending_transmission_stays_witness :
  send_pending 100000000 (OnNack 50000000 7 paced_consumer).
Proof.
  destruct (pending_transmission_stays 50000000 60000000 1000000000 7 1 paced_consumer)
    as [_ H].
  destruct (H 100000000 (conj eq_refl eq_refl)) as (_ & Hn & _). exact Hn.
Defined.

(** ** The consumer: from a loss signal to the retransmission *)

Lemma issued_RttSentSeq (seqs : list Z) :
  issued (map (fun s => RttSentSeq s 1) seqs) = [].
Proof. induction seqs as [|s l IH]; simpl; [reflexivity | exact IH]. Qed.

Lemma count_filter_absent (g : SeqTimeout -> bool) (c : SeqTimeoutsContainer) (x : Z) :
  ~ In x (map seq c) -> SeqTimeouts.count x (List.filter g c) = false.
Proof.
  unfold SeqTimeouts.count.
  induction c as [|e r IH]; intros Hx; simpl; [reflexivity |].
  simpl in Hx.
  destruct (g e); simpl; [| apply IH; tauto].
  apply orb_false_iff. split; [| apply IH; tauto].
  apply Z.eqb_neq. tauto.
Qed.

(** With one record per sequence number, a sequence number found among the
    records selected by [f] is not among the others. *)
Lemma seq_unique_split (f : SeqTimeout -> bool) (c : SeqTimeoutsContainer) (x : Z) :
  SeqTimeouts.seq_unique c ->
  In x (map seq (List.filter f c)) ->
  SeqTimeouts.count x (List.filter (fun e => negb (f e)) c) = false.
Proof.
  unfold SeqTimeouts.seq_unique.
  induction c as [|e r IH]; intros Hu Hin; [destruct Hin |].
  inversion Hu as [|? ? He Hr]; subst. simpl in Hin |- *.
  destruct (f e) eqn:E; simpl in Hin |- *.
  - destruct Hin as [<- | Hin]; [| apply IH; assumption].
    apply count_filter_absent. exact He.
  - unfold SeqTimeouts.count; simpl.
    apply orb_false_iff. split; [| apply IH; assumption].
    apply Z.eqb_neq. intros Heq. apply He. subst x.
    rewrite in_map_iff in Hin |- *. destruct Hin as (y & Hy & Hin).
    apply List.filter_In in Hin as [Hin _]. eauto.
Qed.

Section RetransmissionFacts.

Context `{D : Double}.

Lemma send_interest_seqTimeouts (now : Time) (s : Z) (c : Consumer) :
  m_seqTimeouts (send_interest now s c) =
  SeqTimeouts.insert (mkSeqTimeout s now) (m_seqTimeouts c).
Proof.
  destruct (send_interest_spec now s c) as (c1 & i & Hsame & _ & ->).
  rewrite ScheduleNextPacket_seqTimeouts, log_seqTimeouts.
  assert (E : m_seqTimeouts c1 = m_seqTimeouts c)
    by (unfold same_but_rand in Hsame; rewrite Hsame; reflexivity).
  rewrite <- E. reflexivity.
Qed.

(** [SendPacket] when the queue holds a sequence number to be sent again. *)
Lemma SendPacket_resends (fuel : nat) (now : Time) (c : Consumer) (x : Z)
      (rest : list Z) :
  m_active c = true -> m_retxSeqs c = x :: rest -> x <> UINT32_MAX ->
  SendPacket fuel now c = Returned (send_interest now x (set_m_retxSeqs rest c)).
Proof.
  intros Hact Hretx Hx. unfold SendPacket. rewrite Hact, Hretx; simpl.
  assert (E : (x =? UINT32_MAX) = false) by (apply Z.eqb_neq; exact Hx).
  rewrite E. reflexivity.
Qed.

(** X7.  A NACK for a sequence number, received while nothing else waits for
    retransmission, makes the next transmission a retransmission of that very
    sequence number: the sequence counter does not move, the queue is empty
    again, and the sequence number is back in the timeout ledger with the time
    of the retransmission. *)
Theorem nack_then_resend (fuel : nat) (now now' : Time) (s : Z) (c : Consumer) :
  m_active c = true -> m_retxSeqs c = [] -> s <> UINT32_MAX ->
  exists c', SendPacket fuel now' (OnNack now s c) = Returned c' /\
    issued (m_log c') = issued (m_log c) ++ [s] /\
    m_retxSeqs c' = [] /\ m_seq c' = m_seq c /\
    SeqTimeouts.find s (m_seqTimeouts c') = Some (mkSeqTimeout s now').
Proof.
  intros Hact Hretx Hs.
  assert (Hact1 : m_active (OnNack now s c) = true)
    by (rewrite (proj1 (proj1 (OnNack_keeps_pace now s c))); exact Hact).
  assert (F : m_retxSeqs (OnNack now s c) = [s] /\
              m_seqTimeouts (OnNack now s c) = SeqTimeouts.erase s (m_seqTimeouts c) /\
              m_log (OnNack now s c) = m_log c ++ [AppOnNack s] /\
              m_seq (OnNack now s c) = m_seq c).
  { unfold OnNack, ScheduleNextPacket, log. rewrite Hact; simpl.
    destruct (m_firstTime c); [simpl; rewrite Hretx; repeat split |].
    destruct (IsRunning (m_sendEvent c)); simpl; rewrite Hretx; repeat split. }
  destruct F as (Hretx1 & Htimeouts1 & Hlog1 & Hseq1).
  set (c1 := OnNack now s c) in *. clearbody c1.
  exists (send_interest now' s (set_m_retxSeqs [] c1)).
  split; [apply SendPacket_resends; assumption |].
  destruct (send_interest_fields now' s (set_m_retxSeqs [] c1))
    as (_ & Hseq & _ & _ & Hr & Hl).
  rewrite Hl, Hr, Hseq, send_interest_seqTimeouts; simpl.
  rewrite Hlog1, Hseq1, Htimeouts1, issued_app; simpl. rewrite app_nil_r.
  repeat split.
  rewrite SeqTimeouts_find_insert.
  rewrite (SeqTimeouts_find_count s _ (SeqTimeouts_count_erase s _)). reflexivity.
Qed.

(** X8.  After a timeout check that found expired entries (none of them the
    reserved number [2^32 - 1]) while nothing else waited for retransmission,
    the next transmission resends the smallest expired sequence number, which
    re-enters the timeout ledger with the time of the retransmission. *)
Theorem timeout_then_resend (fuel : nat) (now rto now' : Time) (c : Consumer) :
  containers_wf c -> m_active c = true -> m_retxSeqs c = [] ->
  List.filter (expired now rto) (m_seqTimeouts c) <> [] ->
  List.Forall (fun e => seq e <> UINT32_MAX)
              (List.filter (expired now rto) (m_seqTimeouts c)) ->
  exists x c', SendPacket fuel now' (CheckRetxTimeout now rto c) = Returned c' /\
    In x (map seq (List.filter (expired now rto) (m_seqTimeouts c))) /\
    (forall y, In y (map seq (List.filter (expired now rto) (m_seqTimeouts c))) ->
               x <= y) /\
    issued (m_log c') = issued (m_log c) ++ [x] /\
    SeqTimeouts.find x (m_seqTimeouts c') = Some (mkSeqTimeout x now').
Proof.
  intros Hwf Hact Hretx Hgone Hvalid.
  pose proof Hwf as ((Hsorted & Hunique) & _).
  pose proof (CheckRetxTimeout_wf now rto c Hwf) as (_ & _ & _ & Hqueue).
  assert (Hact1 : m_active (CheckRetxTimeout now rto c) = true)
    by (rewrite (proj1 (proj1 (CheckRetxTimeout_keeps_pace now rto c))); exact Hact).
  pose proof (CheckRetxTimeout_seqTimeouts now rto c Hsorted) as Hkept.
  assert (Hlog1 : issued (m_log (CheckRetxTimeout now rto c)) = issued (m_log c)).
  { rewrite (CheckRetxTimeout_spec now rto c Hsorted).
    change (m_log (set_m_retxEvent ?e ?x)) with (m_log x).
    rewrite signal_timeouts_log, issued_app, issued_RttSentSeq, app_nil_r.
    reflexivity. }
  assert (Hin1 : forall y, In y (m_retxSeqs (CheckRetxTimeout now rto c)) <->
                   In y (map seq (List.filter (expired now rto) (m_seqTimeouts c)))).
  { intros y. rewrite (CheckRetxTimeout_spec now rto c Hsorted).
    change (m_retxSeqs (set_m_retxEvent ?e ?x)) with (m_retxSeqs x).
    rewrite signal_timeouts_retxSeqs. simpl. rewrite Hretx. simpl. tauto. }
  set (c1 := CheckRetxTimeout now rto c) in *. clearbody c1.
  destruct (m_retxSeqs c1) as [|x rest] eqn:Hretx1.
  { exfalso. destruct (List.filter (expired now rto) (m_seqTimeouts c)) as [|e r];
      [apply Hgone; reflexivity |].
    apply (proj2 (Hin1 (seq e))). simpl. left. reflexivity. }
  assert (Hx : In x (map seq (List.filter (expired now rto) (m_seqTimeouts c))))
    by (apply Hin1; left; reflexivity).
  assert (Hxv : x <> UINT32_MAX).
  { rewrite in_map_iff in Hx. destruct Hx as (e & <- & He).
    rewrite List.Forall_forall in Hvalid. apply Hvalid. exact He. }
  exists x, (send_interest now' x (set_m_retxSeqs rest c1)).
  split; [apply SendPacket_resends; assumption |].
  split; [exact Hx |].
  split.
  - intros y Hy. apply Hin1 in Hy. destruct Hy as [<- | Hy]; [lia |].
    apply StronglySorted_inv in Hqueue as [_ Hall].
    rewrite List.Forall_forall in Hall. specialize (Hall y Hy). lia.
  - destruct (send_interest_fields now' x (set_m_retxSeqs rest c1))
      as (_ & _ & _ & _ & _ & Hl).
    rewrite Hl, send_interest_seqTimeouts; simpl. rewrite Hlog1, Hkept.
    split; [reflexivity |].
    assert (Hc : SeqTimeouts.count x
                   (List.filter (unexpired now rto) (m_seqTimeouts c)) = false)
      by exact (seq_unique_split (expired now rto) _ x Hunique Hx).
    rewrite SeqTimeouts_find_insert, (SeqTimeouts_find_count x _ Hc).
    reflexivity.
Qed.

(** X9.  The queued retransmissions go out one per tick, in the order of the
    queue (ascending sequence number), before any new sequence number: after
    as many ticks as the queue had entries (none of them the reserved number)
    exactly these were sent, the queue is empty and the sequence counter has
    not moved. *)
Theorem retransmissions_drain (fuel : nat) (queue : list Z) :
  forall (nows : list Time) (c : Consumer),
  m_active c = true -> m_retxSeqs c = queue ->
  List.Forall (fun x => x <> UINT32_MAX) queue ->
  length nows = length queue ->
  exists c', run_ticks fuel nows c = Returned c' /\
    issued (m_log c') = issued (m_log c) ++ queue /\
    m_retxSeqs c' = [] /\ m_seq c' = m_seq c.
Proof.
  induction queue as [|x rest IH]; intros nows c Hact Hretx Hvalid Hlen.
  - destruct nows; [| discriminate]. exists c. simpl.
    rewrite app_nil_r. auto.
  - destruct nows as [|now nows]; [discriminate |]. cbn [run_ticks].
    inversion Hvalid as [|? ? Hx Hrest]; subst.
    rewrite (SendPacket_resends fuel now (set_m_sendEvent None c) x rest Hact Hretx Hx).
    destruct (send_interest_fields now x
                (set_m_retxSeqs rest (set_m_sendEvent None c)))
      as (A & B & _ & _ & R & L).
    assert (A' : m_active (send_interest now x
                             (set_m_retxSeqs rest (set_m_sendEvent None c))) = true)
      by (rewrite A; exact Hact).
    assert (Hlen' : length nows = length rest) by (simpl in Hlen; lia).
    destruct (IH nows (send_interest now x
                         (set_m_retxSeqs rest (set_m_sendEvent None c)))
                A' R Hrest Hlen')
      as (c' & E & L' & R' & S').
    exists c'. split; [exact E |].
    rewrite L', L, S', B. simpl. rewrite <- app_assoc. auto.
Qed.

End RetransmissionFacts.

(** Witness of [nack_then_resend]. *)
Lemma nack_then_resend_witness :
  exists c', SendPacket 0 100000000 (OnNack 0 7 paced_consumer) = Returned c' /\
             issued (m_log c') = [7].
Proof.
  destruct (nack_then_resend 0 0 100000000 7 paced_consumer eq_refl eq_refl
              ltac:(discriminate)) as (c' & E & L & _).
  exists c'. split; [exact E | exact L].
Defined.

(** Witness of [timeout_then_resend]: of the sequences 0 and 1 that expire in
    [three_pending], sequence 0 is sent again first. *)
Lemma timeout_then_resend_witness :
  exists x c',
    SendPacket 0 3050000000 (CheckRetxTimeout 3000000000 1500000000 three_pending)
    = Returned c' /\
    In x [0; 1] /\ (forall y, In y [0; 1] -> x <= y) /\
    issued (m_log c') = [x].
Proof.
  assert (Hwf : containers_wf three_pending).
  { unfold containers_wf, container_wf, SeqTimeouts.time_sorted,
      SeqTimeouts.seq_unique; simpl.
    repeat split; repeat constructor; simpl; try lia; intuition discriminate. }
  destruct (timeout_then_resend 0 3000000000 1500000000 3050000000 three_pending
              Hwf eq_refl eq_refl ltac:(discriminate)
              ltac:(repeat constructor; discriminate))
    as (x & c' & E & Hin & Hmin & L & _).
  exists x, c'. split; [exact E |]. split; [exact Hin |].
  split; [exact Hmin | exact L].
Defined.

(** Witness of [retransmissions_drain]. *)
Lemma retransmissions_drain_witness :
  exists c',
    run_ticks 0 [0; 100000000; 200000000]
              (set_m_retxSeqs [3; 5; 8] (new_Consumer SEQUENTIAL UINT32_MAX true))
    = Returned c' /\
    issued (m_log c') = [3; 5; 8] /\ m_seq c' = 0.
Proof.
  destruct (retransmissions_drain 0 [3; 5; 8] [0; 100000000; 200000000]
              (set_m_retxSeqs [3; 5; 8] (new_Consumer SEQUENTIAL UINT32_MAX true))
              eq_refl eq_refl ltac:(repeat constructor; discriminate) eq_refl)
    as (c' & E & L & _ & S).
  exists c'. split; [exact E |]. split; [exact L | exact S].
Defined.

(** ** The consumer: the sampler and the random name component *)

Section SamplerFacts.

Context `{D : Double}.

Lemma scan_Pcum_spec (Pcum : list double) (p : double) (default : Z) (n : nat) :
  forall start : nat,
  let s := scan_Pcum Pcum p (List.seq start n) default in
  (exists i, (start <= i < start + n)%nat /\ s = Z.of_nat i /\
             d_leb p (vec_get Pcum i) = true /\
             forall j, (start <= j < i)%nat -> d_leb p (vec_get Pcum j) = false) \/
  (s = default /\
   forall j, (start <= j < start + n)%nat -> d_leb p (vec_get Pcum j) = false).
Proof.
  induction n as [|n IH]; intros start; cbn [List.seq scan_Pcum].
  - right. split; [reflexivity | intros j Hj; lia].
  - destruct (d_leb p (vec_get Pcum start)) eqn:E.
    + left. exists start. repeat split; try lia. exact E.
    + destruct (IH (S start)) as [(i & Hi & Hs & Hp & Hbefore) | (Hs & Hnone)].
      * left. exists i. repeat split; try lia; try assumption.
        intros j Hj. destruct (Nat.eq_dec j start) as [-> | Hne]; [exact E |].
        apply Hbefore. lia.
      * right. split; [exact Hs |].
        intros j Hj. destruct (Nat.eq_dec j start) as [-> | Hne]; [exact E |].
        apply Hnone. lia.
Qed.





(** X11.  From a table just built by the catalogue-size setter (at least one
    item and fewer than [2^32 - 1], positive terms, finite sum, an arithmetic
    with the laws of [DoubleLaws] at the terms and their partial sums) every
    draw [p <= 1.0] is mapped to an index [i] in [1..N] with
    [p <= m_Pcum[i]] and [p] above all earlier entries: the fall-back to
    index 1 is never taken. *)
Theorem built_table_sampling (occurs finite : double -> Prop)
        (L : DoubleLaws D occurs finite) (c : Consumer) (n : Z) (p : double) :
  m_requestMode c = ZIPF_MANDELBROT ->
  1 <= n < UINT32_MAX ->
  (forall i, (1 <= i <= Z.to_nat n)%nat ->
     d_lt d_zero
          (d_div d_one (d_pow (d_add (d_of_uint (Z.of_nat i)) (m_q c)) (m_s c)))) ->
  finite (cumulative (m_q c) (m_s c) (Z.to_nat n)) ->
  (forall i, (1 <= i <= Z.to_nat n)%nat ->
     occurs (d_div d_one (d_pow (d_add (d_of_uint (Z.of_nat i)) (m_q c)) (m_s c)))) ->
  (forall i, (i <= Z.to_nat n)%nat -> occurs (cumulative (m_q c) (m_s c) i)) ->
  d_le p d_one ->
  exists (c' : Consumer) (i : nat),
    SetNumberOfContents n c = Some c' /\
    index_of c' p = Z.of_nat i /\ (1 <= i <= Z.to_nat n)%nat /\
    first_bucket (m_Pcum c') p i.
Proof.
  intros Hmode Hn Hpos Hfin Hterms Hsums Hp.
  exists (set_m_Pcum (popularity_table (m_q c) (m_s c) (Z.to_nat n)) (set_m_N n c)).
  assert (Hlast : vec_get (popularity_table (m_q c) (m_s c) (Z.to_nat n)) (Z.to_nat n)
                  = d_one).
  { rewrite popularity_table_get by lia.
    apply (popularity_table_sorted occurs finite L (m_q c) (m_s c) (Z.to_nat n)
             Hpos Hterms Hsums); [lia | exact Hfin]. }
  unfold index_of.
  change (m_Pcum (set_m_Pcum (popularity_table (m_q c) (m_s c) (Z.to_nat n))
                             (set_m_N n c)))
    with (popularity_table (m_q c) (m_s c) (Z.to_nat n)).
  change (m_N (set_m_Pcum (popularity_table (m_q c) (m_s c) (Z.to_nat n))
                          (set_m_N n c))) with n.
  destruct (scan_Pcum_spec (popularity_table (m_q c) (m_s c) (Z.to_nat n)) p 1
              (Z.to_nat n) 1) as [(i & Hi & Hs & Hpi & Hbefore) | (_ & Hnone)].
  - exists i. split; [apply SetNumberOfContents_popularity; [exact Hmode | lia] |].
    split; [exact Hs |]. split; [lia |]. split; assumption.
  - exfalso. specialize (Hnone (Z.to_nat n) ltac:(lia)).
    rewrite Hlast in Hnone. unfold d_le in Hp. congruence.
Qed.




End SamplerFacts.


(** Witness of [built_table_sampling], in binary64: a draw of 1/2 from the
    table 0, 2/3, 1 of two items with [q = 0] and [s = 1]. *)
Lemma built_table_sampling_witness :
  exists (c' : @Consumer (Binary64 pow_exponent_0_or_1)) (i : nat),
    SetNumberOfContents 2 (popularity_consumer64 0 1) = Some c' /\
    index_of c' 0.5%float = Z.of_nat i /\
    (1 <= i <= 2)%nat.
Proof.
  destruct (@built_table_sampling (Binary64 pow_exponent_0_or_1)
              (fun x => In x [0; 1; 0.5; 1.5]%float) (fun x => is_finite x = true)
              binary64_laws_two_items (popularity_consumer64 0 1) 2 0.5%float
              eq_refl ltac:(unfold UINT32_MAX; lia))
    as (c' & i & E & Hi & Hrange & _).
  - intros [|[|[|i]]] Hi; try (simpl in Hi; lia); split; reflexivity.
  - reflexivity.
  - intros [|[|[|i]]] Hi; try (simpl in Hi; lia); simpl; tauto.
  - intros [|[|[|i]]] Hi; try (simpl in Hi; lia); simpl; tauto.
  - reflexivity.
  - exists c', i. split; [exact E |]. split; [exact Hi | exact Hrange].
Defined.


(** ** The forwarding strategy, continued *)




Section StrategyFacts.

Context `{W : CwndPolicy}.







End StrategyFacts.

(** ** The multipath scenario *)

Ltac compare_names :=
  repeat match goal with
         | |- context [String.eqb ?a ?b] => destruct (String.eqb_spec a b); subst
         end.

Lemma shaper_mode_None (shaper : string) :
  shaper_mode shaper = None <->
  ~ In shaper ["DropTail"; "PIE"; "CoDel"; "None"]%string.
Proof.
  unfold shaper_mode. compare_names; simpl; split;
    try discriminate;
    try reflexivity;
    try (intros H; exfalso; apply H; tauto);
    try (intros _ H; intuition congruence).
Qed.

Lemma consumer_type_None (consumer : string) :
  consumer_type consumer = None <->
  ~ In consumer ["AIMD"; "CUBIC"; "RAAQM"; "WindowRelentless"; "RateRelentless";
                 "RateFeedback"]%string.
Proof.
  unfold consumer_type. compare_names; simpl; split;
    try discriminate;
    try reflexivity;
    try (intros H; exfalso; apply H; tauto);
    try (intros _ H; intuition congruence).
Qed.

(** X16.  [main] gives up ([return -1]) exactly when the shaper is none of
    DropTail, PIE, CoDel, None or the consumer is none of the six known names;
    otherwise the congestion-aware strategy is installed exactly when it is
    asked for by name and a shaper is in use, any other strategy name means
    best-route; without a shaper the stack is best-route without NACKs,
    whatever strategy was asked for, and with a shaper NACKs are enabled. *)
Theorem scenario_selection (consumer shaper strategy : string) :
  (scenario consumer shaper strategy = None <->
   ~ In shaper ["DropTail"; "PIE"; "CoDel"; "None"]%string \/
   ~ In consumer ["AIMD"; "CUBIC"; "RAAQM"; "WindowRelentless"; "RateRelentless";
                  "RateFeedback"]%string) /\
  match scenario consumer shaper strategy with
  | None => True
  | Some sc =>
      (sc_strategy sc = "ns3::ndn::fw::CongestionAware"%string <->
       strategy = "CongestionAware"%string /\ shaper <> "None"%string) /\
      (sc_strategy sc = "ns3::ndn::fw::CongestionAware"%string \/
       sc_strategy sc = "ns3::ndn::fw::BestRoute"%string) /\
      (if String.eqb shaper "None"
       then sc_attributes sc = [] /\ sc_shaper sc = None
       else In ("EnableNACKs", "true")%string (sc_attributes sc) /\
            sc_shaper sc <> None)
  end.
Proof.
  split.
  - rewrite <- shaper_mode_None, <- consumer_type_None. unfold scenario.
    destruct (shaper_mode shaper) as [mode |]; [| tauto].
    destruct (consumer_type consumer) as [type |].
    + split; [discriminate | intros [H | H]; discriminate].
    + tauto.
  - unfold scenario.
    destruct (shaper_mode shaper) as [mode |] eqn:Emode; [| exact I].
    destruct (consumer_type consumer) as [type |]; [| exact I].
    cbn [sc_strategy sc_attributes sc_shaper].
    unfold shaper_mode in Emode.
    destruct (String.eqb_spec shaper "None") as [-> | Hshaper]; cbn [negb].
    + simpl. split; [split; [discriminate | intros [_ H]; congruence] |].
      split; [right; reflexivity | split; reflexivity].
    + destruct (String.eqb_spec strategy "CongestionAware") as [-> | Hstrategy];
        cbn [fst snd].
      * split; [split; [intros _; split; [reflexivity | exact Hshaper] | reflexivity] |].
        split; [left; reflexivity |]. split; [simpl; tauto |].
        revert Emode. compare_names; simpl; congruence.
      * split; [split; [discriminate | intros [H _]; congruence] |].
        split; [right; reflexivity |]. split; [simpl; tauto |].
        revert Emode. compare_names; simpl; congruence.
Qed.

(** ** A sequential consumer from start to finish *)

Lemma count_up_S (from : Z) (n : nat) :
  count_up from (S n) = from :: count_up (from + 1) n.
Proof.
  unfold count_up. cbn [List.seq map]. rewrite Z.add_0_r. f_equal.
  rewrite <- List.seq_shift, map_map. apply map_ext. intros i. lia.
Qed.

Section SequentialFacts.

Context `{D : Double}.

Lemma SendPacket_fresh_sequential (fuel : nat) (now : Time) (c : Consumer) :
  m_active c = true -> m_retxSeqs c = [] -> m_requestMode c = SEQUENTIAL ->
  m_seq c < m_seqMax c ->
  SendPacket fuel now c =
  Returned (send_interest now (m_seq c) (set_m_seq (wrap32 (m_seq c + 1)) c)).
Proof.
  intros Hact Hretx Hmode Hlt. unfold SendPacket. rewrite Hact, Hretx; simpl.
  rewrite ?Z.eqb_refl.
  assert (E : (m_seq c >=? m_seqMax c) = false)
    by (rewrite Z.geb_leb; apply Z.leb_gt; exact Hlt).
  rewrite E, andb_false_r, Hmode. reflexivity.
Qed.

Lemma SendPacket_done (fuel : nat) (now : Time) (c : Consumer) :
  m_active c = true -> m_retxSeqs c = [] ->
  m_seqMax c <> UINT32_MAX -> m_seqMax c <= m_seq c ->
  SendPacket fuel now c = Returned c.
Proof.
  intros Hact Hretx Hmax Hge. unfold SendPacket. rewrite Hact, Hretx; simpl.
  rewrite ?Z.eqb_refl.
  assert (E1 : (m_seqMax c =? UINT32_MAX) = false) by (apply Z.eqb_neq; exact Hmax).
  assert (E2 : (m_seq c >=? m_seqMax c) = true)
    by (rewrite Z.geb_leb; apply Z.leb_le; exact Hge).
  rewrite E1, E2. reflexivity.
Qed.

(** X17.  A sequential consumer with a limit on its sequence numbers and
    nothing to retransmit issues, tick after tick, the consecutive sequence
    numbers from its counter up to the limit (excluded), each once; from then
    on a tick sends nothing and no further transmission is scheduled. *)
Theorem sequential_consumer_counts_up_then_stops (fuel : nat) (nows : list Time) :
  forall c : Consumer,
  m_active c = true -> m_requestMode c = SEQUENTIAL -> m_retxSeqs c = [] ->
  0 <= m_seq c <= m_seqMax c -> m_seqMax c < UINT32_MAX ->
  exists c', run_ticks fuel nows c = Returned c' /\
    issued (m_log c') =
      issued (m_log c) ++
      count_up (m_seq c) (Nat.min (length nows) (Z.to_nat (m_seqMax c - m_seq c))) /\
    m_seq c' = Z.min (m_seq c + Z.of_nat (length nows)) (m_seqMax c) /\
    (Z.to_nat (m_seqMax c - m_seq c) < length nows -> m_sendEvent c' = None)%nat.
Proof.
  induction nows as [|now nows IH]; intros c Hact Hmode Hretx Hseq Hmax.
  - exists c. cbn [run_ticks length Nat.min]. unfold count_up; simpl.
    rewrite app_nil_r. split; [reflexivity |]. split; [reflexivity |].
    split; [lia | intros H; inversion H].
  - cbn [run_ticks length].
    set (c0 := set_m_sendEvent None c).
    assert (A0 : m_active c0 = true) by exact Hact.
    assert (M0 : m_requestMode c0 = SEQUENTIAL) by exact Hmode.
    assert (R0 : m_retxSeqs c0 = []) by exact Hretx.
    assert (S0 : m_seq c0 = m_seq c) by reflexivity.
    assert (X0 : m_seqMax c0 = m_seqMax c) by reflexivity.
    assert (L0 : m_log c0 = m_log c) by reflexivity.
    assert (E0 : m_sendEvent c0 = None) by reflexivity.
    clearbody c0.
    destruct (Z.lt_ge_cases (m_seq c) (m_seqMax c)) as [Hlt | Hge].
    + rewrite (SendPacket_fresh_sequential fuel now c0 A0 R0 M0)
        by (rewrite S0, X0; exact Hlt).
      set (c1 := set_m_seq (wrap32 (m_seq c0 + 1)) c0).
      assert (A1 : m_active c1 = true) by exact A0.
      assert (M1 : m_requestMode c1 = SEQUENTIAL) by exact M0.
      assert (R1 : m_retxSeqs c1 = []) by exact R0.
      assert (S1 : m_seq c1 = m_seq c + 1).
      { unfold c1; simpl. rewrite S0. unfold wrap32. apply Z.mod_small.
        unfold UINT32_MAX in Hmax. lia. }
      assert (X1 : m_seqMax c1 = m_seqMax c) by exact X0.
      assert (L1 : m_log c1 = m_log c) by exact L0.
      clearbody c1.
      destruct (send_interest_fields now (m_seq c0) c1) as (A & Sq & X & M & R & L).
      destruct (IH (send_interest now (m_seq c0) c1)) as (c' & E & Hlog & Hs & Hev).
      * rewrite A; exact A1.
      * rewrite M; exact M1.
      * rewrite R; exact R1.
      * rewrite Sq, X, S1, X1. lia.
      * rewrite X, X1. exact Hmax.
      * exists c'. split; [exact E |].
        rewrite Sq, X, S1, X1 in Hlog, Hs, Hev. rewrite L, L1, S0 in Hlog.
        replace (Nat.min (S (length nows)) (Z.to_nat (m_seqMax c - m_seq c)))
          with (S (Nat.min (length nows) (Z.to_nat (m_seqMax c - (m_seq c + 1)))))
          by lia.
        rewrite count_up_S, Hlog, <- app_assoc. split; [reflexivity |].
        split; [lia | intros H; apply Hev; lia].
    + rewrite (SendPacket_done fuel now c0 A0 R0)
        by (rewrite ?X0, ?S0; unfold UINT32_MAX in *; lia).
      destruct (IH c0 A0 M0 R0) as (c' & E & Hlog & Hs & Hev).
      * rewrite S0, X0. exact Hseq.
      * rewrite X0. exact Hmax.
      * exists c'. split; [exact E |].
        rewrite S0, X0, L0 in Hlog. rewrite S0, X0 in Hs, Hev.
        replace (Z.to_nat (m_seqMax c - m_seq c)) with 0%nat in * by lia.
        rewrite Nat.min_0_r in *. split; [exact Hlog |]. split; [lia |].
        intros _. destruct nows as [|now' nows'].
        -- cbn [run_ticks] in E. inversion E; subst c'. exact E0.
        -- apply Hev. simpl. lia.
Qed.

End SequentialFacts.

(** Witness of [sequential_consumer_counts_up_then_stops]: a consumer limited
    to two sequence numbers, over three ticks. *)
Lemma sequential_consumer_counts_up_then_stops_witness :
  exists c' : @Consumer ExactArithmetic,
    run_ticks 0 [0; 100000000; 200000000] (new_Consumer SEQUENTIAL 2 true)
    = Returned c' /\
    issued (m_log c') = [0; 1] /\ m_seq c' = 2 /\ m_sendEvent c' = None.
Proof.
  destruct (sequential_consumer_counts_up_then_stops 0 [0; 100000000; 200000000]
              (new_Consumer SEQUENTIAL 2 true) eq_refl eq_refl eq_refl
              ltac:(simpl; lia) ltac:(unfold UINT32_MAX; simpl; lia))
    as (c' & E & Hlog & Hs & Hev).
  exists c'. split; [exact E |]. split; [exact Hlog |]. split; [exact Hs |].
  apply Hev. simpl. lia.
Defined.

(** ** Setting the popularity parameters *)

Section SetterFacts.

Context `{D : Double}.

(** X18.  In popularity mode, for catalogue sizes below [2^32 - 1] (the new
    one and the one in force), the three setters can be called in any order:
    every call returns, and the consumer ends with the three parameters
    stored and the table of the specification for them.  In sequential mode
    all three are dropped. *)
Theorem parameter_setters_commute (c : Consumer) (n : Z) (q s : double) :
  0 <= n < UINT32_MAX -> 0 <= m_N c < UINT32_MAX ->
  match m_requestMode c with
  | ZIPF_MANDELBROT =>
      forall order,
        In order [[SetNumberOfContents n; SetS s; SetQ q];
                  [SetNumberOfContents n; SetQ q; SetS s];
                  [SetS s; SetNumberOfContents n; SetQ q];
                  [SetS s; SetQ q; SetNumberOfContents n];
                  [SetQ q; SetNumberOfContents n; SetS s];
                  [SetQ q; SetS s; SetNumberOfContents n]] ->
        call_in_order order c
        = Some (set_m_Pcum (popularity_table q s (Z.to_nat n))
                           (set_m_q q (set_m_s s (set_m_N n c))))
  | SEQUENTIAL =>
      call_in_order [SetNumberOfContents n; SetS s; SetQ q] c = Some c
  end.
Proof.
  intros Hn HN. destruct (m_requestMode c) eqn:Hmode.
  - unfold call_in_order; simpl.
    unfold SetNumberOfContents. rewrite Hmode.
    unfold SetS. rewrite Hmode. unfold SetQ. rewrite Hmode. reflexivity.
  - assert (Step : forall (c0 : Consumer),
              m_requestMode c0 = ZIPF_MANDELBROT -> 0 <= m_N c0 < UINT32_MAX ->
              (SetNumberOfContents n c0
               = Some (set_m_Pcum (popularity_table (m_q c0) (m_s c0) (Z.to_nat n))
                                  (set_m_N n c0))) /\
              (SetQ q c0
               = Some (set_m_Pcum (popularity_table q (m_s c0) (Z.to_nat (m_N c0)))
                                  (set_m_q q c0))) /\
              (SetS s c0
               = Some (set_m_Pcum (popularity_table (m_q c0) s (Z.to_nat (m_N c0)))
                                  (set_m_s s c0)))).
    { intros c0 H0 HN0.
      split; [apply SetNumberOfContents_popularity; assumption |].
      split; [apply SetQ_popularity | apply SetS_popularity]; assumption. }
    intros order Horder. unfold call_in_order.
    simpl in Horder.
    repeat (destruct Horder as [<- | Horder]); try contradiction;
      cbn [fold_left];
      repeat match goal with
             | |- context [SetNumberOfContents n ?c0] =>
                 rewrite (proj1 (Step c0 Hmode ltac:(simpl; lia)))
             | |- context [SetQ q ?c0] =>
                 rewrite (proj1 (proj2 (Step c0 Hmode ltac:(simpl; lia))))
             | |- context [SetS s ?c0] =>
                 rewrite (proj2 (proj2 (Step c0 Hmode ltac:(simpl; lia))))
             end;
      destruct c; reflexivity.
Qed.

End SetterFacts.

(** Witness of [parameter_setters_commute], in binary64: [q = 0], [s = 1] and
    two items, set in the order [S], [Q], [NumberOfContents]. *)
Lemma parameter_setters_commute_witness :
  option_map m_Pcum
    (call_in_order
       [@SetS (Binary64 pow_exponent_0_or_1) 1%float;
        @SetQ (Binary64 pow_exponent_0_or_1) 0%float;
        @SetNumberOfContents (Binary64 pow_exponent_0_or_1) 2]
       (popularity_consumer64 (-1) 0))
  = Some [0; 0x1.5555555555555p-1; 1]%float.
Proof.
  pose proof (@parameter_setters_commute (Binary64 pow_exponent_0_or_1)
                (popularity_consumer64 (-1) 0) 2 0%float 1%float
                ltac:(unfold UINT32_MAX; lia) ltac:(unfold UINT32_MAX; simpl; lia))
    as H.
  cbn [m_requestMode popularity_consumer64] in H.
  rewrite (H _ (or_intror (or_intror (or_intror (or_introl eq_refl))))).
  reflexivity.
Defined.
